(** * Grid level layout: corridor router, layout repair and 3D assembly

    A shallow embedding of the grid subsystem of the level generator:

    - [LevelLayoutService] (backend/src/agents/level-layout/level-layout.service.ts):
      [validateAndFixLayout] and the corridor router [buildCorridorBetweenRooms];
    - [AssemblyService] (the assembly agent): wall carving
      [createWallWithOpenings], POI markers [buildGridPOIs], object placement
      [positionGridObjects] and camera framing [configureGridCamera]; floors
      [buildGridRooms], corridor ribbons [buildGridCorridors], lighting
      [configureLighting] and the scene [assemble].

    JavaScript numbers are modelled by exact rationals [Q]: every finite
    double is a rational, and on the integer grid values handled here the
    operations used ([+], [-], [*], [/ 2], [Math.floor], [Math.round],
    [Math.min], [Math.max], comparisons) are exact.  The two places where the
    source leaves the finite numbers are modelled apart: the [Infinity]
    accumulators of the camera ([xnum]) and the trigonometric arc of the prop
    placement ([ObjectPosition.Arc]). *)

From Stdlib Require Import ZArith QArith Qround Qminmax Lqa Lia Ascii String.
From stdpp Require Import gmap strings list pretty.

Open Scope Q_scope.

(** ** JavaScript numbers and the [Math] functions the code uses *)

Module Math.

(** [Math.floor]: the largest integer not above [x]. *)
Definition floor (x : Q) : Q := inject_Z (Qfloor x).

(** [Math.round]: the integer closest to [x]; when two integers are equally
    close, the one closer to +∞ (ECMAScript, Math.round). *)
Definition round (x : Q) : Q := inject_Z (Qfloor (x + (1 # 2))).

Definition max (x y : Q) : Q := Qmax x y.
Definition min (x y : Q) : Q := Qmin x y.

End Math.

(** [a < b], [a <= b], [a > b], [a >= b] and [a === b] on numbers. *)
Definition ltb (a b : Q) : bool := negb (Qle_bool b a).
Definition leb (a b : Q) : bool := Qle_bool a b.
Definition gtb (a b : Q) : bool := ltb b a.
Definition geb (a b : Q) : bool := leb b a.
Definition eqb (a b : Q) : bool := Qeq_bool a b.

(** [n || d] on a possibly missing number: [undefined] and [0] are falsy. *)
Definition num_or (n : option Q) (d : Q) : Q :=
  match n with
  | Some v => if eqb v 0 then d else v
  | None => d
  end.

(** ** Data model (shared/interfaces/chat.interface.ts) *)

(** Cell size in metres, and wall height in metres. *)
Definition GRID_CELL_SIZE : Q := 4.
Definition WALL_HEIGHT : Q := 4.

Module RoomMaterial.
Record t := mk {
  floorColor : option string;
  wallColor : option string;
  floorTexture : option string;
  wallTexture : option string }.
End RoomMaterial.

Module GridRoom.
(** [tags] is declared mandatory, but the repair defaults a missing one,
    so a raw room may lack it. *)
Record t := mk {
  id : string;
  name : string;
  gridX : Q;
  gridY : Q;
  width : Q;
  height : Q;
  tags : option (list string);
  material : option RoomMaterial.t }.
End GridRoom.

Module CorridorSegment.
Record t := mk {
  startX : Q;
  startY : Q;
  endX : Q;
  endY : Q }.
End CorridorSegment.

Module GridCorridor.
(** A raw corridor (as the generator's output format has it) carries the
    legacy end points and may lack [segments] and [widthCells]. *)
Record t := mk {
  id : string;
  fromRoom : string;
  toRoom : string;
  segments : option (list CorridorSegment.t);
  widthCells : option Q;
  startX : option Q;
  startY : option Q;
  endX : option Q;
  endY : option Q }.
End GridCorridor.

Inductive POIType := spawn | goal | treasure | checkpoint.

#[global] Instance POIType_eq_dec : EqDecision POIType.
Proof. solve_decision. Defined.

Module GridPOI.
Record t := mk {
  id : string;
  type : POIType;
  roomId : string;
  offsetX : Q;
  offsetY : Q }.
End GridPOI.

Module GridConfig.
Record t := mk {
  cellSize : Q;
  totalWidth : Q;
  totalHeight : Q }.
End GridConfig.

Module GridLevelData.
(** [grid], [rooms], [pois] and [criticalPath] are tested for absence by the
    repair; [corridors] is iterated as it is. *)
Record t := mk {
  name : string;
  type : string;
  theme : string;
  grid : option GridConfig.t;
  rooms : option (list GridRoom.t);
  corridors : list GridCorridor.t;
  pois : option (list GridPOI.t);
  criticalPath : option (list string) }.
End GridLevelData.

Module LevelLayout.
Record t := mk { level : option GridLevelData.t }.
End LevelLayout.

(** ** Exceptions *)

Inductive exn :=
  | Error (msg : string)
  | TypeError.

Definition result (A : Type) : Type := exn + A.

Definition throw {A} (e : exn) : result A := inl e.

#[global] Instance result_ret : MRet result := fun A a => inr a.
#[global] Instance result_bind : MBind result := fun A B k m =>
  match m with
  | inl e => inl e
  | inr a => k a
  end.

(** [room.tags?.includes(tag)] *)
Definition tagsInclude (room : GridRoom.t) (tag : string) : bool :=
  match GridRoom.tags room with
  | Some ts => bool_decide (tag ∈ ts)
  | None => false
  end.

(** ** LevelLayoutService *)

Module LevelLayoutService.

(** The edges and centre of a room, as [buildCorridorBetweenRooms]
    computes them. *)
Record Rect := mkRect {
  minX : Q;
  maxX : Q;
  minY : Q;
  maxY : Q;
  centerX : Q;
  centerY : Q }.

Definition rectOf (room : GridRoom.t) : Rect :=
  {| minX := GridRoom.gridX room;
     maxX := GridRoom.gridX room + GridRoom.width room;
     minY := GridRoom.gridY room;
     maxY := GridRoom.gridY room + GridRoom.height room;
     centerX := GridRoom.gridX room + GridRoom.width room / 2;
     centerY := GridRoom.gridY room + GridRoom.height room / 2 |}.

Record Overlap := mkOverlap {
  hasOverlap : bool;
  start : Q;
  end_ : Q }.

Definition getOverlap (min1 max1 min2 max2 : Q) : Overlap :=
  let overlapStart := Math.max min1 min2 in
  let overlapEnd := Math.min max1 max2 in
  {| hasOverlap := ltb overlapStart overlapEnd;
     start := overlapStart;
     end_ := overlapEnd |}.

Definition buildVerticalCorridor (from to : Rect) (overlapX : Overlap)
  : list CorridorSegment.t :=
  let x := Math.floor ((start overlapX + end_ overlapX) / 2) in
  let '(startY, endY) :=
    if leb (maxY from) (minY to)
    then (maxY from, minY to)
    else (minY from, maxY to) in
  [ {| CorridorSegment.startX := x;
       CorridorSegment.startY := startY;
       CorridorSegment.endX := x;
       CorridorSegment.endY := endY |} ].

Definition buildHorizontalCorridor (from to : Rect) (overlapY : Overlap)
  : list CorridorSegment.t :=
  let y := Math.floor ((start overlapY + end_ overlapY) / 2) in
  let '(startX, endX) :=
    if leb (maxX from) (minX to)
    then (maxX from, minX to)
    else (minX from, maxX to) in
  [ {| CorridorSegment.startX := startX;
       CorridorSegment.startY := y;
       CorridorSegment.endX := endX;
       CorridorSegment.endY := y |} ].

Definition buildLShapedCorridor (from to : Rect) : list CorridorSegment.t :=
  let goingRight := gtb (centerX to) (centerX from) in
  let goingDown := gtb (centerY to) (centerY from) in
  let startX := if goingRight then maxX from else minX from in
  let startY := Math.floor (centerY from) in
  let endX := Math.floor (centerX to) in
  let endY := if goingDown then minY to else maxY to in
  let cornerX := endX in
  let cornerY := startY in
  [ {| CorridorSegment.startX := startX;
       CorridorSegment.startY := startY;
       CorridorSegment.endX := cornerX;
       CorridorSegment.endY := cornerY |};
    {| CorridorSegment.startX := cornerX;
       CorridorSegment.startY := cornerY;
       CorridorSegment.endX := endX;
       CorridorSegment.endY := endY |} ].

(** The legacy end points read [segments[0]] and [segments[length - 1]];
    the three builders never return an empty list. *)
Definition buildCorridorBetweenRooms (corridorId : string)
    (fromRoom toRoom : GridRoom.t) (widthCells : Q) : GridCorridor.t :=
  let from := rectOf fromRoom in
  let to := rectOf toRoom in
  let overlapX := getOverlap (minX from) (maxX from) (minX to) (maxX to) in
  let overlapY := getOverlap (minY from) (maxY from) (minY to) (maxY to) in
  let segments :=
    if hasOverlap overlapX then buildVerticalCorridor from to overlapX
    else if hasOverlap overlapY then buildHorizontalCorridor from to overlapY
    else buildLShapedCorridor from to in
  {| GridCorridor.id := corridorId;
     GridCorridor.fromRoom := GridRoom.id fromRoom;
     GridCorridor.toRoom := GridRoom.id toRoom;
     GridCorridor.segments := Some segments;
     GridCorridor.widthCells := Some widthCells;
     GridCorridor.startX := CorridorSegment.startX <$> head segments;
     GridCorridor.startY := CorridorSegment.startY <$> head segments;
     GridCorridor.endX := CorridorSegment.endX <$> last segments;
     GridCorridor.endY := CorridorSegment.endY <$> last segments |}.

Definition mkPOI (id : string) (type : POIType) (room : GridRoom.t)
  : GridPOI.t :=
  {| GridPOI.id := id;
     GridPOI.type := type;
     GridPOI.roomId := GridRoom.id room;
     GridPOI.offsetX := 0;
     GridPOI.offsetY := 0 |}.

(** [rooms.find(p) || rooms[i]]; reading [.id] of [undefined] throws. *)
Definition findOr (p : GridRoom.t → bool) (rooms : list GridRoom.t)
    (fallback : option GridRoom.t) : result GridRoom.t :=
  match List.find p rooms with
  | Some room => mret room
  | None =>
      match fallback with
      | Some room => mret room
      | None => throw TypeError
      end
  end.

Definition generateDefaultPOIs (rooms : list GridRoom.t)
  : result (list GridPOI.t) :=
  entryRoom ← findOr (fun r => tagsInclude r "entry") rooms (head rooms);
  goalRoom ← findOr (fun r => tagsInclude r "goal") rooms (last rooms);
  mret [ mkPOI "poi_spawn" spawn entryRoom; mkPOI "poi_goal" goal goalRoom ].

(** The body of the loop over [level.rooms]: the room object is updated in
    place. *)
Definition fixRoom (room : GridRoom.t) : GridRoom.t :=
  {| GridRoom.id := GridRoom.id room;
     GridRoom.name := GridRoom.name room;
     GridRoom.gridX := Math.round (GridRoom.gridX room);
     GridRoom.gridY := Math.round (GridRoom.gridY room);
     GridRoom.width := Math.max 2 (Math.round (GridRoom.width room));
     GridRoom.height := Math.max 2 (Math.round (GridRoom.height room));
     GridRoom.tags := Some (default ["mid"%string] (GridRoom.tags room));
     GridRoom.material := GridRoom.material room |}.

(** [roomsMap]: a later room with the same id replaces an earlier one. *)
Definition buildRoomsMap (rooms : list GridRoom.t) : gmap string GridRoom.t :=
  foldl (fun m room => <[GridRoom.id room := room]> m) ∅ rooms.

(** The body of the loop over [level.corridors]: a corridor whose two ends
    resolve is rebuilt, any other is left out. *)
Definition fixCorridor (roomsMap : gmap string GridRoom.t)
    (corridor : GridCorridor.t) : option GridCorridor.t :=
  match roomsMap !! GridCorridor.fromRoom corridor,
        roomsMap !! GridCorridor.toRoom corridor with
  | Some fromRoom, Some toRoom =>
      Some (buildCorridorBetweenRooms (GridCorridor.id corridor)
              fromRoom toRoom (num_or (GridCorridor.widthCells corridor) 1))
  | _, _ => None
  end.

Definition hasType (ty : POIType) (pois : list GridPOI.t) : bool :=
  existsb (fun p => bool_decide (GridPOI.type p = ty)) pois.

(** [validateAndFixLayout] updates [layout.level] in place; the embedding
    returns the updated layout.  The room objects held by [roomsMap] are the
    updated ones of [level.rooms]. *)
Definition validateAndFixLayout (layout : LevelLayout.t)
  : result LevelLayout.t :=
  match LevelLayout.level layout with
  | None => throw (Error "Missing level in layout")
  | Some level =>
      match GridLevelData.rooms level with
      | None => throw (Error "At least 2 rooms required")
      | Some rawRooms =>
          if (length rawRooms <? 2)%nat
          then throw (Error "At least 2 rooms required")
          else
            let grid :=
              match GridLevelData.grid level with
              | Some g => g
              | None =>
                  {| GridConfig.cellSize := GRID_CELL_SIZE;
                     GridConfig.totalWidth := 30;
                     GridConfig.totalHeight := 50 |}
              end in
            let rooms := fixRoom <$> rawRooms in
            let roomsMap := buildRoomsMap rooms in
            let fixedCorridors :=
              omap (fixCorridor roomsMap) (GridLevelData.corridors level) in
            pois1 ←
              match GridLevelData.pois level with
              | None => generateDefaultPOIs rooms
              | Some ps =>
                  if (length ps <? 2)%nat then generateDefaultPOIs rooms
                  else mret ps
              end;
            pois2 ←
              (if negb (hasType spawn pois1) || negb (hasType goal pois1)
               then generateDefaultPOIs rooms
               else mret pois1);
            let criticalPath :=
              match GridLevelData.criticalPath level with
              | None => GridRoom.id <$> rooms
              | Some path =>
                  if (length path <? 2)%nat then GridRoom.id <$> rooms
                  else path
              end in
            mret {| LevelLayout.level := Some
              {| GridLevelData.name := GridLevelData.name level;
                 GridLevelData.type := GridLevelData.type level;
                 GridLevelData.theme := GridLevelData.theme level;
                 GridLevelData.grid := Some grid;
                 GridLevelData.rooms := Some rooms;
                 GridLevelData.corridors := fixedCorridors;
                 GridLevelData.pois := Some pois2;
                 GridLevelData.criticalPath := Some criticalPath |} |}
      end
  end.

End LevelLayoutService.

(** ** Game context and generated assets (the fields the placement reads) *)

Inductive Role := protagonist | antagonist | npc.

#[global] Instance Role_eq_dec : EqDecision Role.
Proof. solve_decision. Defined.

Module Character.
Record t := mk {
  id : string;
  name : string;
  role : Role }.
End Character.

Module Prop_.
Record t := mk {
  id : string;
  name : string;
  placement_tags : option (list string) }.
End Prop_.

Module GameContext.
Record t := mk {
  characters : list Character.t;
  props : option (list Prop_.t) }.
End GameContext.

Inductive AssetStatus := pending | generating | ready | failed.

#[global] Instance AssetStatus_eq_dec : EqDecision AssetStatus.
Proof. solve_decision. Defined.

Module GeneratedAsset.
Record t := mk {
  id : string;
  name : string;
  path : string;
  status : AssetStatus }.
End GeneratedAsset.

(** ** Numbers with [Infinity] and [NaN]

    [configureGridCamera] starts its bounds at [Infinity] and [-Infinity]. *)

Inductive xnum :=
  | xNaN
  | xNegInf
  | xFin (q : Q)
  | xPosInf.

Definition xmin (a b : xnum) : xnum :=
  match a, b with
  | xNaN, _ | _, xNaN => xNaN
  | xNegInf, _ | _, xNegInf => xNegInf
  | xPosInf, x | x, xPosInf => x
  | xFin p, xFin q => xFin (Math.min p q)
  end.

Definition xmax (a b : xnum) : xnum :=
  match a, b with
  | xNaN, _ | _, xNaN => xNaN
  | xPosInf, _ | _, xPosInf => xPosInf
  | xNegInf, x | x, xNegInf => x
  | xFin p, xFin q => xFin (Math.max p q)
  end.

Definition xneg (a : xnum) : xnum :=
  match a with
  | xNaN => xNaN
  | xNegInf => xPosInf
  | xFin q => xFin (- q)
  | xPosInf => xNegInf
  end.

Definition xadd (a b : xnum) : xnum :=
  match a, b with
  | xNaN, _ | _, xNaN => xNaN
  | xPosInf, xNegInf | xNegInf, xPosInf => xNaN
  | xPosInf, _ | _, xPosInf => xPosInf
  | xNegInf, _ | _, xNegInf => xNegInf
  | xFin p, xFin q => xFin (p + q)
  end.

Definition xsub (a b : xnum) : xnum := xadd a (xneg b).

(** Product with a finite constant. *)
Definition xmul (a : xnum) (k : Q) : xnum :=
  match a with
  | xNaN => xNaN
  | xFin q => xFin (q * k)
  | xPosInf => if ltb 0 k then xPosInf else if ltb k 0 then xNegInf else xNaN
  | xNegInf => if ltb 0 k then xNegInf else if ltb k 0 then xPosInf else xNaN
  end.

(** Quotient by a finite non-zero constant. *)
Definition xdiv (a : xnum) (k : Q) : xnum := xmul a (/ k).

(** ** AssemblyService *)

Definition Vec3 : Type := Q * Q * Q.

Module GeometryWall.
(** [color] is declared a string; it is [undefined] ([None]) when the style
    found for the room has no wall colour (see [getRoomStyle]). *)
Record t := mk {
  id : string;
  start : Vec3;
  end_ : Vec3;
  height : Q;
  color : option string }.
End GeometryWall.

Module GeometryPOI.
Record t := mk {
  id : string;
  type : POIType;
  position : Vec3;
  color : string;
  label : string;
  roomId : string }.
End GeometryPOI.

Module ObjectPosition.
(** [At p] is the point [p].  [Arc centerX centerZ propIndex] is the point
    [[centerX + Math.cos(angle) * 3, 0, centerZ + Math.sin(angle) * 3]] with
    [angle = propIndex * Math.PI / 3 - Math.PI / 6], kept symbolic. *)
Inductive t :=
  | At (p : Vec3)
  | Arc (centerX centerZ : Q) (propIndex : nat).
End ObjectPosition.

Module SceneObject.
Record t := mk {
  id : string;
  reference_id : string;
  name : string;
  model_path : string;
  position : ObjectPosition.t;
  rotation : Vec3;
  scale : Vec3;
  poi_id : option string }.
End SceneObject.

Module CameraConfig.
Record t := mk {
  default_position : xnum * xnum * xnum;
  default_look_at : xnum * xnum * xnum;
  default_fov : Q;
  orbit_target : xnum * xnum * xnum;
  min_distance : Q;
  max_distance : xnum }.
End CameraConfig.

Inductive Side := north | south | east | west.

#[global] Instance Side_eq_dec : EqDecision Side.
Proof. solve_decision. Defined.

Module Opening.
Record t := mk {
  side : Side;
  position : Q;
  width : Q }.
End Opening.

Inductive Axis := AxisX | AxisZ.

Module RoomStyle.
Record t := mk {
  floorColor : string;
  wallColor : string;
  floorTexture : string;
  wallTexture : string }.
End RoomStyle.

(** Reading a field of an object that may be [undefined]. *)
Definition get {A} (o : option A) : result A :=
  match o with
  | Some a => mret a
  | None => throw TypeError
  end.

(** ** Scene configuration (shared/interfaces/scene-config.interface.ts) *)

Module GeometryRoom.
(** The colours and textures are declared strings; each is [undefined]
    ([None]) when neither the material nor the style found for the room has
    it (see [getRoomStyle]). *)
Record t := mk {
  id : string;
  position : Vec3;
  size : Vec3;
  color : option string;
  tags : list string;
  floorTexture : option string;
  wallTexture : option string;
  wallColor : option string }.
End GeometryRoom.

Module GeometryCorridorSegment.
Record t := mk {
  start : Vec3;
  end_ : Vec3 }.
End GeometryCorridorSegment.

Module GeometryCorridor.
Record t := mk {
  id : string;
  segments : list GeometryCorridorSegment.t;
  width : Q;
  color : string;
  floorTexture : string;
  start : option Vec3;
  end_ : option Vec3 }.
End GeometryCorridor.

Module SceneGeometry.
Record t := mk {
  rooms : list GeometryRoom.t;
  corridors : list GeometryCorridor.t;
  walls : list GeometryWall.t;
  poi_markers : list GeometryPOI.t }.
End SceneGeometry.

Module LightConfig.
Record t := mk {
  color : string;
  intensity : Q }.
End LightConfig.

Module DirectionalLightConfig.
Record t := mk {
  color : string;
  intensity : Q;
  position : Vec3 }.
End DirectionalLightConfig.

Module SceneConfig.
Record t := mk {
  skybox_path : string;
  ambient_light : LightConfig.t;
  directional_light : DirectionalLightConfig.t;
  geometry : SceneGeometry.t;
  objects : list SceneObject.t;
  camera : CameraConfig.t }.
End SceneConfig.

(** The environment of a game context: the fields the lighting reads. *)
Module Environment.
Record t := mk {
  lighting : string;
  time_of_day : string }.
End Environment.

Module GeneratedSkybox.
Record t := mk {
  id : string;
  path : string;
  status : AssetStatus }.
End GeneratedSkybox.

(** [s || d] on two possibly missing strings: [undefined] and [''] are
    falsy. *)
Definition str_or (s d : option string) : option string :=
  match s with
  | Some v => if bool_decide (v = "") then d else Some v
  | None => d
  end.

(** [s.toLowerCase()] on a text of ASCII characters: the letters A to Z are
    lowered.  On other characters [String.prototype.toLowerCase] does more
    (it lowers the non-ASCII capitals, and maps the Kelvin sign U+212A to
    [k]), so that on such a text the code can find a word this model
    misses; a word the model finds the code finds too, since both lower
    the ASCII capitals alike and leave the ASCII small letters as they
    are. *)
Definition lowerChar (c : ascii) : ascii :=
  let n := nat_of_ascii c in
  if ((65 <=? n) && (n <=? 90))%nat then ascii_of_nat (n + 32) else c.

Fixpoint toLowerCase (s : string) : string :=
  match s with
  | EmptyString => EmptyString
  | String c rest => String (lowerChar c) (toLowerCase rest)
  end.

(** [hay.includes(needle)] *)
Fixpoint includes (needle hay : string) : bool :=
  String.prefix needle hay
  || match hay with
     | EmptyString => false
     | String _ rest => includes needle rest
     end.

Module AssemblyService.

Definition CELL_SIZE : Q := GRID_CELL_SIZE.
Definition WALL_HEIGHT_M : Q := WALL_HEIGHT.

(** The own keys of [ROOM_STYLES] and their values. *)
Definition ROOM_STYLES (tag : string) : option RoomStyle.t :=
  if bool_decide (tag = "entry") then
    Some (RoomStyle.mk "#5a8a5a" "#4a7a4a" "stone_floor" "brick_wall")
  else if bool_decide (tag = "goal") then
    Some (RoomStyle.mk "#8a5a5a" "#7a4a4a" "dark_stone" "dungeon_wall")
  else if bool_decide (tag = "mid") then
    Some (RoomStyle.mk "#5a5a8a" "#4a4a7a" "cobblestone" "stone_wall")
  else if bool_decide (tag = "secret") then
    Some (RoomStyle.mk "#8a7a5a" "#7a6a4a" "old_wood" "hidden_wall")
  else if bool_decide (tag = "default") then
    Some (RoomStyle.mk "#6a6a7a" "#5a5a6a" "stone_floor" "stone_wall")
  else None.

Definition ROOM_STYLES_default : RoomStyle.t :=
  RoomStyle.mk "#6a6a7a" "#5a5a6a" "stone_floor" "stone_wall".

(** The keys [ROOM_STYLES], an object literal, inherits from
    [Object.prototype] (ECMAScript, properties of the Object prototype
    object, with those of its annex B).  [tag in this.ROOM_STYLES] holds for
    them as for the own keys; the value read under such a key is a member of
    [Object.prototype] (a function, or the prototype itself under
    [__proto__]), which has none of the four fields of a style. *)
Definition ObjectPrototypeKeys : list string :=
  [ "constructor"; "hasOwnProperty"; "isPrototypeOf"; "propertyIsEnumerable";
    "toLocaleString"; "toString"; "valueOf"; "__proto__";
    "__defineGetter__"; "__defineSetter__";
    "__lookupGetter__"; "__lookupSetter__" ]%string.

Definition POI_COLORS (ty : POIType) : string :=
  match ty with
  | spawn => "#00ff00"
  | goal => "#ff0000"
  | treasure => "#ffd700"
  | checkpoint => "#00bfff"
  end.

Definition ASSET_SCALES_protagonist : Vec3 := (3, 3, 3).
Definition ASSET_SCALES_antagonist : Vec3 := (5, 5, 5).
Definition ASSET_SCALES_npc : Vec3 := (5 # 2, 5 # 2, 5 # 2).
Definition ASSET_SCALES_prop : Vec3 := (2, 2, 2).

Definition gridToWorldX (gridX : Q) : Q := gridX * CELL_SIZE.
Definition gridToWorldZ (gridY : Q) : Q := gridY * CELL_SIZE.
Definition cellsToMeters (cells : Q) : Q := cells * CELL_SIZE.

(** The value returned for the first tag that is a key of [ROOM_STYLES],
    own or inherited: [Some style] for one of the five styles, [None] for a
    member of [Object.prototype], every field of which reads [undefined]. *)
Fixpoint getRoomStyle (tags : list string) : option RoomStyle.t :=
  match tags with
  | [] => Some ROOM_STYLES_default
  | tag :: rest =>
      match ROOM_STYLES tag with
      | Some style => Some style
      | None =>
          if bool_decide (tag ∈ ObjectPrototypeKeys) then None
          else getRoomStyle rest
      end
  end.

(** *** Openings of a room *)

Definition segmentOpenings (roomMinX roomMaxX roomMinY roomMaxY : Q)
    (corridorWidthM : Q) (seg : CorridorSegment.t) : list Opening.t :=
  let isVertical :=
    eqb (CorridorSegment.startX seg) (CorridorSegment.endX seg) in
  if isVertical then
    let segX := CorridorSegment.startX seg in
    if geb segX roomMinX && leb segX roomMaxX then
      let positionM := gridToWorldX segX in
      (if eqb (CorridorSegment.startY seg) roomMinY
          || eqb (CorridorSegment.endY seg) roomMinY
       then [Opening.mk north positionM corridorWidthM] else [])
      ++
      (if eqb (CorridorSegment.startY seg) roomMaxY
          || eqb (CorridorSegment.endY seg) roomMaxY
       then [Opening.mk south positionM corridorWidthM] else [])
    else []
  else
    let segY := CorridorSegment.startY seg in
    if geb segY roomMinY && leb segY roomMaxY then
      let positionM := gridToWorldZ segY in
      (if eqb (CorridorSegment.startX seg) roomMinX
          || eqb (CorridorSegment.endX seg) roomMinX
       then [Opening.mk west positionM corridorWidthM] else [])
      ++
      (if eqb (CorridorSegment.startX seg) roomMaxX
          || eqb (CorridorSegment.endX seg) roomMaxX
       then [Opening.mk east positionM corridorWidthM] else [])
    else [].

(** [corridor.segments || [legacy segment]], with [?? 0] on the legacy
    fields. *)
Definition corridorSegments (corridor : GridCorridor.t)
  : list CorridorSegment.t :=
  match GridCorridor.segments corridor with
  | Some segs => segs
  | None =>
      [ {| CorridorSegment.startX := default 0 (GridCorridor.startX corridor);
           CorridorSegment.startY := default 0 (GridCorridor.startY corridor);
           CorridorSegment.endX := default 0 (GridCorridor.endX corridor);
           CorridorSegment.endY := default 0 (GridCorridor.endY corridor) |} ]
  end.

Definition findRoomOpenings (room : GridRoom.t)
    (corridors : list GridCorridor.t) : list Opening.t :=
  let roomMinX := GridRoom.gridX room in
  let roomMaxX := GridRoom.gridX room + GridRoom.width room in
  let roomMinY := GridRoom.gridY room in
  let roomMaxY := GridRoom.gridY room + GridRoom.height room in
  corridors ≫= fun corridor =>
    if bool_decide (GridCorridor.fromRoom corridor ≠ GridRoom.id room)
       && bool_decide (GridCorridor.toRoom corridor ≠ GridRoom.id room)
    then []
    else
      let corridorWidthM :=
        cellsToMeters (num_or (GridCorridor.widthCells corridor) 1) in
      corridorSegments corridor ≫=
        segmentOpenings roomMinX roomMaxX roomMinY roomMaxY corridorWidthM.

(** *** Wall carving *)

(** [[...openings].sort((a, b) => a.position - b.position)]: the sort is
    stable, so its result is the one of this insertion sort, where an
    opening goes before the openings of the same position that followed
    it. *)
Fixpoint insertOpening (o : Opening.t) (l : list Opening.t)
  : list Opening.t :=
  match l with
  | [] => [o]
  | x :: rest =>
      if leb (Opening.position o) (Opening.position x)
      then o :: l
      else x :: insertOpening o rest
  end.

Definition sortOpenings (openings : list Opening.t) : list Opening.t :=
  foldr insertOpening [] openings.

(** The coordinate of a point along the wall axis, and the point with that
    coordinate replaced. *)
Definition axisCoord (axis : Axis) (v : Vec3) : Q :=
  match axis with
  | AxisX => v.1.1
  | AxisZ => v.2
  end.

Definition withAxisCoord (axis : Axis) (v : Vec3) (c : Q) : Vec3 :=
  match axis with
  | AxisX => (c, v.1.2, v.2)
  | AxisZ => (v.1.1, v.1.2, c)
  end.

Definition mkWall (id : nat) (segStart segEnd : Vec3) (color : option string)
  : GeometryWall.t :=
  {| GeometryWall.id := "wall_" +:+ pretty id;
     GeometryWall.start := segStart;
     GeometryWall.end_ := segEnd;
     GeometryWall.height := WALL_HEIGHT_M;
     GeometryWall.color := color |}.

Definition openingStart (opening : Opening.t) : Q :=
  Opening.position opening - Opening.width opening / 2.
Definition openingEnd (opening : Opening.t) : Q :=
  Opening.position opening + Opening.width opening / 2.

(** One turn of the loop over the sorted openings; the state is
    [(walls, currentPos, id)]. *)
Definition carveStep (start end_ : Vec3) (axis : Axis)
    (color : option string)
    (st : list GeometryWall.t * Q * nat) (opening : Opening.t)
  : list GeometryWall.t * Q * nat :=
  let '(walls, currentPos, id) := st in
  let '(walls, id) :=
    if ltb currentPos (openingStart opening)
    then (walls ++ [mkWall id (withAxisCoord axis start currentPos)
                      (withAxisCoord axis end_ (openingStart opening)) color],
          S id)
    else (walls, id) in
  (walls, Math.max currentPos (openingEnd opening), id).

(** [createWallWithOpenings] pushes onto [walls]; the embedding returns the
    extended list. *)
Definition createWallWithOpenings (walls : list GeometryWall.t)
    (startId : nat) (start end_ : Vec3) (axis : Axis)
    (openings : list Opening.t) (color : option string)
  : list GeometryWall.t :=
  match openings with
  | [] => walls ++ [mkWall startId start end_ color]
  | _ =>
      let sortedOpenings := sortOpenings openings in
      let wallStart := axisCoord axis start in
      let wallEnd := axisCoord axis end_ in
      let '(walls, currentPos, id) :=
        foldl (carveStep start end_ axis color)
              (walls, wallStart, startId) sortedOpenings in
      if ltb currentPos wallEnd
      then walls ++ [mkWall id (withAxisCoord axis start currentPos)
                       (withAxisCoord axis end_ wallEnd) color]
      else walls
  end.

Definition sideOpenings (s : Side) (openings : list Opening.t)
  : list Opening.t :=
  List.filter (fun o => bool_decide (Opening.side o = s)) openings.

(** One turn of the loop over the rooms; the state is [(walls, wallId)]. *)
Definition roomWalls (gridCorridors : list GridCorridor.t)
    (st : list GeometryWall.t * nat) (room : GridRoom.t)
  : list GeometryWall.t * nat :=
  let '(walls, wallId) := st in
  let style := getRoomStyle (default [] (GridRoom.tags room)) in
  let minX := gridToWorldX (GridRoom.gridX room) in
  let maxX := gridToWorldX (GridRoom.gridX room + GridRoom.width room) in
  let minZ := gridToWorldZ (GridRoom.gridY room) in
  let maxZ := gridToWorldZ (GridRoom.gridY room + GridRoom.height room) in
  let openings := findRoomOpenings room gridCorridors in
  let color := RoomStyle.wallColor <$> style in
  let northOpenings := sideOpenings north openings in
  let walls := createWallWithOpenings walls wallId
                 (minX, 0, minZ) (maxX, 0, minZ) AxisX northOpenings color in
  let wallId := (wallId + (length northOpenings + 1))%nat in
  let southOpenings := sideOpenings south openings in
  let walls := createWallWithOpenings walls wallId
                 (minX, 0, maxZ) (maxX, 0, maxZ) AxisX southOpenings color in
  let wallId := (wallId + (length southOpenings + 1))%nat in
  let westOpenings := sideOpenings west openings in
  let walls := createWallWithOpenings walls wallId
                 (minX, 0, minZ) (minX, 0, maxZ) AxisZ westOpenings color in
  let wallId := (wallId + (length westOpenings + 1))%nat in
  let eastOpenings := sideOpenings east openings in
  let walls := createWallWithOpenings walls wallId
                 (maxX, 0, minZ) (maxX, 0, maxZ) AxisZ eastOpenings color in
  let wallId := (wallId + (length eastOpenings + 1))%nat in
  (walls, wallId).

Definition buildGridWalls (gridRooms : list GridRoom.t)
    (gridCorridors : list GridCorridor.t) : list GeometryWall.t :=
  (foldl (roomWalls gridCorridors) ([], 0%nat) gridRooms).1.

(** *** POI markers *)

Definition typeName (ty : POIType) : string :=
  match ty with
  | spawn => "spawn"
  | goal => "goal"
  | treasure => "treasure"
  | checkpoint => "checkpoint"
  end.

(** [c.toUpperCase()] on an ASCII character. *)
Definition toUpperCase (c : ascii) : ascii :=
  let n := nat_of_ascii c in
  if ((97 <=? n) && (n <=? 122))%nat then ascii_of_nat (n - 32) else c.

(** [s.charAt(0).toUpperCase() + s.slice(1)] *)
Definition capitalize (s : string) : string :=
  match s with
  | EmptyString => EmptyString
  | String c rest => String (toUpperCase c) rest
  end.

Definition roomCenterX (room : GridRoom.t) : Q :=
  gridToWorldX (GridRoom.gridX room + GridRoom.width room / 2).
Definition roomCenterZ (room : GridRoom.t) : Q :=
  gridToWorldZ (GridRoom.gridY room + GridRoom.height room / 2).

(** The colour table has an entry for each of the four declared types, so
    the [|| '#ffffff'] of the source is never taken. *)
Definition buildGridPOIs (pois : list GridPOI.t) (rooms : list GridRoom.t)
  : list GeometryPOI.t :=
  (fun poi =>
     match List.find
             (fun r => bool_decide (GridRoom.id r = GridPOI.roomId poi))
             rooms with
     | None =>
         {| GeometryPOI.id := GridPOI.id poi;
            GeometryPOI.type := GridPOI.type poi;
            GeometryPOI.position := (0, 1 # 10, 0);
            GeometryPOI.color := POI_COLORS (GridPOI.type poi);
            GeometryPOI.label := capitalize (typeName (GridPOI.type poi));
            GeometryPOI.roomId := GridPOI.roomId poi |}
     | Some room =>
         {| GeometryPOI.id := GridPOI.id poi;
            GeometryPOI.type := GridPOI.type poi;
            GeometryPOI.position := (roomCenterX room, 1 # 10, roomCenterZ room);
            GeometryPOI.color := POI_COLORS (GridPOI.type poi);
            GeometryPOI.label := capitalize (typeName (GridPOI.type poi));
            GeometryPOI.roomId := GridPOI.roomId poi |}
     end) <$> pois.

(** *** Object placement *)

(** [new Map(level.rooms.map(r => [r.id, r]))] *)
Definition roomsById (rooms : list GridRoom.t) : gmap string GridRoom.t :=
  foldl (fun m room => <[GridRoom.id room := room]> m) ∅ rooms.

Definition findPOI (ty : POIType) (pois : list GridPOI.t)
  : option GridPOI.t :=
  List.find (fun p => bool_decide (GridPOI.type p = ty)) pois.

(** [prop.placement_tags?.[0] || 'mid']: the empty string is falsy. *)
Definition targetTagOf (prop : Prop_.t) : string :=
  match Prop_.placement_tags prop with
  | Some (tag :: _) => if bool_decide (tag = "") then "mid" else tag
  | _ => "mid"
  end.

(** What the branches of the loop body assign: [position], [scale],
    [poiId], and the updated [roomPropCount]. *)
Record Placement := mkPlacement {
  position : ObjectPosition.t;
  scale : Vec3;
  poiId : option string;
  propCount : gmap string nat }.

Definition initialPlacement (roomPropCount : gmap string nat) : Placement :=
  {| position := ObjectPosition.At (0, 0, 0);
     scale := ASSET_SCALES_prop;
     poiId := None;
     propCount := roomPropCount |}.

Definition placeAtPOI (roomsMap : gmap string GridRoom.t) (poi : GridPOI.t)
    (sc : Vec3) (roomPropCount : gmap string nat) : Placement :=
  match roomsMap !! GridPOI.roomId poi with
  | Some room =>
      {| position := ObjectPosition.At (roomCenterX room, 0, roomCenterZ room);
         scale := sc;
         poiId := Some (GridPOI.id poi);
         propCount := roomPropCount |}
  | None => initialPlacement roomPropCount
  end.

Definition placeCharacter (rooms : list GridRoom.t)
    (spawnPOI goalPOI : option GridPOI.t) (roomsMap : gmap string GridRoom.t)
    (character : Character.t) (roomPropCount : gmap string nat)
  : Placement :=
  match bool_decide (Character.role character = protagonist), spawnPOI with
  | true, Some poi =>
      placeAtPOI roomsMap poi ASSET_SCALES_protagonist roomPropCount
  | _, _ =>
      match bool_decide (Character.role character = antagonist), goalPOI with
      | true, Some poi =>
          placeAtPOI roomsMap poi ASSET_SCALES_antagonist roomPropCount
      | _, _ =>
          match List.find (fun r => tagsInclude r "mid") rooms with
          | Some midRoom =>
              {| position := ObjectPosition.At
                   (roomCenterX midRoom + 3, 0, roomCenterZ midRoom);
                 scale := ASSET_SCALES_npc;
                 poiId := None;
                 propCount := roomPropCount |}
          | None => initialPlacement roomPropCount
          end
      end
  end.

Definition placeProp (rooms : list GridRoom.t) (prop : Prop_.t)
    (roomPropCount : gmap string nat) : Placement :=
  let targetTag := targetTagOf prop in
  match List.find (fun r => tagsInclude r targetTag) rooms with
  | Some targetRoom =>
      let propIndex := default 0%nat (roomPropCount !! GridRoom.id targetRoom) in
      {| position := ObjectPosition.Arc
           (roomCenterX targetRoom) (roomCenterZ targetRoom) propIndex;
         scale := ASSET_SCALES_prop;
         poiId := None;
         propCount := <[GridRoom.id targetRoom := S propIndex]> roomPropCount |}
  | None => initialPlacement roomPropCount
  end.

(** One turn of the loop over the assets; the state is
    [(objects, roomPropCount)]. *)
Definition placeAsset (rooms : list GridRoom.t)
    (spawnPOI goalPOI : option GridPOI.t) (roomsMap : gmap string GridRoom.t)
    (context : GameContext.t)
    (st : list SceneObject.t * gmap string nat) (asset : GeneratedAsset.t)
  : list SceneObject.t * gmap string nat :=
  let '(objects, roomPropCount) := st in
  if negb (bool_decide (GeneratedAsset.status asset = ready))
     || bool_decide (GeneratedAsset.path asset = "")
  then st
  else
    let character :=
      List.find
        (fun c => bool_decide (Character.id c = GeneratedAsset.id asset))
        (GameContext.characters context) in
    let prop :=
      GameContext.props context ≫=
        List.find (fun p => bool_decide (Prop_.id p = GeneratedAsset.id asset)) in
    let placement :=
      match character, prop with
      | Some character, _ =>
          placeCharacter rooms spawnPOI goalPOI roomsMap character roomPropCount
      | None, Some prop => placeProp rooms prop roomPropCount
      | None, None => initialPlacement roomPropCount
      end in
    (objects ++
       [ {| SceneObject.id := "obj_" +:+ GeneratedAsset.id asset;
            SceneObject.reference_id := GeneratedAsset.id asset;
            SceneObject.name := GeneratedAsset.name asset;
            SceneObject.model_path := GeneratedAsset.path asset;
            SceneObject.position := position placement;
            SceneObject.rotation := (0, 0, 0);
            SceneObject.scale := scale placement;
            SceneObject.poi_id := poiId placement |} ],
     propCount placement).

Definition positionGridObjects (level : GridLevelData.t)
    (assets : list GeneratedAsset.t) (context : GameContext.t)
  : result (list SceneObject.t) :=
  pois ← get (GridLevelData.pois level);
  let spawnPOI := findPOI spawn pois in
  let goalPOI := findPOI goal pois in
  rooms ← get (GridLevelData.rooms level);
  let roomsMap := roomsById rooms in
  mret (foldl (placeAsset rooms spawnPOI goalPOI roomsMap context)
              ([], ∅) assets).1.

(** *** Camera *)

(** One turn of the loop over the rooms; the state is
    [(minX, maxX, minZ, maxZ)]. *)
Definition growBounds (st : xnum * xnum * xnum * xnum) (room : GridRoom.t)
  : xnum * xnum * xnum * xnum :=
  let '(minX, maxX, minZ, maxZ) := st in
  let roomMinX := gridToWorldX (GridRoom.gridX room) in
  let roomMaxX := gridToWorldX (GridRoom.gridX room + GridRoom.width room) in
  let roomMinZ := gridToWorldZ (GridRoom.gridY room) in
  let roomMaxZ := gridToWorldZ (GridRoom.gridY room + GridRoom.height room) in
  (xmin minX (xFin roomMinX), xmax maxX (xFin roomMaxX),
   xmin minZ (xFin roomMinZ), xmax maxZ (xFin roomMaxZ)).

Definition levelBounds (rooms : list GridRoom.t)
  : xnum * xnum * xnum * xnum :=
  foldl growBounds (xPosInf, xNegInf, xPosInf, xNegInf) rooms.

(** The constants [0.8] and [0.5] are the decimal fractions they denote. *)
Definition configureGridCamera (level : GridLevelData.t)
  : result CameraConfig.t :=
  rooms ← get (GridLevelData.rooms level);
  let '(minX, maxX, minZ, maxZ) := levelBounds rooms in
  let centerX := xdiv (xadd minX maxX) 2 in
  let centerZ := xdiv (xadd minZ maxZ) 2 in
  let levelWidth := xsub maxX minX in
  let levelDepth := xsub maxZ minZ in
  let cameraHeight :=
    xmax (xFin 30) (xmul (xmax levelWidth levelDepth) (8 # 10)) in
  let cameraDistance := xmax (xFin 40) levelDepth in
  mret {| CameraConfig.default_position :=
            (centerX, cameraHeight, xadd maxZ (xmul cameraDistance (5 # 10)));
          CameraConfig.default_look_at := (centerX, xFin 0, centerZ);
          CameraConfig.default_fov := 60;
          CameraConfig.orbit_target := (centerX, xFin 0, centerZ);
          CameraConfig.min_distance := 10;
          CameraConfig.max_distance := xmul cameraDistance 2 |}.

(** *** Floors and corridor ribbons *)

(** One floor per room, centred on the room; a custom material goes before
    the style of the tags. *)
Definition buildGridRooms (gridRooms : list GridRoom.t)
  : list GeometryRoom.t :=
  (fun room =>
     let defaultStyle := getRoomStyle (default [] (GridRoom.tags room)) in
     let material :=
       default (RoomMaterial.mk None None None None)
               (GridRoom.material room) in
     let centerX :=
       gridToWorldX (GridRoom.gridX room + GridRoom.width room / 2) in
     let centerZ :=
       gridToWorldZ (GridRoom.gridY room + GridRoom.height room / 2) in
     let widthM := cellsToMeters (GridRoom.width room) in
     let depthM := cellsToMeters (GridRoom.height room) in
     {| GeometryRoom.id := GridRoom.id room;
        GeometryRoom.position := (centerX, 0, centerZ);
        GeometryRoom.size := (widthM, 2 # 10, depthM);
        GeometryRoom.color :=
          str_or (RoomMaterial.floorColor material)
                 (RoomStyle.floorColor <$> defaultStyle);
        GeometryRoom.tags := default [] (GridRoom.tags room);
        GeometryRoom.floorTexture :=
          str_or (RoomMaterial.floorTexture material)
                 (RoomStyle.floorTexture <$> defaultStyle);
        GeometryRoom.wallTexture :=
          str_or (RoomMaterial.wallTexture material)
                 (RoomStyle.wallTexture <$> defaultStyle);
        GeometryRoom.wallColor :=
          str_or (RoomMaterial.wallColor material)
                 (RoomStyle.wallColor <$> defaultStyle) |}) <$> gridRooms.

Definition segmentToWorld (startX startY endX endY : Q)
  : GeometryCorridorSegment.t :=
  {| GeometryCorridorSegment.start :=
       (gridToWorldX startX, 0, gridToWorldZ startY);
     GeometryCorridorSegment.end_ :=
       (gridToWorldX endX, 0, gridToWorldZ endY) |}.

(** The segments of the corridor when it has some, the legacy end points
    (a missing one read as 0) otherwise. *)
Definition convertCorridorSegments (corridor : GridCorridor.t)
  : list GeometryCorridorSegment.t :=
  match GridCorridor.segments corridor with
  | Some (seg :: segs) =>
      (fun seg : CorridorSegment.t =>
         segmentToWorld (CorridorSegment.startX seg) (CorridorSegment.startY seg)
                        (CorridorSegment.endX seg) (CorridorSegment.endY seg))
        <$> (seg :: segs)
  | _ =>
      [ segmentToWorld (default 0 (GridCorridor.startX corridor))
                       (default 0 (GridCorridor.startY corridor))
                       (default 0 (GridCorridor.endX corridor))
                       (default 0 (GridCorridor.endY corridor)) ]
  end.

(** [start] and [end] read [segments[0]] and [segments[length - 1]];
    [convertCorridorSegments] never returns an empty list. *)
Definition buildGridCorridors (gridCorridors : list GridCorridor.t)
  : list GeometryCorridor.t :=
  (fun corridor =>
     let widthM :=
       cellsToMeters (num_or (GridCorridor.widthCells corridor) 1) in
     let segments := convertCorridorSegments corridor in
     {| GeometryCorridor.id := GridCorridor.id corridor;
        GeometryCorridor.segments := segments;
        GeometryCorridor.width := widthM;
        GeometryCorridor.color := "#3a3a3a";
        GeometryCorridor.floorTexture := "stone_floor";
        GeometryCorridor.start :=
          GeometryCorridorSegment.start <$> head segments;
        GeometryCorridor.end_ :=
          GeometryCorridorSegment.end_ <$> last segments |}) <$> gridCorridors.

Definition buildGridGeometry (level : GridLevelData.t)
  : result SceneGeometry.t :=
  gridRooms ← get (GridLevelData.rooms level);
  let rooms := buildGridRooms gridRooms in
  let corridors := buildGridCorridors (GridLevelData.corridors level) in
  let walls := buildGridWalls gridRooms (GridLevelData.corridors level) in
  pois ← get (GridLevelData.pois level);
  let poi_markers := buildGridPOIs pois gridRooms in
  mret {| SceneGeometry.rooms := rooms;
          SceneGeometry.corridors := corridors;
          SceneGeometry.walls := walls;
          SceneGeometry.poi_markers := poi_markers |}.

(** *** Lighting *)

(** The decimal constants are the fractions they denote.  The context is
    read through its environment only. *)
Definition configureLighting (environment : Environment.t)
  : LightConfig.t * DirectionalLightConfig.t :=
  let combined :=
    toLowerCase (Environment.lighting environment +:+ " "
                 +:+ Environment.time_of_day environment) in
  let '(ambientColor, ambientIntensity) :=
    if includes "dark" combined || includes "night" combined
    then ("#4a4a6e"%string, 5 # 10)
    else if includes "torch" combined || includes "fire" combined
    then ("#6a5a4a"%string, 6 # 10)
    else if includes "neon" combined || includes "cyber" combined
    then ("#4a4a6a"%string, 6 # 10)
    else ("#ffffff"%string, 8 # 10) in
  let dirPosition : Vec3 := (10, 20, 10) in
  let '(dirColor, dirIntensity) :=
    if includes "night" combined || includes "moon" combined
    then ("#8aacdf"%string, 7 # 10)
    else if includes "dawn" combined || includes "dusk" combined
    then ("#ffcc77"%string, 9 # 10)
    else if includes "indoor" combined
    then ("#ffffff"%string, 8 # 10)
    else ("#ffffff"%string, 12 # 10) in
  ({| LightConfig.color := ambientColor;
      LightConfig.intensity := ambientIntensity |},
   {| DirectionalLightConfig.color := dirColor;
      DirectionalLightConfig.intensity := dirIntensity;
      DirectionalLightConfig.position := dirPosition |}).

(** *** The scene *)

(** [assemble]: the environment of the context is passed apart from the
    fields the placement reads; a missing [layout.level] makes the first
    read of [level.rooms] throw. *)
Definition assemble (context : GameContext.t) (environment : Environment.t)
    (layout : LevelLayout.t) (assets : list GeneratedAsset.t)
    (skybox : option GeneratedSkybox.t) : result SceneConfig.t :=
  level ← get (LevelLayout.level layout);
  geometry ← buildGridGeometry level;
  objects ← positionGridObjects level assets context;
  let lighting := configureLighting environment in
  camera ← configureGridCamera level;
  mret {| SceneConfig.skybox_path :=
            match skybox with
            | Some sky =>
                if bool_decide (GeneratedSkybox.status sky = ready)
                then GeneratedSkybox.path sky else ""
            | None => ""
            end;
          SceneConfig.ambient_light := lighting.1;
          SceneConfig.directional_light := lighting.2;
          SceneConfig.geometry := geometry;
          SceneConfig.objects := objects;
          SceneConfig.camera := camera |}.

End AssemblyService.

(** * Vocabulary of the properties *)

(** ** Corridor router *)

Module RouterSpec.
Import LevelLayoutService.

(** A room whose position and size are the integers [x], [y], [w], [h]. *)
Definition IntegerRoom (room : GridRoom.t) (x y w h : Z) : Prop :=
  GridRoom.gridX room == inject_Z x /\ GridRoom.gridY room == inject_Z y /\
  GridRoom.width room == inject_Z w /\ GridRoom.height room == inject_Z h.

(** The point [(px, py)] lies on the boundary of the rectangle [r]. *)
Definition onBoundary (r : Rect) (px py : Q) : Prop :=
  ((px == minX r \/ px == maxX r) /\ minY r <= py <= maxY r) \/
  ((py == minY r \/ py == maxY r) /\ minX r <= px <= maxX r).

(** The edge of [r] that faces [other] along Y: its [maxY] edge when the
    centre of [other] lies further down (at a greater Y), its [minY] edge
    otherwise. *)
Definition facingEdgeY (r other : Rect) : Q :=
  if gtb (centerY other) (centerY r) then maxY r else minY r.

(** The segment runs from the edge of [from] that faces [to] to the edge of
    [to] that faces [from]. *)
Definition TouchesFacingEdges (from to : Rect) (seg : CorridorSegment.t)
  : Prop :=
  CorridorSegment.startY seg == facingEdgeY from to /\
  CorridorSegment.endY seg == facingEdgeY to from.

(** The point [(px, py)] lies strictly inside the rectangle [r]. *)
Definition strictlyInside (r : Rect) (px py : Q) : Prop :=
  minX r < px < maxX r /\ minY r < py < maxY r.

End RouterSpec.

(** ** Layout repair *)

Module RepairSpec.
Import LevelLayoutService.

(** Every room of the map is stored under its own id. *)
Definition KeyedById (m : gmap string GridRoom.t) : Prop :=
  forall k room, m !! k = Some room -> GridRoom.id room = k.

(** The room the default points of interest pick for a tag: the first room
    carrying it, or the fallback. *)
Definition pickRoom (tag : string) (rooms : list GridRoom.t)
    (fallback : option GridRoom.t) : option GridRoom.t :=
  match List.find (fun r => tagsInclude r tag) rooms with
  | Some room => Some room
  | None => fallback
  end.

Definition defaultGrid : GridConfig.t :=
  {| GridConfig.cellSize := GRID_CELL_SIZE;
     GridConfig.totalWidth := 30;
     GridConfig.totalHeight := 50 |}.

(** The points of interest the repair keeps: a list of two entries or more
    with a spawn and a goal among them. *)
Definition keptPOIs (pois : option (list GridPOI.t))
  : option (list GridPOI.t) :=
  match pois with
  | Some ps =>
      if (2 <=? length ps)%nat && hasType spawn ps && hasType goal ps
      then Some ps else None
  | None => None
  end.

(** The critical path the repair keeps: one of two entries or more. *)
Definition keptPath (path : option (list string)) : option (list string) :=
  match path with
  | Some p => if (2 <=? length p)%nat then Some p else None
  | None => None
  end.

Definition countType (ty : POIType) (pois : list GridPOI.t) : nat :=
  length (List.filter (fun p => bool_decide (GridPOI.type p = ty)) pois).

(** The claim of C5 as it is stated: whatever the repair returns holds exactly
    one spawn and exactly one goal. *)
Definition ExactlyOneSpawnAndGoal (layout : LevelLayout.t) : Prop :=
  forall repaired level pois,
    validateAndFixLayout layout = inr repaired ->
    LevelLayout.level repaired = Some level ->
    GridLevelData.pois level = Some pois ->
    countType spawn pois = 1%nat /\ countType goal pois = 1%nat.

(** [n] is the integer nearest to [x], the upper one when [x] lies halfway
    between two integers. *)
Definition NearestTiesUp (x : Q) (n : Z) : Prop :=
  inject_Z n - (1 # 2) <= x < inject_Z n + (1 # 2).

(** The rounding the specification names: to the nearest integer, a value
    halfway between two integers going away from zero. *)
Definition roundHalfAwayFromZero (x : Q) : Z :=
  if Qle_bool 0 x then Qfloor (x + (1 # 2)) else Qceiling (x - (1 # 2)).

(** What the repair does to one room. *)
Definition Coerced (raw fixed : GridRoom.t) : Prop :=
  GridRoom.id fixed = GridRoom.id raw /\
  GridRoom.name fixed = GridRoom.name raw /\
  (exists n, GridRoom.gridX fixed = inject_Z n /\
             NearestTiesUp (GridRoom.gridX raw) n) /\
  (exists n, GridRoom.gridY fixed = inject_Z n /\
             NearestTiesUp (GridRoom.gridY raw) n) /\
  (exists n, GridRoom.width fixed = inject_Z (Z.max 2 n) /\
             NearestTiesUp (GridRoom.width raw) n) /\
  (exists n, GridRoom.height fixed = inject_Z (Z.max 2 n) /\
             NearestTiesUp (GridRoom.height raw) n) /\
  GridRoom.tags fixed =
    Some (match GridRoom.tags raw with
          | Some tags => tags
          | None => ["mid"%string]
          end) /\
  GridRoom.material fixed = GridRoom.material raw.

(** The claim of C6 on the coordinates as it is stated. *)
Definition RoundsHalfAwayFromZero (layout : LevelLayout.t) : Prop :=
  forall level rawRooms repaired level' rooms i raw fixed,
    LevelLayout.level layout = Some level ->
    GridLevelData.rooms level = Some rawRooms ->
    validateAndFixLayout layout = inr repaired ->
    LevelLayout.level repaired = Some level' ->
    GridLevelData.rooms level' = Some rooms ->
    rawRooms !! i = Some raw ->
    rooms !! i = Some fixed ->
    GridRoom.gridX fixed
      == inject_Z (roundHalfAwayFromZero (GridRoom.gridX raw)) /\
    GridRoom.gridY fixed
      == inject_Z (roundHalfAwayFromZero (GridRoom.gridY raw)).

(** The level of a repaired layout, when the repair succeeds. *)
Definition repairedLevel (layout : LevelLayout.t) : option GridLevelData.t :=
  match validateAndFixLayout layout with
  | inr repaired => LevelLayout.level repaired
  | inl _ => None
  end.

End RepairSpec.

(** ** Object placement *)

Module PlacementSpec.
Import AssemblyService.

(** The assets the placement loop does not pass over: ready, with a path. *)
Definition usable (asset : GeneratedAsset.t) : bool :=
  bool_decide (GeneratedAsset.status asset = ready)
  && negb (bool_decide (GeneratedAsset.path asset = "")).

(** The asset is a prop whose target tag is carried by no room, or a
    secondary character (role npc) in a level without a room tagged mid. *)
Definition Unresolved (rooms : list GridRoom.t) (context : GameContext.t)
    (asset : GeneratedAsset.t) : Prop :=
  (List.find (fun c => bool_decide (Character.id c = GeneratedAsset.id asset))
     (GameContext.characters context) = None /\
   exists props prop,
     GameContext.props context = Some props /\
     List.find (fun p => bool_decide (Prop_.id p = GeneratedAsset.id asset))
       props = Some prop /\
     forall room, In room rooms -> tagsInclude room (targetTagOf prop) = false)
  \/
  (exists character,
     List.find (fun c => bool_decide (Character.id c = GeneratedAsset.id asset))
       (GameContext.characters context) = Some character /\
     Character.role character = npc /\
     forall room, In room rooms -> tagsInclude room "mid" = false).

(** The object pushed for an asset that no branch has positioned. *)
Definition objectAtOrigin (asset : GeneratedAsset.t) : SceneObject.t :=
  {| SceneObject.id := "obj_" +:+ GeneratedAsset.id asset;
     SceneObject.reference_id := GeneratedAsset.id asset;
     SceneObject.name := GeneratedAsset.name asset;
     SceneObject.model_path := GeneratedAsset.path asset;
     SceneObject.position := ObjectPosition.At (0, 0, 0);
     SceneObject.rotation := (0, 0, 0);
     SceneObject.scale := (2, 2, 2);
     SceneObject.poi_id := None |}.

(** The claim of C7 as it is stated: an unresolved ready asset has no object
    in the returned list. *)
Definition SkipsUnresolved (level : GridLevelData.t)
    (assets : list GeneratedAsset.t) (context : GameContext.t) : Prop :=
  forall rooms objects asset,
    GridLevelData.rooms level = Some rooms ->
    positionGridObjects level assets context = inr objects ->
    In asset assets -> usable asset = true ->
    Unresolved rooms context asset ->
    forall object, In object objects ->
      SceneObject.reference_id object <> GeneratedAsset.id asset.

End PlacementSpec.

(** ** Camera *)

Module CameraSpec.
Import AssemblyService.

Definition worldMinX (room : GridRoom.t) : Q :=
  gridToWorldX (GridRoom.gridX room).
Definition worldMaxX (room : GridRoom.t) : Q :=
  gridToWorldX (GridRoom.gridX room + GridRoom.width room).
Definition worldMinZ (room : GridRoom.t) : Q :=
  gridToWorldZ (GridRoom.gridY room).
Definition worldMaxZ (room : GridRoom.t) : Q :=
  gridToWorldZ (GridRoom.gridY room + GridRoom.height room).

(** [minX .. maxX] x [minZ .. maxZ] is the axis-aligned bounding box of the
    world rectangles of the rooms: it contains each of them, and each of its
    four sides is reached by some room. *)
Definition BoundingBox (rooms : list GridRoom.t) (minX maxX minZ maxZ : Q)
  : Prop :=
  (forall room, In room rooms ->
     minX <= worldMinX room /\ worldMaxX room <= maxX /\
     minZ <= worldMinZ room /\ worldMaxZ room <= maxZ) /\
  (exists room, In room rooms /\ worldMinX room = minX) /\
  (exists room, In room rooms /\ worldMaxX room = maxX) /\
  (exists room, In room rooms /\ worldMinZ room = minZ) /\
  (exists room, In room rooms /\ worldMaxZ room = maxZ).

(** The extent of the bounding box the camera code computes: width and
    depth. *)
Definition boxExtent (rooms : list GridRoom.t) : option (Q * Q) :=
  match levelBounds rooms with
  | (xFin minX, xFin maxX, xFin minZ, xFin maxZ) =>
      Some (maxX - minX, maxZ - minZ)
  | _ => None
  end.

(** Equality of numbers. *)
Definition xeq (a b : xnum) : Prop :=
  match a, b with
  | xFin p, xFin q => p == q
  | xNaN, xNaN | xNegInf, xNegInf | xPosInf, xPosInf => True
  | _, _ => False
  end.

(** The claim of C8 on the camera distance as it is stated: the distance
    (the orbit limit is twice the distance) is set by the larger extent of the
    bounding box, so two levels with the same larger extent get the same
    distance. *)
Definition DistanceSetByLargerExtent (level1 level2 : GridLevelData.t)
  : Prop :=
  forall rooms1 rooms2 w1 d1 w2 d2 camera1 camera2,
    GridLevelData.rooms level1 = Some rooms1 ->
    GridLevelData.rooms level2 = Some rooms2 ->
    boxExtent rooms1 = Some (w1, d1) ->
    boxExtent rooms2 = Some (w2, d2) ->
    Qmax w1 d1 == Qmax w2 d2 ->
    configureGridCamera level1 = inr camera1 ->
    configureGridCamera level2 = inr camera2 ->
    xeq (CameraConfig.max_distance camera1) (CameraConfig.max_distance camera2).

End CameraSpec.

(** ** Wall carving *)

Module WallSpec.
Import AssemblyService.

(** The extent of a wall along the axis of its side. *)
Definition span (axis : Axis) (wall : GeometryWall.t) : Q * Q :=
  (axisCoord axis (GeometryWall.start wall),
   axisCoord axis (GeometryWall.end_ wall)).

(** The interval an opening cuts out:
    [[position - width / 2, position + width / 2]]. *)
Definition openingInterval (opening : Opening.t) : Q * Q :=
  (openingStart opening, openingEnd opening).

(** [p] lies in the interval, its upper end left out so that two intervals
    that only touch share no point. *)
Definition covers (iv : Q * Q) (p : Q) : bool := leb iv.1 p && ltb p iv.2.

(** The number of intervals of the list that cover [p]. *)
Fixpoint coverage (ivs : list (Q * Q)) (p : Q) : nat :=
  match ivs with
  | [] => 0
  | iv :: rest => ((if covers iv p then 1 else 0) + coverage rest p)%nat
  end.

(** The intervals reconstruct [[lo, hi]] exactly: every point of it lies in
    one and only one of them, and no point outside lies in any. *)
Definition Tiles (lo hi : Q) (ivs : list (Q * Q)) : Prop :=
  forall p, coverage ivs p = if covers (lo, hi) p then 1%nat else 0%nat.

(** The intervals come in strictly increasing order and apart: each begins
    before the next ones begin, and ends no later than they begin. *)
Definition Increasing (ivs : list (Q * Q)) : Prop :=
  ForallOrdPairs (fun a b => a.1 < b.1 /\ a.2 <= b.1) ivs.

(** The spans the loop emits from the cursor [currentPos], and the cursor at
    the end. *)
Fixpoint carveSpans (currentPos : Q) (openings : list Opening.t)
  : list (Q * Q) * Q :=
  match openings with
  | [] => ([], currentPos)
  | opening :: rest =>
      let '(spans, final) :=
        carveSpans (Math.max currentPos (openingEnd opening)) rest in
      (if ltb currentPos (openingStart opening)
       then (currentPos, openingStart opening) :: spans
       else spans,
       final)
  end.

(** The claim of C3 as it is stated, for one side and its openings. *)
Definition ReconstructsSide (start end_ : Vec3) (axis : Axis)
    (openings : list Opening.t) : Prop :=
  forall walls startId color,
  exists new,
    createWallWithOpenings walls startId start end_ axis openings color
      = walls ++ new /\
    (length new <= length openings + 1)%nat /\
    Tiles (axisCoord axis start) (axisCoord axis end_)
      ((span axis <$> new) ++ (openingInterval <$> openings)).

(** The claim of C9 as it is stated, for one side and its openings: every
    span pushed has positive length, and each span ends no later than the
    next ones begin. *)
Definition SpansPositiveAndIncreasing (start end_ : Vec3) (axis : Axis)
    (openings : list Opening.t) : Prop :=
  forall walls startId color,
  exists new,
    createWallWithOpenings walls startId start end_ axis openings color
      = walls ++ new /\
    Forall (fun wall => (span axis wall).1 < (span axis wall).2) new /\
    Increasing (span axis <$> new).

(** Two openings that do not overlap: one ends no later than the other
    begins. *)
Definition Apart (a b : Opening.t) : Prop :=
  openingEnd a <= openingStart b \/ openingEnd b <= openingStart a.

(** The openings are pairwise non-overlapping, in whatever order they are
    given. *)
Definition NonOverlapping (openings : list Opening.t) : Prop :=
  ForallOrdPairs Apart openings.

(** The openings follow one another along the wall: each ends no later than
    the next ones begin. *)
Definition InOrder (openings : list Opening.t) : Prop :=
  ForallOrdPairs (fun a b => openingEnd a <= openingStart b) openings.

End WallSpec.

(** * Sample inputs *)

Module Examples.

Definition room (id : string) (x y w h : Q) (tags : option (list string))
  : GridRoom.t :=
  {| GridRoom.id := id; GridRoom.name := id;
     GridRoom.gridX := x; GridRoom.gridY := y;
     GridRoom.width := w; GridRoom.height := h;
     GridRoom.tags := tags; GridRoom.material := None |}.

Definition rawCorridor (id fromRoom toRoom : string) : GridCorridor.t :=
  {| GridCorridor.id := id;
     GridCorridor.fromRoom := fromRoom;
     GridCorridor.toRoom := toRoom;
     GridCorridor.segments := None;
     GridCorridor.widthCells := None;
     GridCorridor.startX := None; GridCorridor.startY := None;
     GridCorridor.endX := None; GridCorridor.endY := None |}.

Definition poi (id : string) (type : POIType) (roomId : string) : GridPOI.t :=
  {| GridPOI.id := id; GridPOI.type := type; GridPOI.roomId := roomId;
     GridPOI.offsetX := 0; GridPOI.offsetY := 0 |}.

Definition levelOf (rooms : list GridRoom.t)
    (corridors : list GridCorridor.t) (pois : option (list GridPOI.t))
  : GridLevelData.t :=
  {| GridLevelData.name := "Crypt"; GridLevelData.type := "dungeon";
     GridLevelData.theme := "dark";
     GridLevelData.grid := None;
     GridLevelData.rooms := Some rooms;
     GridLevelData.corridors := corridors;
     GridLevelData.pois := pois;
     GridLevelData.criticalPath := None |}.

(** Scenario A, B of the specification: integer rooms. *)
Definition R1 : GridRoom.t := room "R1" 0 0 4 3 (Some ["entry"%string]).
Definition R2 : GridRoom.t := room "R2" 0 6 4 3 (Some ["mid"%string]).
Definition R3 : GridRoom.t := room "R3" 8 5 4 3 (Some ["goal"%string]).

(** Two integer rooms that share columns and rows: [R6] starts one row
    above the last row of [R5]. *)
Definition R5 : GridRoom.t := room "R5" 0 0 4 3 (Some ["entry"%string]).
Definition R6 : GridRoom.t := room "R6" 0 2 4 3 (Some ["goal"%string]).

(** A raw layout with fractional coordinates, an undersized room, a
    dangling corridor and no point of interest. *)
Definition rawLevel : GridLevelData.t :=
  levelOf
    [ room "room_1" (-5 # 2) (1 # 2) (7 # 2) 3 None;
      room "room_2" 8 5 4 (1 # 3) (Some ["goal"%string]) ]
    [ rawCorridor "corr_1" "room_1" "room_2";
      rawCorridor "corr_2" "room_1" "room_9" ]
    None.
Definition rawLayout : LevelLayout.t := {| LevelLayout.level := Some rawLevel |}.

(** A raw layout whose points of interest hold two spawns. *)
Definition twoSpawnsLevel : GridLevelData.t :=
  levelOf [R1; R2; R3] []
    (Some [ poi "poi_a" spawn "R1"; poi "poi_b" spawn "R2";
            poi "poi_c" goal "R3" ]).
Definition twoSpawnsLayout : LevelLayout.t :=
  {| LevelLayout.level := Some twoSpawnsLevel |}.

(** Scenario D of the specification: three rooms and no point of
    interest. *)
Definition threeRoomsLayout : LevelLayout.t :=
  {| LevelLayout.level := Some (levelOf [R1; R2; R3] [] None) |}.

(** A raw layout whose corridor carries a negative width; the repair keeps
    a width that is not zero as it is. *)
Definition negativeWidthCorridor : GridCorridor.t :=
  {| GridCorridor.id := "corr_1";
     GridCorridor.fromRoom := "R1";
     GridCorridor.toRoom := "R2";
     GridCorridor.segments := None;
     GridCorridor.widthCells := Some (-1);
     GridCorridor.startX := None; GridCorridor.startY := None;
     GridCorridor.endX := None; GridCorridor.endY := None |}.
Definition negativeWidthLayout : LevelLayout.t :=
  {| LevelLayout.level :=
       Some (levelOf [R1; R2] [negativeWidthCorridor] None) |}.

End Examples.

Module AssemblyExamples.

(** A level without a room tagged mid or secret. *)
Definition level : GridLevelData.t :=
  Examples.levelOf [Examples.R1; Examples.R3] []
    (Some [ Examples.poi "poi_spawn" spawn "R1";
            Examples.poi "poi_goal" goal "R3" ]).

Definition barrel : GeneratedAsset.t :=
  {| GeneratedAsset.id := "prop_001"; GeneratedAsset.name := "Barrel";
     GeneratedAsset.path := "/assets/prop_001.glb";
     GeneratedAsset.status := ready |}.

Definition guard : GeneratedAsset.t :=
  {| GeneratedAsset.id := "char_002"; GeneratedAsset.name := "Guard";
     GeneratedAsset.path := "/assets/char_002.glb";
     GeneratedAsset.status := ready |}.

Definition context : GameContext.t :=
  {| GameContext.characters :=
       [ {| Character.id := "char_002"; Character.name := "Guard";
            Character.role := npc |} ];
     GameContext.props :=
       Some [ {| Prop_.id := "prop_001"; Prop_.name := "Barrel";
                 Prop_.placement_tags := Some ["secret"%string] |} ] |}.

(** Two one-room levels with the same larger extent: 100 x 2 cells and
    2 x 100 cells. *)
Definition wideLevel : GridLevelData.t :=
  Examples.levelOf [Examples.room "hall" 0 0 100 2 None] [] None.
Definition deepLevel : GridLevelData.t :=
  Examples.levelOf [Examples.room "shaft" 0 0 2 100 None] [] None.

End AssemblyExamples.

Module WallExamples.
Import AssemblyService.

(** Two rooms whose X intervals [0, 2] and [-1, 1] share one cell: the
    corridor between them runs along x = 0, a corner of the first room. *)
Definition upper : GridRoom.t := Examples.room "upper" 0 0 2 2 None.
Definition lower : GridRoom.t := Examples.room "lower" (-1) 4 2 2 None.
Definition corridor : GridCorridor.t :=
  LevelLayoutService.buildCorridorBetweenRooms "corr_1" upper lower 1.

(** The south side of [upper] in world coordinates, and its openings. *)
Definition southStart : Vec3 := (0, 0, 8).
Definition southEnd : Vec3 := (8, 0, 8).
Definition southOpenings : list Opening.t :=
  sideOpenings south (findRoomOpenings upper [corridor]).

(** Scenario C of the specification: a wall from 0 to 14 with openings of
    width 4 at 2 and 10. *)
Definition scenarioC : list Opening.t :=
  [ Opening.mk north 2 4; Opening.mk north 10 4 ].

(** The south side of room R1 of [Examples.negativeWidthLayout] after the
    repair, in world coordinates, and its openings. *)
Definition narrowStart : Vec3 := (0, 0, 12).
Definition narrowEnd : Vec3 := (16, 0, 12).
Definition narrowOpenings : list Opening.t :=
  match RepairSpec.repairedLevel Examples.negativeWidthLayout with
  | Some level =>
      match GridLevelData.rooms level with
      | Some (room :: _) =>
          sideOpenings south
            (findRoomOpenings room (GridLevelData.corridors level))
      | _ => []
      end
  | None => []
  end.

End WallExamples.

(** * Vocabulary of further properties *)

(** ** Shape of a corridor *)

Module RouterSpec2.
Import LevelLayoutService.

(** The segment runs along one axis: it is vertical or horizontal. *)
Definition AxisAligned (seg : CorridorSegment.t) : Prop :=
  CorridorSegment.startX seg = CorridorSegment.endX seg \/
  CorridorSegment.startY seg = CorridorSegment.endY seg.

(** The four coordinates of the segment are integers. *)
Definition IntegerSegment (seg : CorridorSegment.t) : Prop :=
  exists a b c d : Z,
    CorridorSegment.startX seg == inject_Z a /\
    CorridorSegment.startY seg == inject_Z b /\
    CorridorSegment.endX seg == inject_Z c /\
    CorridorSegment.endY seg == inject_Z d.

(** The segments lead from the boundary of [fromRoom] to the boundary of
    [toRoom]: the first starts on the one, the last ends on the other. *)
Definition Attached (fromRoom toRoom : GridRoom.t)
    (segs : list CorridorSegment.t) : Prop :=
  exists first final,
    head segs = Some first /\ last segs = Some final /\
    RouterSpec.onBoundary (rectOf fromRoom)
      (CorridorSegment.startX first) (CorridorSegment.startY first) /\
    RouterSpec.onBoundary (rectOf toRoom)
      (CorridorSegment.endX final) (CorridorSegment.endY final).

(** Each segment begins where the one before it ends. *)
Definition Connected (segs : list CorridorSegment.t) : Prop :=
  forall i s1 s2,
    segs !! i = Some s1 -> segs !! S i = Some s2 ->
    CorridorSegment.endX s1 = CorridorSegment.startX s2 /\
    CorridorSegment.endY s1 = CorridorSegment.startY s2.

End RouterSpec2.

(** ** Corridors of a repaired layout *)

Module RepairSpec2.
Import LevelLayoutService RouterSpec RouterSpec2.

(** Both ends of the corridor name a room of the level. *)
Definition resolves (ids : list string) (corridor : GridCorridor.t) : bool :=
  bool_decide (GridCorridor.fromRoom corridor ∈ ids)
  && bool_decide (GridCorridor.toRoom corridor ∈ ids).

(** What the repair keeps of a corridor: its id, the rooms it names, and its
    width, one cell when the width is missing or zero. *)
Definition Rebuilt (raw fixed : GridCorridor.t) : Prop :=
  GridCorridor.id fixed = GridCorridor.id raw /\
  GridCorridor.fromRoom fixed = GridCorridor.fromRoom raw /\
  GridCorridor.toRoom fixed = GridCorridor.toRoom raw /\
  GridCorridor.widthCells fixed
    = Some (num_or (GridCorridor.widthCells raw) 1).

(** The corridor is the route between two rooms of the list, the ones it
    names: it leads from the boundary of the one to the boundary of the
    other on integer coordinates. *)
Definition Routed (rooms : list GridRoom.t) (corridor : GridCorridor.t)
  : Prop :=
  exists fromRoom toRoom widthCells segs,
    fromRoom ∈ rooms /\ toRoom ∈ rooms /\
    GridRoom.id fromRoom = GridCorridor.fromRoom corridor /\
    GridRoom.id toRoom = GridCorridor.toRoom corridor /\
    corridor = buildCorridorBetweenRooms (GridCorridor.id corridor)
                 fromRoom toRoom widthCells /\
    GridCorridor.segments corridor = Some segs /\
    Attached fromRoom toRoom segs /\
    Forall IntegerSegment segs.

End RepairSpec2.

(** ** Numbering of the walls *)

Module WallSpec2.
Import AssemblyService.

(** The id of the wall numbered [k]. *)
Definition wallName (k : nat) : string := "wall_" +:+ pretty k.

(** The numbers rise along the list and stay within [[lo, hi)]. *)
Definition Rising (lo hi : nat) (ks : list nat) : Prop :=
  ForallOrdPairs lt ks /\ Forall (fun k => (lo <= k < hi)%nat) ks.

(** The four walls of a room without an opening, numbered from [startId]:
    north, south, west, east. *)
Definition fullWalls (startId : nat) (room : GridRoom.t)
  : list GeometryWall.t :=
  let minX := gridToWorldX (GridRoom.gridX room) in
  let maxX := gridToWorldX (GridRoom.gridX room + GridRoom.width room) in
  let minZ := gridToWorldZ (GridRoom.gridY room) in
  let maxZ := gridToWorldZ (GridRoom.gridY room + GridRoom.height room) in
  let color :=
    RoomStyle.wallColor <$> getRoomStyle (default [] (GridRoom.tags room)) in
  [ mkWall startId (minX, 0, minZ) (maxX, 0, minZ) color;
    mkWall (startId + 1) (minX, 0, maxZ) (maxX, 0, maxZ) color;
    mkWall (startId + 2) (minX, 0, minZ) (minX, 0, maxZ) color;
    mkWall (startId + 3) (maxX, 0, minZ) (maxX, 0, maxZ) color ].

End WallSpec2.

(** ** Floors and ribbons *)

Module GeometrySpec.
Import AssemblyService.

(** The floor of a room: it carries the id and tags of the room, lies at
    height 0, is 0.2 thick, and its rectangle, centred on [position] with
    the extent [size], is the world rectangle of the room. *)
Definition FloorOf (room : GridRoom.t) (floor : GeometryRoom.t) : Prop :=
  let '(px, py, pz) := GeometryRoom.position floor in
  let '(sx, sy, sz) := GeometryRoom.size floor in
  GeometryRoom.id floor = GridRoom.id room /\
  GeometryRoom.tags floor = default [] (GridRoom.tags room) /\
  py = 0 /\ sy = 2 # 10 /\
  px - sx / 2 == CameraSpec.worldMinX room /\
  px + sx / 2 == CameraSpec.worldMaxX room /\
  pz - sz / 2 == CameraSpec.worldMinZ room /\
  pz + sz / 2 == CameraSpec.worldMaxZ room.

(** The ribbon of a corridor: it carries the id of the corridor and its
    width in metres, has one segment at least, and its two legacy ends are
    the start of its first segment and the end of its last; it has as many
    segments as the corridor when the corridor has some. *)
Definition RibbonOf (corridor : GridCorridor.t) (ribbon : GeometryCorridor.t)
  : Prop :=
  GeometryCorridor.id ribbon = GridCorridor.id corridor /\
  GeometryCorridor.width ribbon
    = cellsToMeters (num_or (GridCorridor.widthCells corridor) 1) /\
  (exists first final,
     head (GeometryCorridor.segments ribbon) = Some first /\
     last (GeometryCorridor.segments ribbon) = Some final /\
     GeometryCorridor.start ribbon
       = Some (GeometryCorridorSegment.start first) /\
     GeometryCorridor.end_ ribbon
       = Some (GeometryCorridorSegment.end_ final)) /\
  (forall segs,
     GridCorridor.segments corridor = Some segs -> segs <> [] ->
     GeometryCorridor.segments ribbon
     = (fun seg : CorridorSegment.t =>
          segmentToWorld
            (CorridorSegment.startX seg) (CorridorSegment.startY seg)
            (CorridorSegment.endX seg) (CorridorSegment.endY seg)) <$> segs) /\
  (default [] (GridCorridor.segments corridor) = [] ->
     GeometryCorridor.segments ribbon
     = [ segmentToWorld (default 0 (GridCorridor.startX corridor))
                        (default 0 (GridCorridor.startY corridor))
                        (default 0 (GridCorridor.endX corridor))
                        (default 0 (GridCorridor.endY corridor)) ]).

End GeometrySpec.

(** ** Props and lead characters *)

Module PlacementSpec2.
Import AssemblyService PlacementSpec.

(** The room a prop is placed in: the asset is ready and has a path, no
    character has its id, a prop has, and the room is the first that carries
    the target tag of the prop. *)
Definition propTarget (rooms : list GridRoom.t) (context : GameContext.t)
    (asset : GeneratedAsset.t) : option GridRoom.t :=
  if usable asset then
    match List.find
            (fun c => bool_decide (Character.id c = GeneratedAsset.id asset))
            (GameContext.characters context) with
    | Some _ => None
    | None =>
        match GameContext.props context ≫=
                List.find
                  (fun p => bool_decide (Prop_.id p = GeneratedAsset.id asset))
        with
        | Some prop =>
            List.find (fun r => tagsInclude r (targetTagOf prop)) rooms
        | None => None
        end
    end
  else None.

(** The assets of the list that are props placed in a room of the given
    id. *)
Definition placedIn (rooms : list GridRoom.t) (context : GameContext.t)
    (roomId : string) (asset : GeneratedAsset.t) : bool :=
  match propTarget rooms context asset with
  | Some room => bool_decide (GridRoom.id room = roomId)
  | None => false
  end.

(** The object of a prop placed in [room] on the slot [index] of the arc
    around the centre of the room. *)
Definition propObject (asset : GeneratedAsset.t) (room : GridRoom.t)
    (index : nat) : SceneObject.t :=
  {| SceneObject.id := "obj_" +:+ GeneratedAsset.id asset;
     SceneObject.reference_id := GeneratedAsset.id asset;
     SceneObject.name := GeneratedAsset.name asset;
     SceneObject.model_path := GeneratedAsset.path asset;
     SceneObject.position :=
       ObjectPosition.Arc (roomCenterX room) (roomCenterZ room) index;
     SceneObject.rotation := (0, 0, 0);
     SceneObject.scale := (2, 2, 2);
     SceneObject.poi_id := None |}.

(** The point of interest a lead character is placed at, and its scale:
    the protagonist at the spawn, the antagonist at the goal. *)
Definition leadAnchor (role : Role) : option (POIType * Vec3) :=
  match role with
  | protagonist => Some (spawn, ASSET_SCALES_protagonist)
  | antagonist => Some (goal, ASSET_SCALES_antagonist)
  | npc => None
  end.

(** The object of a character placed at the point of interest [poi], at the
    centre of [room]. *)
Definition characterObject (asset : GeneratedAsset.t) (room : GridRoom.t)
    (sc : Vec3) (poi : GridPOI.t) : SceneObject.t :=
  {| SceneObject.id := "obj_" +:+ GeneratedAsset.id asset;
     SceneObject.reference_id := GeneratedAsset.id asset;
     SceneObject.name := GeneratedAsset.name asset;
     SceneObject.model_path := GeneratedAsset.path asset;
     SceneObject.position :=
       ObjectPosition.At (roomCenterX room, 0, roomCenterZ room);
     SceneObject.rotation := (0, 0, 0);
     SceneObject.scale := sc;
     SceneObject.poi_id := Some (GridPOI.id poi) |}.

End PlacementSpec2.

(** ** Markers *)

Module MarkerSpec.
Import AssemblyService.

(** The marker of a point of interest of the given id and type that
    stands in [room]: at the centre of the room, 0.1 above the floor. *)
Definition markerIn (id : string) (type : POIType) (room : GridRoom.t)
  : GeometryPOI.t :=
  {| GeometryPOI.id := id;
     GeometryPOI.type := type;
     GeometryPOI.position := (roomCenterX room, 1 # 10, roomCenterZ room);
     GeometryPOI.color := POI_COLORS type;
     GeometryPOI.label := capitalize (typeName type);
     GeometryPOI.roomId := GridRoom.id room |}.

End MarkerSpec.

(** ** Walls on the sides of a room *)

Module WallSpec3.
Import AssemblyService.

(** A piece of the side from [start] to [end_]: the wall runs along the
    axis of the side from [a] to [b], with [lo <= a < b <= hi]. *)
Definition Piece (axis : Axis) (start end_ : Vec3) (lo hi : Q)
    (color : option string) (wall : GeometryWall.t) : Prop :=
  exists a b,
    GeometryWall.start wall = withAxisCoord axis start a /\
    GeometryWall.end_ wall = withAxisCoord axis end_ b /\
    lo <= a /\ a < b /\ b <= hi /\
    GeometryWall.height wall = WALL_HEIGHT_M /\
    GeometryWall.color wall = color.

(** The opening lies on its side of the room, not beyond the far end of
    the side, and is not of negative width. *)
Definition OpeningOf (room : GridRoom.t) (opening : Opening.t) : Prop :=
  0 <= Opening.width opening /\
  match Opening.side opening with
  | north | south =>
      CameraSpec.worldMinX room <= Opening.position opening
        <= CameraSpec.worldMaxX room
  | west | east =>
      CameraSpec.worldMinZ room <= Opening.position opening
        <= CameraSpec.worldMaxZ room
  end.

(** The wall lies on a side of the room: it runs at floor level along the
    north or south side, left to right, or along the west or east side,
    top to bottom, has a positive length and stays between the two ends of
    the side. *)
Definition OnSide (room : GridRoom.t) (wall : GeometryWall.t) : Prop :=
  let minX := CameraSpec.worldMinX room in
  let maxX := CameraSpec.worldMaxX room in
  let minZ := CameraSpec.worldMinZ room in
  let maxZ := CameraSpec.worldMaxZ room in
  let '(x1, y1, z1) := GeometryWall.start wall in
  let '(x2, y2, z2) := GeometryWall.end_ wall in
  y1 = 0 /\ y2 = 0 /\
  ((z1 = z2 /\ (z1 = minZ \/ z1 = maxZ) /\
    minX <= x1 /\ x1 < x2 /\ x2 <= maxX) \/
   (x1 = x2 /\ (x1 = minX \/ x1 = maxX) /\
    minZ <= z1 /\ z1 < z2 /\ z2 <= maxZ)).

(** The wall belongs to the room: it lies on one of its sides, is as high
    as every wall, and has the wall colour read from the style found for the
    room, which is none when that style is a member of [Object.prototype]. *)
Definition WallOf (room : GridRoom.t) (wall : GeometryWall.t) : Prop :=
  OnSide room wall /\
  GeometryWall.height wall = WALL_HEIGHT_M /\
  GeometryWall.color wall
    = RoomStyle.wallColor <$> getRoomStyle (default [] (GridRoom.tags room)).

End WallSpec3.

(** * More sample inputs *)

Module MoreExamples.

(** A room that touches [Examples.R1] on its east side. *)
Definition R4 : GridRoom.t := Examples.room "R4" 4 0 4 3 (Some ["mid"%string]).

(** A room whose first tag is a key [ROOM_STYLES] inherits. *)
Definition R9 : GridRoom.t :=
  Examples.room "R9" 20 0 4 3 (Some ["constructor"%string; "entry"%string]).

Definition crate : GeneratedAsset.t :=
  {| GeneratedAsset.id := "prop_002"; GeneratedAsset.name := "Crate";
     GeneratedAsset.path := "/assets/prop_002.glb";
     GeneratedAsset.status := ready |}.

(** Two props that both go to the room tagged entry. *)
Definition storeroom : GameContext.t :=
  {| GameContext.characters := [];
     GameContext.props :=
       Some [ {| Prop_.id := "prop_001"; Prop_.name := "Barrel";
                 Prop_.placement_tags := Some ["entry"%string] |};
              {| Prop_.id := "prop_002"; Prop_.name := "Crate";
                 Prop_.placement_tags := Some ["entry"%string; "goal"%string] |} ] |}.

Definition hero : GeneratedAsset.t :=
  {| GeneratedAsset.id := "char_001"; GeneratedAsset.name := "Hero";
     GeneratedAsset.path := "/assets/char_001.glb";
     GeneratedAsset.status := ready |}.

Definition cast : GameContext.t :=
  {| GameContext.characters :=
       [ {| Character.id := "char_001"; Character.name := "Hero";
            Character.role := protagonist |} ];
     GameContext.props := None |}.

Definition torchlitNight : Environment.t :=
  {| Environment.lighting := "Dim Torchlight";
     Environment.time_of_day := "Night" |}.

End MoreExamples.

(** * Lemmas on numbers and lists *)

(** Linear arithmetic on [Q] with halves. *)
Ltac qlra := unfold Qdiv in *; change (/ 2) with (1 # 2) in *; lra.

Lemma ltb_true (a b : Q) : ltb a b = true <-> a < b.
Proof.
  unfold ltb. rewrite negb_true_iff, <- not_true_iff_false, Qle_bool_iff.
  split; [apply Qnot_le_lt | apply Qlt_not_le].
Qed.

Lemma ltb_false (a b : Q) : ltb a b = false <-> b <= a.
Proof.
  unfold ltb. rewrite negb_false_iff. apply Qle_bool_iff.
Qed.

Lemma leb_true (a b : Q) : leb a b = true <-> a <= b.
Proof. apply Qle_bool_iff. Qed.

Lemma leb_false (a b : Q) : leb a b = false <-> b < a.
Proof.
  unfold leb. rewrite <- not_true_iff_false, Qle_bool_iff.
  split; [apply Qnot_le_lt | apply Qlt_not_le].
Qed.

Lemma eqb_true (a b : Q) : eqb a b = true <-> a == b.
Proof. apply Qeq_bool_iff. Qed.

Lemma Qmax_inject_Z (a b : Z) : Qmax (inject_Z a) (inject_Z b) == inject_Z (Z.max a b).
Proof.
  destruct (Z.max_spec a b) as [[H ->]|[H ->]].
  - apply Q.max_r. rewrite <- Zle_Qle. lia.
  - apply Q.max_l. rewrite <- Zle_Qle. lia.
Qed.

Lemma Qmin_inject_Z (a b : Z) : Qmin (inject_Z a) (inject_Z b) == inject_Z (Z.min a b).
Proof.
  destruct (Z.min_spec a b) as [[H ->]|[H ->]].
  - apply Q.min_l. rewrite <- Zle_Qle. lia.
  - apply Q.min_r. rewrite <- Zle_Qle. lia.
Qed.

Lemma Qfloor_half_sum (a b : Z) :
  Qfloor ((inject_Z a + inject_Z b) / 2) = ((a + b) / 2)%Z.
Proof.
  rewrite <- inject_Z_plus. symmetry. apply (Zdiv_Qdiv (a + b) 2).
Qed.

Lemma Qfloor_plus_half (a b : Z) :
  Qfloor (inject_Z a + inject_Z b / 2) = (a + b / 2)%Z.
Proof.
  transitivity (Qfloor (inject_Z (a * 2 + b) / inject_Z 2)).
  - apply Qfloor_comp. rewrite inject_Z_plus, inject_Z_mult. field.
  - rewrite <- Zdiv_Qdiv. rewrite Z.div_add_l by lia. reflexivity.
Qed.

Lemma find_none_iff {A} (f : A -> bool) (l : list A) :
  List.find f l = None <-> (forall x, In x l -> f x = false).
Proof.
  split; [apply List.find_none|].
  induction l as [|a l IH]; intros H; [reflexivity|].
  cbn [List.find]. rewrite (H a (or_introl eq_refl)).
  apply IH. intros x Hx. apply H. right. exact Hx.
Qed.

Lemma Qfloor_unique (x : Q) (n : Z) :
  inject_Z n <= x -> x < inject_Z n + 1 -> Qfloor x = n.
Proof.
  intros Hlo Hhi.
  pose proof (Qfloor_le x) as H1. pose proof (Qlt_floor x) as H2.
  rewrite inject_Z_plus in H2. change (inject_Z 1) with 1 in H2.
  assert (Ha : inject_Z (Qfloor x) < inject_Z (n + 1)).
  { rewrite inject_Z_plus. change (inject_Z 1) with 1. lra. }
  assert (Hb : inject_Z n < inject_Z (Qfloor x + 1)).
  { rewrite inject_Z_plus. change (inject_Z 1) with 1. lra. }
  rewrite <- Zlt_Qlt in Ha, Hb. lia.
Qed.

Lemma round_integer (z : Z) : Math.round (inject_Z z) = inject_Z z.
Proof.
  unfold Math.round. f_equal. apply Qfloor_unique; lra.
Qed.

Lemma Qmax_cases (x y : Q) :
  (Qmax x y = y /\ x < y) \/ (Qmax x y = x /\ y <= x).
Proof.
  unfold Qmax, GenericMinMax.gmax. destruct (x ?= y) eqn:E.
  - right. split; [reflexivity|]. apply Qeq_alt in E. lra.
  - left. split; [reflexivity|]. apply Qlt_alt in E. exact E.
  - right. split; [reflexivity|]. apply Qgt_alt in E. lra.
Qed.

Lemma Qmin_cases (x y : Q) :
  (Qmin x y = x /\ x <= y) \/ (Qmin x y = y /\ y < x).
Proof.
  unfold Qmin, GenericMinMax.gmin. destruct (x ?= y) eqn:E.
  - left. split; [reflexivity|]. apply Qeq_alt in E. lra.
  - left. split; [reflexivity|]. apply Qlt_alt in E. lra.
  - right. split; [reflexivity|]. apply Qgt_alt in E. lra.
Qed.

Lemma max2_integer (k : Z) : Math.max 2 (inject_Z k) = inject_Z (Z.max 2 k).
Proof.
  unfold Math.max. change 2 with (inject_Z 2).
  destruct (Qmax_cases (inject_Z 2) (inject_Z k)) as [[-> H]|[-> H]].
  - rewrite <- Zlt_Qlt in H. f_equal. lia.
  - rewrite <- Zle_Qle in H. f_equal. lia.
Qed.


(** * The corridor router *)

Module Router.
Import LevelLayoutService RouterSpec.

(** The overlap of two intervals with integer ends is the one computed on
    the integers. *)
Lemma getOverlap_integer (min1 max1 min2 max2 : Q) (a1 b1 a2 b2 : Z) :
  min1 == inject_Z a1 -> max1 == inject_Z b1 ->
  min2 == inject_Z a2 -> max2 == inject_Z b2 ->
  let o := getOverlap min1 max1 min2 max2 in
  start o == inject_Z (Z.max a1 a2) /\
  end_ o == inject_Z (Z.min b1 b2) /\
  (hasOverlap o = true <-> (Z.max a1 a2 < Z.min b1 b2)%Z).
Proof.
  intros Ha1 Hb1 Ha2 Hb2. cbv zeta.
  unfold getOverlap, Math.max, Math.min. cbn [start end_ hasOverlap].
  assert (Hs : Qmax min1 min2 == inject_Z (Z.max a1 a2))
    by (rewrite Ha1, Ha2; apply Qmax_inject_Z).
  assert (He : Qmin max1 max2 == inject_Z (Z.min b1 b2))
    by (rewrite Hb1, Hb2; apply Qmin_inject_Z).
  split; [exact Hs|]. split; [exact He|].
  rewrite ltb_true, Hs, He, <- Zlt_Qlt. reflexivity.
Qed.

Lemma rectOf_edges (room : GridRoom.t) (x y w h : Z) :
  IntegerRoom room x y w h ->
  minX (rectOf room) == inject_Z x /\
  maxX (rectOf room) == inject_Z (x + w) /\
  minY (rectOf room) == inject_Z y /\
  maxY (rectOf room) == inject_Z (y + h).
Proof.
  intros (Hx & Hy & Hw & Hh). unfold rectOf; simpl.
  rewrite !inject_Z_plus, Hx, Hy, Hw, Hh. repeat split; reflexivity.
Qed.

Lemma center_gtb (a w b v : Q) (az wz bz vz : Z) :
  a == inject_Z az -> w == inject_Z wz ->
  b == inject_Z bz -> v == inject_Z vz ->
  gtb (b + v / 2) (a + w / 2) = (2 * az + wz <? 2 * bz + vz)%Z.
Proof.
  intros Ha Hw Hb Hv. unfold gtb.
  destruct (2 * az + wz <? 2 * bz + vz)%Z eqn:E.
  - apply ltb_true. apply Z.ltb_lt in E. rewrite Zlt_Qlt in E.
    rewrite !inject_Z_plus, !inject_Z_mult in E.
    change (inject_Z 2) with 2 in E.
    rewrite Ha, Hw, Hb, Hv. clear Ha Hw Hb Hv. revert E.
    generalize (inject_Z az) (inject_Z wz) (inject_Z bz) (inject_Z vz).
    intros; qlra.
  - apply ltb_false. apply Z.ltb_ge in E. rewrite Zle_Qle in E.
    rewrite !inject_Z_plus, !inject_Z_mult in E.
    change (inject_Z 2) with 2 in E.
    rewrite Ha, Hw, Hb, Hv. clear Ha Hw Hb Hv. revert E.
    generalize (inject_Z az) (inject_Z wz) (inject_Z bz) (inject_Z vz).
    intros; qlra.
Qed.

Lemma floor_center (a w : Q) (az wz : Z) :
  a == inject_Z az -> w == inject_Z wz ->
  Math.floor (a + w / 2) = inject_Z (az + wz / 2).
Proof.
  intros Ha Hw. unfold Math.floor. f_equal. rewrite <- Qfloor_plus_half.
  apply Qfloor_comp. rewrite Ha, Hw. reflexivity.
Qed.

Lemma half_within (wz : Z) : (0 <= wz -> 0 <= wz / 2 <= wz)%Z.
Proof.
  intros H. split.
  - apply Z.div_pos; lia.
  - apply Z.div_le_upper_bound; lia.
Qed.

Lemma inject_Z_Qeq (a b : Z) : a = b -> inject_Z a == inject_Z b.
Proof. intros ->. reflexivity. Qed.

(** The facing edges of two integer rooms, computed on the integers. *)
Lemma facing_edges_integer (fromRoom toRoom : GridRoom.t)
    (fx fy fw fh tx ty tw th : Z) :
  IntegerRoom fromRoom fx fy fw fh ->
  IntegerRoom toRoom tx ty tw th ->
  facingEdgeY (rectOf fromRoom) (rectOf toRoom)
    == inject_Z (if (2 * fy + fh <? 2 * ty + th)%Z then fy + fh else fy) /\
  facingEdgeY (rectOf toRoom) (rectOf fromRoom)
    == inject_Z (if (2 * ty + th <? 2 * fy + fh)%Z then ty + th else ty).
Proof.
  intros Hfrom Hto.
  destruct (rectOf_edges _ _ _ _ _ Hfrom) as (_ & _ & F3 & F4).
  destruct (rectOf_edges _ _ _ _ _ Hto) as (_ & _ & T3 & T4).
  destruct Hfrom as (_ & Hfy & _ & Hfh). destruct Hto as (_ & Hty & _ & Hth).
  unfold facingEdgeY. cbn [centerY rectOf].
  rewrite (center_gtb _ _ _ _ _ _ _ _ Hfy Hfh Hty Hth).
  rewrite (center_gtb _ _ _ _ _ _ _ _ Hty Hth Hfy Hfh).
  split.
  - destruct (2 * fy + fh <? 2 * ty + th)%Z; assumption.
  - destruct (2 * ty + th <? 2 * fy + fh)%Z; assumption.
Qed.

(** C1 (amended): for integer rooms whose X intervals overlap
    (max(minX1, minX2) < min(maxX1, maxX2)) the router returns exactly one
    segment; it is vertical, at X = floor((overlapStart + overlapEnd) / 2),
    which lies within the overlap interval; its Y span is
    [from.maxY, to.minY] when from.maxY <= to.minY and [from.minY, to.maxY]
    otherwise; its start lies on the boundary of [from] and its end on the
    boundary of [to].  When the rooms, of non-negative height, are apart
    along Y (from.maxY <= to.minY or to.maxY <= from.minY) the span touches
    the facing edges of the two rooms: it starts on the edge of [from] that
    faces [to] and ends on the edge of [to] that faces [from]. *)
Theorem route_aligned_on_X (corridorId : string) (widthCells : Q)
    (fromRoom toRoom : GridRoom.t) (fx fy fw fh tx ty tw th : Z) :
  IntegerRoom fromRoom fx fy fw fh ->
  IntegerRoom toRoom tx ty tw th ->
  (Z.max fx tx < Z.min (fx + fw) (tx + tw))%Z ->
  let overlapStart := Z.max fx tx in
  let overlapEnd := Z.min (fx + fw) (tx + tw) in
  let x := ((overlapStart + overlapEnd) / 2)%Z in
  exists seg,
    GridCorridor.segments
      (buildCorridorBetweenRooms corridorId fromRoom toRoom widthCells)
      = Some [seg] /\
    CorridorSegment.startX seg = inject_Z x /\
    CorridorSegment.endX seg = inject_Z x /\
    (overlapStart <= x <= overlapEnd)%Z /\
    (if (fy + fh <=? ty)%Z
     then CorridorSegment.startY seg == inject_Z (fy + fh) /\
          CorridorSegment.endY seg == inject_Z ty
     else CorridorSegment.startY seg == inject_Z fy /\
          CorridorSegment.endY seg == inject_Z (ty + th)) /\
    onBoundary (rectOf fromRoom)
      (CorridorSegment.startX seg) (CorridorSegment.startY seg) /\
    onBoundary (rectOf toRoom)
      (CorridorSegment.endX seg) (CorridorSegment.endY seg) /\
    ((0 <= fh)%Z -> (0 <= th)%Z ->
     (fy + fh <= ty \/ ty + th <= fy)%Z ->
     TouchesFacingEdges (rectOf fromRoom) (rectOf toRoom) seg).
Proof.
  intros Hfrom Hto Hov s e x.
  pose proof (facing_edges_integer _ _ _ _ _ _ _ _ _ _ Hfrom Hto)
    as (HfaceF & HfaceT).
  destruct (rectOf_edges _ _ _ _ _ Hfrom) as (F1 & F2 & F3 & F4).
  destruct (rectOf_edges _ _ _ _ _ Hto) as (T1 & T2 & T3 & T4).
  destruct (getOverlap_integer _ _ _ _ _ _ _ _ F1 F2 T1 T2)
    as (Hs & He & Hhas).
  cbv zeta in Hs, He, Hhas. apply Hhas in Hov as Hb.
  unfold buildCorridorBetweenRooms. cbn [GridCorridor.segments].
  rewrite Hb. unfold buildVerticalCorridor.
  set (o := getOverlap _ _ _ _) in *.
  assert (Hx : Math.floor ((start o + end_ o) / 2) = inject_Z x).
  { unfold Math.floor, x, s, e. f_equal. rewrite <- Qfloor_half_sum.
    apply Qfloor_comp. rewrite Hs, He. reflexivity. }
  assert (Hin : (s <= x <= e)%Z).
  { unfold x. fold s e in Hov. split.
    - apply Z.div_le_lower_bound; lia.
    - apply Z.div_le_upper_bound; lia. }
  assert (HxF : minX (rectOf fromRoom) <= inject_Z x <= maxX (rectOf fromRoom)).
  { rewrite F1, F2, <- !Zle_Qle. unfold s, e in Hin. lia. }
  assert (HxT : minX (rectOf toRoom) <= inject_Z x <= maxX (rectOf toRoom)).
  { rewrite T1, T2, <- !Zle_Qle. unfold s, e in Hin. lia. }
  destruct (leb (maxY (rectOf fromRoom)) (minY (rectOf toRoom))) eqn:Hle.
  - eexists; split; [reflexivity|].
    cbn [CorridorSegment.startX CorridorSegment.endX
         CorridorSegment.startY CorridorSegment.endY].
    rewrite Hx. apply leb_true in Hle. rewrite F4, T3, <- Zle_Qle in Hle.
    apply Z.leb_le in Hle as Hle'. rewrite Hle'.
    assert (Hface : (0 <= fh)%Z -> (0 <= th)%Z ->
                    (fy + fh <= ty \/ ty + th <= fy)%Z ->
                    TouchesFacingEdges (rectOf fromRoom) (rectOf toRoom)
                      {| CorridorSegment.startX := inject_Z x;
                         CorridorSegment.startY := maxY (rectOf fromRoom);
                         CorridorSegment.endX := inject_Z x;
                         CorridorSegment.endY := minY (rectOf toRoom) |}).
    { intros Hfh Hth _. unfold TouchesFacingEdges.
      cbn [CorridorSegment.startY CorridorSegment.endY].
      rewrite HfaceF, HfaceT, F4, T3.
      split; apply inject_Z_Qeq;
        repeat match goal with
               | |- context [(?a <? ?b)%Z] => destruct (Z.ltb_spec a b)
               end; lia. }
    repeat split; try assumption; try lia; try (apply Hface; assumption).
    + right. split; [right; reflexivity | assumption].
    + right. split; [left; reflexivity | assumption].
  - eexists; split; [reflexivity|].
    cbn [CorridorSegment.startX CorridorSegment.endX
         CorridorSegment.startY CorridorSegment.endY].
    rewrite Hx. apply leb_false in Hle. rewrite F4, T3, <- Zlt_Qlt in Hle.
    apply Z.leb_gt in Hle as Hle'. rewrite Hle'.
    assert (Hface : (0 <= fh)%Z -> (0 <= th)%Z ->
                    (fy + fh <= ty \/ ty + th <= fy)%Z ->
                    TouchesFacingEdges (rectOf fromRoom) (rectOf toRoom)
                      {| CorridorSegment.startX := inject_Z x;
                         CorridorSegment.startY := minY (rectOf fromRoom);
                         CorridorSegment.endX := inject_Z x;
                         CorridorSegment.endY := maxY (rectOf toRoom) |}).
    { intros Hfh Hth Hapart. unfold TouchesFacingEdges.
      cbn [CorridorSegment.startY CorridorSegment.endY].
      rewrite HfaceF, HfaceT, F3, T4.
      split; apply inject_Z_Qeq;
        repeat match goal with
               | |- context [(?a <? ?b)%Z] => destruct (Z.ltb_spec a b)
               end; lia. }
    repeat split; try assumption; try lia; try (apply Hface; assumption).
    + right. split; [left; reflexivity | assumption].
    + right. split; [right; reflexivity | assumption].
Qed.

Lemma R1_integer : IntegerRoom Examples.R1 0 0 4 3.
Proof. repeat split; reflexivity. Qed.

Lemma R2_integer : IntegerRoom Examples.R2 0 6 4 3.
Proof. repeat split; reflexivity. Qed.

Lemma R3_integer : IntegerRoom Examples.R3 8 5 4 3.
Proof. repeat split; reflexivity. Qed.

(** Scenario A of the specification: one vertical segment at X = 2 from
    Y = 3 to Y = 6. *)
Lemma route_aligned_on_X_witness :
  exists seg,
    GridCorridor.segments
      (buildCorridorBetweenRooms "corr_1" Examples.R1 Examples.R2 1)
      = Some [seg] /\
    CorridorSegment.startX seg = inject_Z 2 /\
    CorridorSegment.endX seg = inject_Z 2 /\
    (0 <= 2 <= 4)%Z /\
    (CorridorSegment.startY seg == inject_Z 3 /\
     CorridorSegment.endY seg == inject_Z 6) /\
    onBoundary (rectOf Examples.R1)
      (CorridorSegment.startX seg) (CorridorSegment.startY seg) /\
    onBoundary (rectOf Examples.R2)
      (CorridorSegment.endX seg) (CorridorSegment.endY seg) /\
    TouchesFacingEdges (rectOf Examples.R1) (rectOf Examples.R2) seg.
Proof.
  destruct (route_aligned_on_X "corr_1" 1 Examples.R1 Examples.R2
              0 0 4 3 0 6 4 3 R1_integer R2_integer)
    as (seg & Hseg & Hsx & Hex & Hin & Hy & Hfrom & Hto & Hface);
    [reflexivity|].
  exists seg. repeat split; try assumption; try apply Hy; try apply Hin.
  all: apply Hface; lia.
Defined.

Lemma R5_integer : IntegerRoom Examples.R5 0 0 4 3.
Proof. repeat split; reflexivity. Qed.

Lemma R6_integer : IntegerRoom Examples.R6 0 2 4 3.
Proof. repeat split; reflexivity. Qed.

(** C1 fails as stated: [R5] and [R6] are integer rooms whose X intervals
    overlap, and they share the row Y = 2.  [R6] lies further
    down, so the edge of [R5] that faces it is Y = 3 and the edge of [R6]
    that faces [R5] is Y = 2; the corridor runs from Y = 0 to Y = 5, from
    the far edge of [R5] to the far edge of [R6], through the inside of
    both rooms. *)
Lemma rooms_sharing_rows_routed_between_far_edges :
  let seg :=
    {| CorridorSegment.startX := 2; CorridorSegment.startY := 0;
       CorridorSegment.endX := 2; CorridorSegment.endY := 5 |} in
  IntegerRoom Examples.R5 0 0 4 3 /\
  IntegerRoom Examples.R6 0 2 4 3 /\
  (Z.max 0 0 < Z.min (0 + 4) (0 + 4))%Z /\
  GridCorridor.segments
    (buildCorridorBetweenRooms "corr_1" Examples.R5 Examples.R6 1)
    = Some [seg] /\
  facingEdgeY (rectOf Examples.R5) (rectOf Examples.R6) == 3 /\
  facingEdgeY (rectOf Examples.R6) (rectOf Examples.R5) == 2 /\
  strictlyInside (rectOf Examples.R5) 2 1 /\
  strictlyInside (rectOf Examples.R6) 2 4 /\
  ~ TouchesFacingEdges (rectOf Examples.R5) (rectOf Examples.R6) seg.
Proof.
  cbv zeta. split; [exact R5_integer|]. split; [exact R6_integer|].
  split; [reflexivity|]. split; [reflexivity|].
  split; [reflexivity|]. split; [reflexivity|].
  split; [repeat split|]. split; [repeat split|].
  intros [Hstart _]. vm_compute in Hstart. discriminate Hstart.
Qed.

(** C2: for integer rooms that overlap neither on X nor on Y the router
    returns exactly two segments.  The first is horizontal, at
    Y = floor(from.centerY), and starts on the boundary of [from] (on its
    maxX edge when going right, on its minX edge otherwise).  The second is
    vertical, at X = floor(to.centerX), and ends on the boundary of [to] (on
    its minY edge when going down, on its maxY edge otherwise).  The end of
    the first is the start of the second: the corner of the L. *)
Theorem route_unaligned (corridorId : string) (widthCells : Q)
    (fromRoom toRoom : GridRoom.t) (fx fy fw fh tx ty tw th : Z) :
  IntegerRoom fromRoom fx fy fw fh ->
  IntegerRoom toRoom tx ty tw th ->
  (0 <= fh)%Z -> (0 <= tw)%Z ->
  ~ (Z.max fx tx < Z.min (fx + fw) (tx + tw))%Z ->
  ~ (Z.max fy ty < Z.min (fy + fh) (ty + th))%Z ->
  exists seg1 seg2,
    GridCorridor.segments
      (buildCorridorBetweenRooms corridorId fromRoom toRoom widthCells)
      = Some [seg1; seg2] /\
    (* first segment: horizontal, from an edge of [from] *)
    CorridorSegment.startY seg1 = inject_Z (fy + fh / 2) /\
    CorridorSegment.endY seg1 = inject_Z (fy + fh / 2) /\
    CorridorSegment.startX seg1 ==
      inject_Z (if (2 * fx + fw <? 2 * tx + tw)%Z then fx + fw else fx) /\
    onBoundary (rectOf fromRoom)
      (CorridorSegment.startX seg1) (CorridorSegment.startY seg1) /\
    (* second segment: vertical, to an edge of [to] *)
    CorridorSegment.startX seg2 = inject_Z (tx + tw / 2) /\
    CorridorSegment.endX seg2 = inject_Z (tx + tw / 2) /\
    CorridorSegment.endY seg2 ==
      inject_Z (if (2 * fy + fh <? 2 * ty + th)%Z then ty else ty + th) /\
    onBoundary (rectOf toRoom)
      (CorridorSegment.endX seg2) (CorridorSegment.endY seg2) /\
    (* the corner *)
    CorridorSegment.endX seg1 = CorridorSegment.startX seg2 /\
    CorridorSegment.endY seg1 = CorridorSegment.startY seg2.
Proof.
  intros Hfrom Hto Hfh Htw HnoX HnoY.
  destruct (rectOf_edges _ _ _ _ _ Hfrom) as (F1 & F2 & F3 & F4).
  destruct (rectOf_edges _ _ _ _ _ Hto) as (T1 & T2 & T3 & T4).
  destruct (getOverlap_integer _ _ _ _ _ _ _ _ F1 F2 T1 T2)
    as (_ & _ & HhasX).
  destruct (getOverlap_integer _ _ _ _ _ _ _ _ F3 F4 T3 T4)
    as (_ & _ & HhasY).
  cbv zeta in HhasX, HhasY.
  unfold buildCorridorBetweenRooms. cbn [GridCorridor.segments].
  rewrite <- HhasX, not_true_iff_false in HnoX.
  rewrite <- HhasY, not_true_iff_false in HnoY. rewrite HnoX, HnoY.
  unfold buildLShapedCorridor.
  destruct Hfrom as (Hfx & Hfy & Hfw & Hfh'), Hto as (Htx & Hty & Htw' & Hth).
  change (centerX (rectOf toRoom))
    with (GridRoom.gridX toRoom + GridRoom.width toRoom / 2).
  change (centerY (rectOf toRoom))
    with (GridRoom.gridY toRoom + GridRoom.height toRoom / 2).
  change (centerX (rectOf fromRoom))
    with (GridRoom.gridX fromRoom + GridRoom.width fromRoom / 2).
  change (centerY (rectOf fromRoom))
    with (GridRoom.gridY fromRoom + GridRoom.height fromRoom / 2).
  rewrite (center_gtb _ _ _ _ _ _ _ _ Hfx Hfw Htx Htw').
  rewrite (center_gtb _ _ _ _ _ _ _ _ Hfy Hfh' Hty Hth).
  rewrite (floor_center _ _ _ _ Hfy Hfh'), (floor_center _ _ _ _ Htx Htw').
  pose proof (half_within fh Hfh) as Bh. pose proof (half_within tw Htw) as Bw.
  do 2 eexists. split; [reflexivity|].
  cbn [CorridorSegment.startX CorridorSegment.endX
       CorridorSegment.startY CorridorSegment.endY].
  split; [reflexivity|]. split; [reflexivity|].
  split; [destruct (2 * fx + fw <? 2 * tx + tw)%Z; assumption|].
  split.
  { left. split.
    - destruct (2 * fx + fw <? 2 * tx + tw)%Z; [right | left]; reflexivity.
    - rewrite F3, F4, <- !Zle_Qle. lia. }
  split; [reflexivity|]. split; [reflexivity|].
  split; [destruct (2 * fy + fh <? 2 * ty + th)%Z; assumption|].
  split.
  { right. split.
    - destruct (2 * fy + fh <? 2 * ty + th)%Z; [left | right]; reflexivity.
    - rewrite T1, T2, <- !Zle_Qle. lia. }
  split; reflexivity.
Qed.

(** Scenario B of the specification: from (4, 1) right to the corner
    (10, 1), then down to (10, 5). *)
Lemma route_unaligned_witness :
  exists seg1 seg2,
    GridCorridor.segments
      (buildCorridorBetweenRooms "corr_2" Examples.R1 Examples.R3 1)
      = Some [seg1; seg2] /\
    CorridorSegment.startY seg1 = inject_Z 1 /\
    CorridorSegment.endY seg1 = inject_Z 1 /\
    CorridorSegment.startX seg1 == inject_Z 4 /\
    onBoundary (rectOf Examples.R1)
      (CorridorSegment.startX seg1) (CorridorSegment.startY seg1) /\
    CorridorSegment.startX seg2 = inject_Z 10 /\
    CorridorSegment.endX seg2 = inject_Z 10 /\
    CorridorSegment.endY seg2 == inject_Z 5 /\
    onBoundary (rectOf Examples.R3)
      (CorridorSegment.endX seg2) (CorridorSegment.endY seg2) /\
    CorridorSegment.endX seg1 = CorridorSegment.startX seg2 /\
    CorridorSegment.endY seg1 = CorridorSegment.startY seg2.
Proof.
  apply (route_unaligned "corr_2" 1 Examples.R1 Examples.R3
           0 0 4 3 8 5 4 3 R1_integer R3_integer);
    vm_compute; congruence.
Defined.

End Router.


(** * The layout repair *)

Module Repair.
Import LevelLayoutService RepairSpec.

Lemma round_round (x : Q) : Math.round (Math.round x) = Math.round x.
Proof. unfold Math.round at 2 3. apply round_integer. Qed.

Lemma max2_round_idempotent (x : Q) :
  Math.max 2 (Math.round (Math.max 2 (Math.round x)))
  = Math.max 2 (Math.round x).
Proof.
  assert (H : exists k, Math.max 2 (Math.round x) = inject_Z k /\ (2 <= k)%Z).
  { unfold Math.round. rewrite max2_integer. eexists; split; [reflexivity|lia]. }
  destruct H as (k & -> & Hk).
  rewrite round_integer, max2_integer. f_equal. lia.
Qed.

Lemma fixRoom_idempotent (room : GridRoom.t) :
  fixRoom (fixRoom room) = fixRoom room.
Proof.
  unfold fixRoom. cbn [GridRoom.id GridRoom.name GridRoom.gridX GridRoom.gridY
    GridRoom.width GridRoom.height GridRoom.tags GridRoom.material].
  rewrite !round_round, !max2_round_idempotent. reflexivity.
Qed.

(** *** The rooms map *)

Lemma buildRoomsMap_keyed (rooms : list GridRoom.t) :
  KeyedById (buildRoomsMap rooms).
Proof.
  unfold buildRoomsMap.
  assert (H : forall m, KeyedById m ->
    KeyedById (foldl (fun m room => <[GridRoom.id room := room]> m) m rooms)).
  { induction rooms as [|r rooms IH]; intros m Hm; [exact Hm|].
    cbn [foldl]. apply IH. intros k room Hk.
    destruct (decide (GridRoom.id r = k)) as [<-|Hne].
    - rewrite lookup_insert_eq in Hk. congruence.
    - rewrite lookup_insert_ne in Hk by exact Hne. eauto. }
  apply H. intros k room Hk. rewrite lookup_empty in Hk. discriminate.
Qed.

(** *** Corridors *)

Lemma num_or_nonzero (w : option Q) : eqb (num_or w 1) 0 = false.
Proof.
  unfold num_or. destruct w as [v|]; [|reflexivity].
  destruct (eqb v 0) eqn:E; [reflexivity | exact E].
Qed.

Lemma num_or_idempotent (w : option Q) :
  num_or (Some (num_or w 1)) 1 = num_or w 1.
Proof.
  unfold num_or at 1. rewrite num_or_nonzero. reflexivity.
Qed.

Lemma fixCorridor_idempotent (m : gmap string GridRoom.t)
    (corridor fixed : GridCorridor.t) :
  KeyedById m ->
  fixCorridor m corridor = Some fixed -> fixCorridor m fixed = Some fixed.
Proof.
  intros Hm. unfold fixCorridor.
  destruct (m !! GridCorridor.fromRoom corridor) as [fromRoom|] eqn:Hf;
    [|discriminate].
  destruct (m !! GridCorridor.toRoom corridor) as [toRoom|] eqn:Ht;
    [|discriminate].
  intros [= <-].
  unfold buildCorridorBetweenRooms at 1 2.
  cbn [GridCorridor.fromRoom GridCorridor.toRoom].
  rewrite (Hm _ _ Hf), (Hm _ _ Ht), Hf, Ht.
  unfold buildCorridorBetweenRooms.
  cbn [GridCorridor.id GridCorridor.widthCells].
  rewrite num_or_idempotent. reflexivity.
Qed.

Lemma fixCorridors_idempotent (m : gmap string GridRoom.t)
    (corridors : list GridCorridor.t) :
  KeyedById m ->
  omap (fixCorridor m) (omap (fixCorridor m) corridors)
  = omap (fixCorridor m) corridors.
Proof.
  intros Hm. induction corridors as [|c cs IH]; [reflexivity|].
  cbn [omap list_omap]. destruct (fixCorridor m c) as [c'|] eqn:E.
  - cbn [omap list_omap]. rewrite (fixCorridor_idempotent _ _ _ Hm E).
    f_equal. exact IH.
  - exact IH.
Qed.

(** *** Default points of interest *)

Lemma generateDefaultPOIs_ok (rooms : list GridRoom.t) :
  rooms <> [] ->
  exists entryRoom goalRoom,
    pickRoom "entry" rooms (head rooms) = Some entryRoom /\
    pickRoom "goal" rooms (last rooms) = Some goalRoom /\
    generateDefaultPOIs rooms
    = inr [ mkPOI "poi_spawn" spawn entryRoom; mkPOI "poi_goal" goal goalRoom ].
Proof.
  intros Hne.
  assert (Hh : is_Some (head rooms)) by (destruct rooms; [congruence|eauto]).
  assert (Hl : is_Some (last rooms)).
  { destruct rooms as [|r rs]; [congruence|]. apply last_is_Some. congruence. }
  destruct Hh as [h Hh], Hl as [l Hl].
  unfold generateDefaultPOIs, findOr, pickRoom. rewrite Hh, Hl.
  destruct (List.find (fun r => tagsInclude r "entry") rooms) as [e|];
  destruct (List.find (fun r => tagsInclude r "goal") rooms) as [g|];
    do 2 eexists; repeat split; reflexivity.
Qed.

(** *** The repaired layout *)

Lemma hasType_defaults (e g : GridRoom.t) :
  hasType spawn [mkPOI "poi_spawn" spawn e; mkPOI "poi_goal" goal g] = true /\
  hasType goal [mkPOI "poi_spawn" spawn e; mkPOI "poi_goal" goal g] = true.
Proof. split; reflexivity. Qed.

Lemma validateAndFixLayout_ok (layout : LevelLayout.t)
    (level : GridLevelData.t) (rawRooms : list GridRoom.t) :
  LevelLayout.level layout = Some level ->
  GridLevelData.rooms level = Some rawRooms ->
  (2 <= length rawRooms)%nat ->
  let rooms := fixRoom <$> rawRooms in
  exists defaults,
    generateDefaultPOIs rooms = inr defaults /\
    validateAndFixLayout layout = inr
      {| LevelLayout.level := Some
        {| GridLevelData.name := GridLevelData.name level;
           GridLevelData.type := GridLevelData.type level;
           GridLevelData.theme := GridLevelData.theme level;
           GridLevelData.grid :=
             Some (default defaultGrid (GridLevelData.grid level));
           GridLevelData.rooms := Some rooms;
           GridLevelData.corridors :=
             omap (fixCorridor (buildRoomsMap rooms))
                  (GridLevelData.corridors level);
           GridLevelData.pois :=
             Some (default defaults (keptPOIs (GridLevelData.pois level)));
           GridLevelData.criticalPath :=
             Some (default (GridRoom.id <$> rooms)
                     (keptPath (GridLevelData.criticalPath level))) |} |}.
Proof.
  intros Hlevel Hrooms Hlen rooms.
  assert (Hne : rooms <> []).
  { unfold rooms. destruct rawRooms; [simpl in Hlen; lia | discriminate]. }
  destruct (generateDefaultPOIs_ok rooms Hne) as (e & g & _ & _ & Hdef).
  exists [mkPOI "poi_spawn" spawn e; mkPOI "poi_goal" goal g].
  split; [exact Hdef|].
  unfold validateAndFixLayout. rewrite Hlevel, Hrooms.
  destruct (length rawRooms <? 2)%nat eqn:Hlt;
    [apply Nat.ltb_lt in Hlt; lia|].
  fold rooms. rewrite Hdef.
  assert (Hgrid : match GridLevelData.grid level with
                  | Some g0 => g0
                  | None => defaultGrid end
                  = default defaultGrid (GridLevelData.grid level))
    by (destruct (GridLevelData.grid level); reflexivity).
  unfold defaultGrid in Hgrid at 1. rewrite Hgrid.
  assert (Hpath :
    match GridLevelData.criticalPath level with
    | Some path => if (length path <? 2)%nat then GridRoom.id <$> rooms else path
    | None => GridRoom.id <$> rooms
    end = default (GridRoom.id <$> rooms)
            (keptPath (GridLevelData.criticalPath level))).
  { unfold keptPath. destruct (GridLevelData.criticalPath level) as [p|];
      [|reflexivity].
    destruct (length p <? 2)%nat eqn:E1, (2 <=? length p)%nat eqn:E2;
      try reflexivity.
    - apply Nat.ltb_lt in E1. apply Nat.leb_le in E2. lia.
    - apply Nat.ltb_ge in E1. apply Nat.leb_gt in E2. lia. }
  rewrite Hpath. unfold keptPOIs.
  destruct (GridLevelData.pois level) as [ps|]; [|reflexivity].
  destruct (length ps <? 2)%nat eqn:E1, (2 <=? length ps)%nat eqn:E2.
  - apply Nat.ltb_lt in E1. apply Nat.leb_le in E2. lia.
  - reflexivity.
  - cbn [mbind result_bind mret result_ret andb].
    destruct (hasType spawn ps), (hasType goal ps); try reflexivity;
      cbn [negb orb andb]; rewrite Hdef; reflexivity.
  - apply Nat.ltb_ge in E1. apply Nat.leb_gt in E2. lia.
Qed.

Lemma keptPOIs_stable (pois : option (list GridPOI.t)) (defaults : list GridPOI.t) :
  keptPOIs (Some defaults) = Some defaults ->
  keptPOIs (Some (default defaults (keptPOIs pois)))
  = Some (default defaults (keptPOIs pois)).
Proof.
  intros Hd. destruct (keptPOIs pois) as [ps|] eqn:E; [|exact Hd].
  cbn [default]. unfold keptPOIs in E |- *. destruct pois as [ps'|]; [|discriminate].
  destruct ((2 <=? length ps')%nat && hasType spawn ps' && hasType goal ps') eqn:C;
    [|discriminate].
  injection E as E. subst ps'. unfold id. rewrite C. reflexivity.
Qed.

Lemma keptPath_stable (path : option (list string)) (ids : list string) :
  (2 <= length ids)%nat ->
  keptPath (Some (default ids (keptPath path)))
  = Some (default ids (keptPath path)).
Proof.
  intros Hd. unfold keptPath at 1.
  assert (H : (2 <= length (default ids (keptPath path)))%nat).
  { unfold keptPath. destruct path as [p|]; [|exact Hd].
    destruct (2 <=? length p)%nat eqn:E; [|exact Hd].
    apply Nat.leb_le in E. exact E. }
  apply Nat.leb_le in H. rewrite H. reflexivity.
Qed.

Lemma fixRooms_idempotent (rooms : list GridRoom.t) :
  fixRoom <$> (fixRoom <$> rooms) = fixRoom <$> rooms.
Proof.
  rewrite <- list_fmap_compose. apply list_fmap_ext.
  intros i room _. apply fixRoom_idempotent.
Qed.

(** C4: the repair is idempotent: for every raw layout with at least two
    rooms the repair succeeds, and repairing its result again succeeds and
    returns that same result (rooms, corridors, points of interest, critical
    path and grid configuration alike). *)
Theorem repair_idempotent (layout : LevelLayout.t)
    (level : GridLevelData.t) (rawRooms : list GridRoom.t) :
  LevelLayout.level layout = Some level ->
  GridLevelData.rooms level = Some rawRooms ->
  (2 <= length rawRooms)%nat ->
  exists repaired,
    validateAndFixLayout layout = inr repaired /\
    validateAndFixLayout repaired = inr repaired.
Proof.
  intros Hlevel Hrooms Hlen.
  destruct (validateAndFixLayout_ok layout level rawRooms Hlevel Hrooms Hlen)
    as (defaults & Hdef & Hfix).
  cbv zeta in Hdef, Hfix.
  eexists. split; [exact Hfix|].
  set (rooms := fixRoom <$> rawRooms) in *.
  assert (Hlen' : (2 <= length rooms)%nat)
    by (unfold rooms; rewrite length_fmap; exact Hlen).
  match goal with |- validateAndFixLayout ?l = _ =>
    destruct (validateAndFixLayout_ok l _ rooms eq_refl eq_refl Hlen')
      as (defaults' & Hdef' & Hfix')
  end.
  cbv zeta in Hdef', Hfix'. rewrite Hfix'. clear Hfix Hfix'.
  cbn [GridLevelData.name GridLevelData.type GridLevelData.theme
       GridLevelData.grid GridLevelData.rooms GridLevelData.corridors
       GridLevelData.pois GridLevelData.criticalPath default from_option].
  unfold id.
  unfold rooms in Hdef' |- *. rewrite fixRooms_idempotent in Hdef' |- *.
  fold rooms in Hdef' |- *.
  assert (defaults' = defaults) as -> by congruence.
  rewrite (fixCorridors_idempotent _ _ (buildRoomsMap_keyed rooms)).
  assert (Hkept : keptPOIs (Some defaults) = Some defaults).
  { assert (Hne : rooms <> []) by (destruct rooms; [simpl in Hlen'; lia | discriminate]).
    destruct (generateDefaultPOIs_ok rooms Hne) as (e & g & _ & _ & Hd).
    rewrite Hd in Hdef. injection Hdef as <-. reflexivity. }
  rewrite (keptPOIs_stable _ _ Hkept).
  rewrite keptPath_stable by (rewrite length_fmap; exact Hlen').
  reflexivity.
Qed.

Lemma repair_idempotent_witness :
  exists repaired,
    validateAndFixLayout Examples.rawLayout = inr repaired /\
    validateAndFixLayout repaired = inr repaired.
Proof.
  apply (repair_idempotent Examples.rawLayout Examples.rawLevel _
           eq_refl eq_refl).
  simpl. lia.
Defined.

(** *** Points of interest after the repair *)

Lemma hasType_count (ty : POIType) (pois : list GridPOI.t) :
  hasType ty pois = true -> (1 <= countType ty pois)%nat.
Proof.
  unfold hasType, countType. induction pois as [|p ps IH]; [discriminate|].
  cbn [existsb List.filter].
  destruct (bool_decide (GridPOI.type p = ty)); cbn [orb length]; [lia | exact IH].
Qed.

(** C5 (amended): after the repair of a raw layout with at least two rooms
    the list of points of interest holds at least one spawn and at least one
    goal.  A raw list with two entries or more, a spawn and a goal among
    them, is kept as it is, duplicates included; any other (missing, shorter,
    or lacking a spawn or a goal) is replaced by exactly one spawn, in the
    first room tagged entry or else the first room, and exactly one goal, in
    the first room tagged goal or else the last room. *)
Theorem repair_pois (layout : LevelLayout.t)
    (level : GridLevelData.t) (rawRooms : list GridRoom.t) :
  LevelLayout.level layout = Some level ->
  GridLevelData.rooms level = Some rawRooms ->
  (2 <= length rawRooms)%nat ->
  exists repaired level' rooms pois,
    validateAndFixLayout layout = inr repaired /\
    LevelLayout.level repaired = Some level' /\
    GridLevelData.rooms level' = Some rooms /\
    GridLevelData.pois level' = Some pois /\
    (1 <= countType spawn pois)%nat /\
    (1 <= countType goal pois)%nat /\
    (forall kept, keptPOIs (GridLevelData.pois level) = Some kept ->
       pois = kept) /\
    (keptPOIs (GridLevelData.pois level) = None ->
       exists entryRoom goalRoom,
         pickRoom "entry" rooms (head rooms) = Some entryRoom /\
         pickRoom "goal" rooms (last rooms) = Some goalRoom /\
         pois = [ mkPOI "poi_spawn" spawn entryRoom;
                  mkPOI "poi_goal" goal goalRoom ] /\
         countType spawn pois = 1%nat /\ countType goal pois = 1%nat).
Proof.
  intros Hlevel Hrooms Hlen.
  destruct (validateAndFixLayout_ok layout level rawRooms Hlevel Hrooms Hlen)
    as (defaults & Hdef & Hfix).
  cbv zeta in Hdef, Hfix.
  set (rooms := fixRoom <$> rawRooms) in *.
  assert (Hne : rooms <> []).
  { unfold rooms. destruct rawRooms; [simpl in Hlen; lia | discriminate]. }
  destruct (generateDefaultPOIs_ok rooms Hne) as (e & g & He & Hg & Hd).
  rewrite Hd in Hdef. injection Hdef as <-.
  do 4 eexists.
  split; [exact Hfix|]. split; [reflexivity|]. split; [reflexivity|].
  split; [reflexivity|].
  destruct (keptPOIs (GridLevelData.pois level)) as [kept|] eqn:Hk;
    cbn [default from_option]; unfold id.
  - assert (Hs : hasType spawn kept = true /\ hasType goal kept = true).
    { unfold keptPOIs in Hk. destruct (GridLevelData.pois level) as [ps|];
        [|discriminate].
      destruct (2 <=? length ps)%nat, (hasType spawn ps) eqn:E1,
        (hasType goal ps) eqn:E2; try discriminate.
      injection Hk as <-. split; assumption. }
    destruct Hs as [Hs Hg'].
    split; [apply hasType_count, Hs|]. split; [apply hasType_count, Hg'|].
    split; [intros k [= <-]; reflexivity | discriminate].
  - split; [reflexivity|]. split; [reflexivity|].
    split; [discriminate|]. intros _. exists e, g.
    repeat split; assumption.
Qed.

Lemma repair_pois_witness :
  exists repaired level' rooms pois,
    validateAndFixLayout Examples.rawLayout = inr repaired /\
    LevelLayout.level repaired = Some level' /\
    GridLevelData.rooms level' = Some rooms /\
    GridLevelData.pois level' = Some pois /\
    (1 <= countType spawn pois)%nat /\
    (1 <= countType goal pois)%nat /\
    (forall kept, keptPOIs (GridLevelData.pois Examples.rawLevel) = Some kept ->
       pois = kept) /\
    (keptPOIs (GridLevelData.pois Examples.rawLevel) = None ->
       exists entryRoom goalRoom,
         pickRoom "entry" rooms (head rooms) = Some entryRoom /\
         pickRoom "goal" rooms (last rooms) = Some goalRoom /\
         pois = [ mkPOI "poi_spawn" spawn entryRoom;
                  mkPOI "poi_goal" goal goalRoom ] /\
         countType spawn pois = 1%nat /\ countType goal pois = 1%nat).
Proof.
  apply (repair_pois Examples.rawLayout Examples.rawLevel _ eq_refl eq_refl).
  simpl. lia.
Defined.

(** Scenario D of the specification: the repair injects one spawn in the
    entry room and one goal in the goal room. *)
Example scenario_D :
  GridLevelData.pois <$> repairedLevel Examples.threeRoomsLayout
  = Some (Some [ Examples.poi "poi_spawn" spawn "R1";
                 Examples.poi "poi_goal" goal "R3" ]).
Proof. vm_compute. reflexivity. Qed.

(** C5 fails as stated: a raw list of three points of interest with two
    spawns and a goal passes the repair unchanged, so the repaired level
    holds two spawns. *)
Lemma two_spawns_survive : ~ ExactlyOneSpawnAndGoal Examples.twoSpawnsLayout.
Proof.
  intros H.
  destruct (validateAndFixLayout Examples.twoSpawnsLayout) as [e|repaired] eqn:E;
    [vm_compute in E; discriminate|].
  vm_compute in E. injection E as <-.
  destruct (H _ _ _ eq_refl eq_refl eq_refl) as [Hs _].
  vm_compute in Hs. discriminate.
Qed.

(** *** Room coercion *)

Lemma round_nearest (x : Q) : NearestTiesUp x (Qfloor (x + (1 # 2))).
Proof.
  unfold NearestTiesUp.
  pose proof (Qfloor_le (x + (1 # 2))) as H1.
  pose proof (Qlt_floor (x + (1 # 2))) as H2.
  rewrite inject_Z_plus in H2. change (inject_Z 1) with 1 in H2.
  split; lra.
Qed.

Lemma fixRoom_coerced (raw : GridRoom.t) : Coerced raw (fixRoom raw).
Proof.
  unfold Coerced, fixRoom. cbn [GridRoom.id GridRoom.name GridRoom.gridX
    GridRoom.gridY GridRoom.width GridRoom.height GridRoom.tags
    GridRoom.material].
  split; [reflexivity|]. split; [reflexivity|].
  split; [eexists; split; [reflexivity | apply round_nearest]|].
  split; [eexists; split; [reflexivity | apply round_nearest]|].
  split; [eexists; split; [apply max2_integer | apply round_nearest]|].
  split; [eexists; split; [apply max2_integer | apply round_nearest]|].
  split; [destruct (GridRoom.tags raw); reflexivity | reflexivity].
Qed.

(** [Math.round] and rounding half away from zero differ only on the
    negative numbers that lie halfway between two integers. *)
Lemma round_agrees_with_half_away (x : Q) :
  0 <= x \/ ~ (x + (1 # 2) == inject_Z (Qfloor (x + (1 # 2)))) ->
  Math.round x = inject_Z (roundHalfAwayFromZero x).
Proof.
  intros H. unfold Math.round, roundHalfAwayFromZero. f_equal.
  destruct (Qle_bool 0 x) eqn:E; [reflexivity|].
  destruct H as [H|H]; [apply Qle_bool_iff in H; congruence|].
  pose proof (Qfloor_le (x + (1 # 2))) as H1.
  pose proof (Qlt_floor (x + (1 # 2))) as H2.
  rewrite inject_Z_plus in H2. change (inject_Z 1) with 1 in H2.
  set (n := Qfloor (x + (1 # 2))) in *.
  assert (Hlt : inject_Z n < x + (1 # 2)).
  { destruct (Qlt_le_dec (inject_Z n) (x + (1 # 2))) as [Hl|Hg]; [exact Hl|].
    exfalso. apply H. lra. }
  unfold Qceiling. symmetry.
  assert (Hf : Qfloor (- (x - (1 # 2))) = (- n)%Z).
  { apply Qfloor_unique; rewrite inject_Z_opp; lra. }
  rewrite Hf. lia.
Qed.
(** C6 (amended): the repair of a raw layout with at least two rooms coerces
    every room, in place and in order: gridX and gridY to the nearest integer,
    a value halfway between two integers going to the upper one (so -2.5
    becomes -2), width and height to max(2, round(value)) with the same
    rounding, and a missing tags field to ["mid"]. *)
Theorem repair_coerces_rooms (layout : LevelLayout.t)
    (level : GridLevelData.t) (rawRooms : list GridRoom.t) :
  LevelLayout.level layout = Some level ->
  GridLevelData.rooms level = Some rawRooms ->
  (2 <= length rawRooms)%nat ->
  exists repaired level' rooms,
    validateAndFixLayout layout = inr repaired /\
    LevelLayout.level repaired = Some level' /\
    GridLevelData.rooms level' = Some rooms /\
    Forall2 Coerced rawRooms rooms.
Proof.
  intros Hlevel Hrooms Hlen.
  destruct (validateAndFixLayout_ok layout level rawRooms Hlevel Hrooms Hlen)
    as (defaults & _ & Hfix).
  cbv zeta in Hfix.
  do 3 eexists. split; [exact Hfix|]. split; [reflexivity|].
  split; [reflexivity|].
  clear. induction rawRooms as [|r rs IH]; constructor.
  - apply fixRoom_coerced.
  - exact IH.
Qed.

Lemma repair_coerces_rooms_witness :
  exists repaired level' rooms,
    validateAndFixLayout Examples.rawLayout = inr repaired /\
    LevelLayout.level repaired = Some level' /\
    GridLevelData.rooms level' = Some rooms /\
    Forall2 Coerced
      (default [] (GridLevelData.rooms Examples.rawLevel)) rooms.
Proof.
  apply (repair_coerces_rooms Examples.rawLayout Examples.rawLevel _
           eq_refl eq_refl).
  simpl. lia.
Defined.

(** C6 fails as stated: a room at gridX = -2.5 is moved to gridX = -2, where
    rounding half away from zero gives -3. *)
Lemma negative_half_rounds_up : ~ RoundsHalfAwayFromZero Examples.rawLayout.
Proof.
  intros H.
  destruct (validateAndFixLayout Examples.rawLayout) as [e|repaired] eqn:E;
    [vm_compute in E; discriminate|].
  vm_compute in E. injection E as <-.
  destruct (H _ _ _ _ _ 0%nat _ _ eq_refl eq_refl eq_refl eq_refl eq_refl
              eq_refl eq_refl) as [Hx _].
  vm_compute in Hx. discriminate.
Qed.


End Repair.


(** * Markers of the points of interest *)

Module Markers.
Import AssemblyService.

(** *** POI markers *)

(** C10: a point of interest whose room id is the id of no room still gets
    its marker, at the same place in the list: at the world origin
    [0, 0.1, 0], with the colour of its type and its type name capitalised;
    the list of markers is as long as the list of points of interest. *)
Theorem poi_without_room_marked_at_origin (pois : list GridPOI.t)
    (rooms : list GridRoom.t) (i : nat) (poi : GridPOI.t) :
  pois !! i = Some poi ->
  (forall room, In room rooms -> GridRoom.id room <> GridPOI.roomId poi) ->
  buildGridPOIs pois rooms !! i = Some
    {| GeometryPOI.id := GridPOI.id poi;
       GeometryPOI.type := GridPOI.type poi;
       GeometryPOI.position := (0, 1 # 10, 0);
       GeometryPOI.color :=
         match GridPOI.type poi with
         | spawn => "#00ff00"
         | goal => "#ff0000"
         | treasure => "#ffd700"
         | checkpoint => "#00bfff"
         end;
       GeometryPOI.label :=
         match GridPOI.type poi with
         | spawn => "Spawn"
         | goal => "Goal"
         | treasure => "Treasure"
         | checkpoint => "Checkpoint"
         end;
       GeometryPOI.roomId := GridPOI.roomId poi |} /\
  length (buildGridPOIs pois rooms) = length pois.
Proof.
  intros Hi Hno. unfold buildGridPOIs. split; [|apply length_fmap].
  rewrite list_lookup_fmap, Hi. cbn [fmap option_fmap option_map].
  assert (Hfind : List.find
            (fun r => bool_decide (GridRoom.id r = GridPOI.roomId poi)) rooms
          = None).
  { apply find_none_iff. intros room Hin. apply bool_decide_eq_false.
    apply Hno, Hin. }
  rewrite Hfind. destruct (GridPOI.type poi); reflexivity.
Qed.

Lemma poi_without_room_marked_at_origin_witness :
  buildGridPOIs
    [ Examples.poi "poi_spawn" spawn "R1"; Examples.poi "poi_gold" treasure "R7" ]
    [ Examples.R1; Examples.R2 ] !! 1%nat
  = Some
      {| GeometryPOI.id := "poi_gold";
         GeometryPOI.type := treasure;
         GeometryPOI.position := (0, 1 # 10, 0);
         GeometryPOI.color := "#ffd700";
         GeometryPOI.label := "Treasure";
         GeometryPOI.roomId := "R7" |} /\
  length (buildGridPOIs
    [ Examples.poi "poi_spawn" spawn "R1"; Examples.poi "poi_gold" treasure "R7" ]
    [ Examples.R1; Examples.R2 ]) = 2%nat.
Proof.
  apply (poi_without_room_marked_at_origin
           [ Examples.poi "poi_spawn" spawn "R1";
             Examples.poi "poi_gold" treasure "R7" ]
           [ Examples.R1; Examples.R2 ] 1
           (Examples.poi "poi_gold" treasure "R7") eq_refl).
  intros room [<-|[<-|[]]]; discriminate.
Defined.

End Markers.


(** * Object placement *)

Module Placement.
Import AssemblyService PlacementSpec.

Section Loop.

Variable rooms : list GridRoom.t.
Variables spawnPOI goalPOI : option GridPOI.t.
Variable roomsMap : gmap string GridRoom.t.
Variable context : GameContext.t.

Lemma placeAsset_skipped st asset :
  usable asset = false ->
  placeAsset rooms spawnPOI goalPOI roomsMap context st asset = st.
Proof.
  unfold usable, placeAsset. destruct st as [objects counts].
  intros H. apply andb_false_iff in H as [H|H].
  - rewrite H. reflexivity.
  - apply negb_false_iff in H. rewrite H, orb_true_r. reflexivity.
Qed.

Lemma placeAsset_pushes objects counts asset :
  usable asset = true ->
  exists object counts',
    placeAsset rooms spawnPOI goalPOI roomsMap context (objects, counts) asset
      = (objects ++ [object], counts') /\
    SceneObject.reference_id object = GeneratedAsset.id asset.
Proof.
  unfold usable, placeAsset. intros H.
  apply andb_true_iff in H as [H1 H2]. apply negb_true_iff in H2.
  rewrite H1, H2. cbn [negb orb].
  do 2 eexists. split; reflexivity.
Qed.

Lemma placeAsset_unresolved objects counts asset :
  usable asset = true -> Unresolved rooms context asset ->
  placeAsset rooms spawnPOI goalPOI roomsMap context (objects, counts) asset
  = (objects ++ [objectAtOrigin asset], counts).
Proof.
  unfold usable, placeAsset. intros H Hun.
  apply andb_true_iff in H as [H1 H2]. apply negb_true_iff in H2.
  rewrite H1, H2. cbn [negb orb].
  destruct Hun as [(Hc & props & prop & Hp & Hf & Hno)
                  |(character & Hc & Hrole & Hno)].
  - rewrite Hc, Hp. cbn [mbind option_bind]. rewrite Hf.
    unfold placeProp.
    rewrite (proj2 (find_none_iff _ rooms) Hno). reflexivity.
  - rewrite Hc. unfold placeCharacter. rewrite Hrole.
    rewrite (proj2 (find_none_iff _ rooms) Hno).
    destruct spawnPOI, goalPOI; reflexivity.
Qed.

Lemma loop_keeps assets : forall st object,
  In object st.1 ->
  In object
    (foldl (placeAsset rooms spawnPOI goalPOI roomsMap context) st assets).1.
Proof.
  induction assets as [|a assets IH]; intros [objects counts] object Hin;
    [exact Hin|].
  cbn [foldl]. apply IH.
  destruct (usable a) eqn:Hu.
  - destruct (placeAsset_pushes objects counts a Hu) as (o & c & -> & _).
    cbn [fst]. apply in_or_app. left. exact Hin.
  - rewrite placeAsset_skipped by exact Hu. exact Hin.
Qed.

Lemma loop_places_unresolved assets asset :
  In asset assets -> usable asset = true ->
  Unresolved rooms context asset ->
  forall st,
    In (objectAtOrigin asset)
      (foldl (placeAsset rooms spawnPOI goalPOI roomsMap context) st assets).1.
Proof.
  intros Hin Hu Hun.
  induction assets as [|a assets IH]; [destruct Hin|].
  intros [objects counts]. cbn [foldl]. destruct Hin as [->|Hin].
  - rewrite placeAsset_unresolved by assumption.
    apply loop_keeps. cbn [fst]. apply in_or_app. right. left. reflexivity.
  - apply IH. exact Hin.
Qed.

Lemma loop_references assets : forall st,
  SceneObject.reference_id <$>
    (foldl (placeAsset rooms spawnPOI goalPOI roomsMap context) st assets).1
  = (SceneObject.reference_id <$> st.1)
    ++ (GeneratedAsset.id <$> List.filter usable assets).
Proof.
  induction assets as [|a assets IH]; intros [objects counts].
  - cbn [foldl List.filter fmap list_fmap]. rewrite app_nil_r. reflexivity.
  - cbn [foldl List.filter]. rewrite IH. destruct (usable a) eqn:Hu.
    + destruct (placeAsset_pushes objects counts a Hu) as (o & c & -> & Hr).
      cbn [fst]. rewrite fmap_app, <- app_assoc. cbn [fmap list_fmap app].
      rewrite Hr. reflexivity.
    + rewrite placeAsset_skipped by exact Hu. reflexivity.
Qed.

End Loop.

(** C7 (amended): the placement never skips a ready asset with a path: the
    returned list holds one object per such asset, in order.  An asset whose
    target resolves to no room (a prop whose placement tag no room carries,
    or a secondary character when no room is tagged mid) is placed at the
    world origin [0, 0, 0] with the default prop scale [2, 2, 2] and no
    point of interest; no error is raised. *)
Theorem unresolved_objects_placed_at_origin (level : GridLevelData.t)
    (rooms : list GridRoom.t) (pois : list GridPOI.t)
    (assets : list GeneratedAsset.t) (context : GameContext.t) :
  GridLevelData.rooms level = Some rooms ->
  GridLevelData.pois level = Some pois ->
  exists objects,
    positionGridObjects level assets context = inr objects /\
    SceneObject.reference_id <$> objects
      = GeneratedAsset.id <$> List.filter usable assets /\
    forall asset,
      In asset assets -> usable asset = true ->
      Unresolved rooms context asset ->
      In (objectAtOrigin asset) objects.
Proof.
  intros Hrooms Hpois. unfold positionGridObjects. rewrite Hrooms, Hpois.
  eexists. split; [reflexivity|]. split.
  - rewrite loop_references. reflexivity.
  - intros asset Hin Hu Hun. apply loop_places_unresolved; assumption.
Qed.

Lemma unresolved_objects_placed_at_origin_witness :
  exists objects,
    positionGridObjects AssemblyExamples.level
      [AssemblyExamples.barrel; AssemblyExamples.guard]
      AssemblyExamples.context = inr objects /\
    SceneObject.reference_id <$> objects
      = GeneratedAsset.id <$>
          List.filter usable [AssemblyExamples.barrel; AssemblyExamples.guard] /\
    forall asset,
      In asset [AssemblyExamples.barrel; AssemblyExamples.guard] ->
      usable asset = true ->
      Unresolved [Examples.R1; Examples.R3] AssemblyExamples.context asset ->
      In (objectAtOrigin asset) objects.
Proof.
  apply (unresolved_objects_placed_at_origin AssemblyExamples.level
           [Examples.R1; Examples.R3] _ _ _ eq_refl eq_refl).
Defined.

Lemma barrel_unresolved :
  Unresolved [Examples.R1; Examples.R3] AssemblyExamples.context
    AssemblyExamples.barrel.
Proof.
  left. split; [reflexivity|]. do 2 eexists.
  split; [reflexivity|]. split; [reflexivity|].
  intros room [<-|[<-|[]]]; reflexivity.
Qed.

(** C7 fails as stated: a ready barrel whose placement tag "secret" is
    carried by no room is not skipped; the returned list holds its object. *)
Lemma unresolved_prop_not_skipped :
  ~ SkipsUnresolved AssemblyExamples.level [AssemblyExamples.barrel]
      AssemblyExamples.context.
Proof.
  intros H.
  apply (H [Examples.R1; Examples.R3]
           [objectAtOrigin AssemblyExamples.barrel] AssemblyExamples.barrel
           eq_refl eq_refl (or_introl eq_refl) eq_refl barrel_unresolved
           (objectAtOrigin AssemblyExamples.barrel) (or_introl eq_refl)).
  reflexivity.
Qed.

End Placement.


(** * Camera framing *)

Module Camera.
Import AssemblyService CameraSpec.

Lemma levelBounds_snoc (rooms : list GridRoom.t) (room : GridRoom.t) :
  levelBounds (rooms ++ [room]) = growBounds (levelBounds rooms) room.
Proof. unfold levelBounds. rewrite foldl_app. reflexivity. Qed.

Lemma levelBounds_box (rooms : list GridRoom.t) :
  rooms <> [] ->
  exists minX maxX minZ maxZ,
    levelBounds rooms = (xFin minX, xFin maxX, xFin minZ, xFin maxZ) /\
    BoundingBox rooms minX maxX minZ maxZ.
Proof.
  induction rooms as [|r rooms IH] using rev_ind; [congruence|]. intros _.
  rewrite levelBounds_snoc. destruct rooms as [|r0 rooms0].
  - exists (worldMinX r), (worldMaxX r), (worldMinZ r), (worldMaxZ r).
    split; [reflexivity|]. unfold BoundingBox. cbn [app].
    split; [|split; [|split; [|split]]];
      try (exists r; split; [left|]; reflexivity).
    intros room [<-|[]]. split; [|split; [|split]]; apply Qle_refl.
  - destruct IH as (a & b & c & d & -> & Hin & Ha & Hb & Hc & Hd);
      [discriminate|].
    set (rooms := r0 :: rooms0) in *.
    unfold growBounds. cbn [xmin xmax]. unfold Math.min, Math.max.
    fold (worldMinX r) (worldMaxX r) (worldMinZ r) (worldMaxZ r).
    do 4 eexists. split; [reflexivity|]. unfold BoundingBox.
    assert (Hr : In r (rooms ++ [r])) by (apply in_or_app; right; left; reflexivity).
    assert (Hl : forall x, In x rooms -> In x (rooms ++ [r]))
      by (intros x Hx; apply in_or_app; left; exact Hx).
    split; [|split; [|split; [|split]]].
    + intros room Hroom. apply in_app_or in Hroom as [Hroom|[<-|[]]].
      * destruct (Hin room Hroom) as (H1 & H2 & H3 & H4).
        pose proof (Q.le_min_l a (worldMinX r)).
        pose proof (Q.le_max_l b (worldMaxX r)).
        pose proof (Q.le_min_l c (worldMinZ r)).
        pose proof (Q.le_max_l d (worldMaxZ r)).
        split; [|split; [|split]]; lra.
      * split; [|split; [|split]];
          [apply Q.le_min_r | apply Q.le_max_r | apply Q.le_min_r | apply Q.le_max_r].
    + destruct (Qmin_cases a (worldMinX r)) as [[-> _]|[-> _]].
      * destruct Ha as (x & Hx & <-). exists x. split; [apply Hl, Hx | reflexivity].
      * exists r. split; [exact Hr | reflexivity].
    + destruct (Qmax_cases b (worldMaxX r)) as [[-> _]|[-> _]].
      * exists r. split; [exact Hr | reflexivity].
      * destruct Hb as (x & Hx & <-). exists x. split; [apply Hl, Hx | reflexivity].
    + destruct (Qmin_cases c (worldMinZ r)) as [[-> _]|[-> _]].
      * destruct Hc as (x & Hx & <-). exists x. split; [apply Hl, Hx | reflexivity].
      * exists r. split; [exact Hr | reflexivity].
    + destruct (Qmax_cases d (worldMaxZ r)) as [[-> _]|[-> _]].
      * exists r. split; [exact Hr | reflexivity].
      * destruct Hd as (x & Hx & <-). exists x. split; [apply Hl, Hx | reflexivity].
Qed.

(** C8 (amended): for a level with at least one room the camera looks at,
    and orbits around, the centre of the axis-aligned bounding box of the
    room world rectangles.  The camera height is max(30, 0.8 * max(boxWidth,
    boxDepth)).  The camera distance is max(40, boxDepth): it follows the
    depth of the box alone, not its width; the camera stands half that
    distance behind the box and the orbit limit is twice that distance. *)
Theorem camera_frames_bounding_box (level : GridLevelData.t)
    (rooms : list GridRoom.t) :
  GridLevelData.rooms level = Some rooms ->
  rooms <> [] ->
  exists minX maxX minZ maxZ,
    BoundingBox rooms minX maxX minZ maxZ /\
    let centerX := (minX + maxX) / 2 in
    let centerZ := (minZ + maxZ) / 2 in
    let boxWidth := maxX - minX in
    let boxDepth := maxZ - minZ in
    let cameraHeight := Qmax 30 (Qmax boxWidth boxDepth * (8 # 10)) in
    let cameraDistance := Qmax 40 boxDepth in
    configureGridCamera level = inr
      {| CameraConfig.default_position :=
           (xFin centerX, xFin cameraHeight,
            xFin (maxZ + cameraDistance * (5 # 10)));
         CameraConfig.default_look_at := (xFin centerX, xFin 0, xFin centerZ);
         CameraConfig.default_fov := 60;
         CameraConfig.orbit_target := (xFin centerX, xFin 0, xFin centerZ);
         CameraConfig.min_distance := 10;
         CameraConfig.max_distance := xFin (cameraDistance * 2) |}.
Proof.
  intros Hrooms Hne.
  destruct (levelBounds_box rooms Hne) as (a & b & c & d & Hb & Hbox).
  exists a, b, c, d. split; [exact Hbox|].
  unfold configureGridCamera. rewrite Hrooms. cbn [get mbind result_bind mret result_ret].
  rewrite Hb. reflexivity.
Qed.

Lemma camera_frames_bounding_box_witness :
  exists minX maxX minZ maxZ,
    BoundingBox [Examples.R1; Examples.R3] minX maxX minZ maxZ /\
    let centerX := (minX + maxX) / 2 in
    let centerZ := (minZ + maxZ) / 2 in
    let boxWidth := maxX - minX in
    let boxDepth := maxZ - minZ in
    let cameraHeight := Qmax 30 (Qmax boxWidth boxDepth * (8 # 10)) in
    let cameraDistance := Qmax 40 boxDepth in
    configureGridCamera AssemblyExamples.level = inr
      {| CameraConfig.default_position :=
           (xFin centerX, xFin cameraHeight,
            xFin (maxZ + cameraDistance * (5 # 10)));
         CameraConfig.default_look_at := (xFin centerX, xFin 0, xFin centerZ);
         CameraConfig.default_fov := 60;
         CameraConfig.orbit_target := (xFin centerX, xFin 0, xFin centerZ);
         CameraConfig.min_distance := 10;
         CameraConfig.max_distance := xFin (cameraDistance * 2) |}.
Proof.
  apply (camera_frames_bounding_box AssemblyExamples.level
           [Examples.R1; Examples.R3] eq_refl).
  discriminate.
Defined.

(** C8 fails as stated: a level 100 cells wide and 2 deep and a level 2 cells
    wide and 100 deep have the same larger extent, 400 m, but camera distances
    40 and 400 (orbit limits 80 and 800). *)
Lemma camera_distance_ignores_width :
  ~ DistanceSetByLargerExtent AssemblyExamples.wideLevel
      AssemblyExamples.deepLevel.
Proof.
  intros H.
  assert (Hq : Qmax 400 8 == Qmax 8 400) by (vm_compute; reflexivity).
  pose proof (H _ _ 400 8 8 400 _ _ eq_refl eq_refl eq_refl eq_refl Hq
                eq_refl eq_refl) as H'.
  vm_compute in H'. discriminate.
Qed.

End Camera.


(** * Wall carving *)

Module Walls.
Import AssemblyService WallSpec.

Lemma span_mkWall axis id (start end_ : Vec3) color (a b : Q) :
  span axis (mkWall id (withAxisCoord axis start a) (withAxisCoord axis end_ b)
               color) = (a, b).
Proof. destruct axis; reflexivity. Qed.

(** The loop pushes walls whose spans are those of [carveSpans]. *)
Lemma carve_loop (start end_ : Vec3) (axis : Axis)
    (color : option string) (openings : list Opening.t) :
  forall walls currentPos id,
  exists new,
    foldl (carveStep start end_ axis color) (walls, currentPos, id) openings
    = (walls ++ new, (carveSpans currentPos openings).2,
       (id + length new)%nat) /\
    span axis <$> new = (carveSpans currentPos openings).1.
Proof.
  induction openings as [|o rest IH]; intros walls cur id.
  - exists []. cbn [foldl carveSpans fst snd length fmap list_fmap].
    rewrite app_nil_r, Nat.add_0_r. split; reflexivity.
  - cbn [foldl carveSpans]. unfold carveStep at 2.
    destruct (carveSpans (Math.max cur (openingEnd o)) rest) as [spans final] eqn:E.
    destruct (ltb cur (openingStart o)).
    + destruct (IH (walls ++ [mkWall id (withAxisCoord axis start cur)
                 (withAxisCoord axis end_ (openingStart o)) color])
                 (Math.max cur (openingEnd o)) (S id)) as (new & -> & Hs).
      rewrite E in Hs |- *. cbn [fst snd] in Hs |- *.
      eexists (_ :: new). rewrite <- app_assoc. cbn [app length].
      rewrite Nat.add_succ_r. split; [reflexivity|].
      rewrite fmap_cons, Hs, span_mkWall. reflexivity.
    + destruct (IH walls (Math.max cur (openingEnd o)) id) as (new & -> & Hs).
      rewrite E in Hs |- *. cbn [fst snd] in Hs |- *.
      exists new. split; [reflexivity | exact Hs].
Qed.

(** What [createWallWithOpenings] pushes, in terms of spans. *)
Lemma createWall_spans walls startId (start end_ : Vec3) axis openings color :
  openings <> [] ->
  let sorted := sortOpenings openings in
  let wallEnd := axisCoord axis end_ in
  let '(spans, final) := carveSpans (axisCoord axis start) sorted in
  exists new,
    createWallWithOpenings walls startId start end_ axis openings color
      = walls ++ new /\
    span axis <$> new
      = spans ++ (if ltb final wallEnd then [(final, wallEnd)] else []).
Proof.
  intros Hne sorted wallEnd.
  destruct (carveSpans (axisCoord axis start) sorted) as [spans final] eqn:E.
  unfold createWallWithOpenings. destruct openings as [|o0 os]; [congruence|].
  fold sorted. fold wallEnd.
  destruct (carve_loop start end_ axis color sorted walls
              (axisCoord axis start) startId) as (new & -> & Hs).
  rewrite E in Hs |- *. cbn [fst snd] in Hs |- *.
  destruct (ltb final wallEnd).
  - eexists (new ++ [_]). rewrite app_assoc. split; [reflexivity|].
    rewrite fmap_app, Hs. cbn [fmap list_fmap]. rewrite span_mkWall.
    reflexivity.
  - exists new. rewrite app_nil_r. split; [reflexivity | exact Hs].
Qed.

Lemma insertOpening_Forall (P : Opening.t -> Prop) o l :
  P o -> Forall P l -> Forall P (insertOpening o l).
Proof.
  intros Ho Hl. induction Hl as [|x l Hx Hl IH]; cbn [insertOpening].
  - constructor; [exact Ho | constructor].
  - destruct (leb (Opening.position o) (Opening.position x)).
    + constructor; [exact Ho|]. constructor; assumption.
    + constructor; assumption.
Qed.

Lemma sortOpenings_Forall (P : Opening.t -> Prop) l :
  Forall P l -> Forall P (sortOpenings l).
Proof.
  intros Hl. induction Hl as [|x l Hx Hl IH]; [constructor|].
  cbn [sortOpenings foldr]. apply insertOpening_Forall; assumption.
Qed.

Lemma sortOpenings_nonempty l : l <> [] -> sortOpenings l <> [].
Proof.
  destruct l as [|x l]; [congruence|]. intros _.
  cbn [sortOpenings foldr]. destruct (foldr insertOpening [] l) as [|y r];
    cbn [insertOpening]; [discriminate|].
  destruct (leb (Opening.position x) (Opening.position y)); discriminate.
Qed.

Lemma Qmax_ge_l (x y : Q) : x <= Qmax x y.
Proof. apply Q.le_max_l. Qed.

Lemma Qmax_ge_r (x y : Q) : y <= Qmax x y.
Proof. apply Q.le_max_r. Qed.

Lemma openingStart_le_End o :
  0 <= Opening.width o -> openingStart o <= openingEnd o.
Proof. unfold openingStart, openingEnd. intros H. qlra. Qed.

(** The spans of the loop: each of positive length, between the cursor at
    the start and the cursor at the end, in increasing order. *)
Lemma carveSpans_increasing (openings : list Opening.t) :
  Forall (fun o => 0 <= Opening.width o) openings ->
  forall currentPos,
    let '(spans, final) := carveSpans currentPos openings in
    currentPos <= final /\
    Forall (fun s => currentPos <= s.1 /\ s.1 < s.2 /\ s.2 <= final) spans /\
    Increasing spans.
Proof.
  intros Hw. induction Hw as [|o rest Ho Hrest IH]; intros cur.
  - cbn [carveSpans]. split; [apply Qle_refl|]. split; constructor.
  - cbn [carveSpans]. specialize (IH (Math.max cur (openingEnd o))).
    destruct (carveSpans (Math.max cur (openingEnd o)) rest) as [spans final].
    destruct IH as (Hfinal & Hspans & Hinc).
    pose proof (Qmax_ge_l cur (openingEnd o)) as Hl.
    pose proof (Qmax_ge_r cur (openingEnd o)) as Hr.
    pose proof (openingStart_le_End o Ho) as Hse.
    unfold Math.max in *.
    assert (Hspans' :
      Forall (fun s => cur <= s.1 /\ s.1 < s.2 /\ s.2 <= final) spans).
    { eapply Forall_impl; [exact Hspans|]. cbv beta. intros s (H1 & H2 & H3).
      repeat split; try assumption. lra. }
    split; [lra|].
    destruct (ltb cur (openingStart o)) eqn:Hlt.
    + apply ltb_true in Hlt. split.
      * constructor; [|exact Hspans']. cbn [fst snd]. repeat split; lra.
      * constructor; [|exact Hinc].
        eapply Forall_impl; [exact Hspans|]. cbv beta. cbn [fst snd].
        intros s (H1 & _ & _). split; lra.
    + split; assumption.
Qed.

(** C9 (amended): on a side of positive length, and for openings of
    non-negative width in any order, overlapping or not, every wall span the
    carving pushes has strictly positive length, and the spans are pairwise
    disjoint and come in strictly increasing order along the wall: each
    begins before the next ones and ends no later than they begin. *)
Theorem carved_spans_positive_and_increasing
    (walls : list GeometryWall.t) (startId : nat) (start end_ : Vec3)
    (axis : Axis) (openings : list Opening.t) (color : option string) :
  axisCoord axis start < axisCoord axis end_ ->
  Forall (fun o => 0 <= Opening.width o) openings ->
  exists new,
    createWallWithOpenings walls startId start end_ axis openings color
      = walls ++ new /\
    Forall (fun wall => (span axis wall).1 < (span axis wall).2) new /\
    Increasing (span axis <$> new).
Proof.
  intros Hwall Hw. destruct openings as [|o0 os] eqn:Hops.
  - exists [mkWall startId start end_ color]. split; [reflexivity|]. split.
    + constructor; [exact Hwall | constructor].
    + constructor; constructor.
  - rewrite <- Hops in *. assert (Hne : openings <> []) by (rewrite Hops; discriminate).
    pose proof (createWall_spans walls startId start end_ axis openings color Hne)
      as Hc. cbv zeta in Hc.
    pose proof (carveSpans_increasing _ (sortOpenings_Forall _ _ Hw)
                  (axisCoord axis start)) as Hi.
    destruct (carveSpans (axisCoord axis start) (sortOpenings openings))
      as [spans final].
    destruct Hc as (new & Hcreate & Hspan).
    destruct Hi as (Hfinal & Hspans & Hinc).
    exists new. split; [exact Hcreate|].
    assert (Hall : Forall (fun s : Q * Q => s.1 < s.2) (span axis <$> new) /\
                   Increasing (span axis <$> new)).
    { rewrite Hspan. destruct (ltb final (axisCoord axis end_)) eqn:Hlt.
      - apply ltb_true in Hlt. split.
        + apply Forall_app. split.
          * eapply Forall_impl; [exact Hspans|]. cbv beta. tauto.
          * constructor; [exact Hlt | constructor].
        + clear -Hspans Hinc. induction Hinc as [|s l Hs Hl IH].
          * constructor; constructor.
          * cbn [app]. apply Forall_cons in Hspans as [Hs0 Hspans].
            constructor; [|apply IH; exact Hspans].
            apply Forall_app. split; [exact Hs|].
            constructor; [|constructor]. cbn [fst snd]. split; [lra|tauto].
      - rewrite app_nil_r. split; [|exact Hinc].
        eapply Forall_impl; [exact Hspans|]. cbv beta. tauto. }
    destruct Hall as [Hpos Hinc']. split; [|exact Hinc'].
    apply Forall_fmap in Hpos. exact Hpos.
Qed.

Lemma carved_spans_positive_and_increasing_witness :
  exists new,
    createWallWithOpenings [] 0 (0, 0, 0) (0, 0, 16) AxisZ
      [ Opening.mk west 10 4; Opening.mk west 3 6; Opening.mk west 4 2 ]
      (Some "#4a4a7a") = [] ++ new /\
    Forall (fun wall => (span AxisZ wall).1 < (span AxisZ wall).2) new /\
    Increasing (span AxisZ <$> new).
Proof.
  apply (carved_spans_positive_and_increasing [] 0 (0, 0, 0) (0, 0, 16) AxisZ).
  - reflexivity.
  - repeat constructor; discriminate.
Defined.

(** The repair keeps the corridor width -1 of [Examples.negativeWidthLayout];
    the corridor opens the south side of room R1 at 8 with the width -4. *)
Lemma negative_width_opening :
  WallExamples.narrowOpenings = [ Opening.mk south 8 (-4) ].
Proof. vm_compute. reflexivity. Qed.

(** C9 fails as stated.  With the opening of width -4 the carving pushes the
    spans [0, 10] and [6, 16], which overlap: the opening runs from 10 back
    to 6, and the cursor after it is 6, before the end of the first span.
    And on a side of no length without opening the one span pushed has no
    length. *)
Lemma negative_width_spans_overlap :
  ~ SpansPositiveAndIncreasing WallExamples.narrowStart WallExamples.narrowEnd
      AxisX WallExamples.narrowOpenings /\
  ~ SpansPositiveAndIncreasing (0, 0, 0) (0, 0, 0) AxisX [].
Proof.
  split; intros H.
  - destruct (H [] 0%nat (Some "#4a7a4a"%string)) as (new & Hnew & _ & Hinc).
    rewrite negative_width_opening in Hnew. vm_compute in Hnew. subst new.
    inversion Hinc as [|a l Ha _]; subst.
    inversion Ha as [|b l' [_ Hab] _]; subst.
    vm_compute in Hab. apply Hab. reflexivity.
  - destruct (H [] 0%nat (Some "#4a7a4a"%string)) as (new & Hnew & Hpos & _).
    vm_compute in Hnew. subst new.
    inversion Hpos as [|w l Hw _]; subst.
    vm_compute in Hw. discriminate.
Qed.

Lemma coverage_app (l1 l2 : list (Q * Q)) (p : Q) :
  coverage (l1 ++ l2) p = (coverage l1 p + coverage l2 p)%nat.
Proof.
  induction l1 as [|iv l1 IH]; [reflexivity|].
  cbn [app coverage]. rewrite IH. lia.
Qed.

(** Case analysis on every comparison of the goal, each case closed by
    linear arithmetic. *)
Ltac compare_cases :=
  repeat match goal with
    | |- context [leb ?a ?b] =>
        let E := fresh "E" in
        destruct (leb a b) eqn:E;
        [apply leb_true in E | apply leb_false in E]
    | |- context [ltb ?a ?b] =>
        let E := fresh "E" in
        destruct (ltb a b) eqn:E;
        [apply ltb_true in E | apply ltb_false in E]
    end;
  cbn [andb coverage app Nat.add]; try reflexivity; exfalso; lra.

Lemma position_within o :
  openingStart o <= openingEnd o ->
  openingStart o <= Opening.position o <= openingEnd o.
Proof. unfold openingStart, openingEnd. intros H. split; qlra. Qed.

Lemma InOrder_positions (openings : list Opening.t) :
  InOrder openings ->
  Forall (fun o => openingStart o <= openingEnd o) openings ->
  ForallOrdPairs (fun a b => Opening.position a <= Opening.position b)
    openings.
Proof.
  intros H. induction H as [|x l Hx Hl IH]; intros Hw; [constructor|].
  apply Forall_cons in Hw as [Hwx Hwl]. constructor; [|apply IH, Hwl].
  pose proof (position_within x Hwx) as Px.
  rewrite Forall_forall in Hx, Hwl |- *. intros y Hy.
  pose proof (position_within y (Hwl y Hy)) as Py.
  specialize (Hx y Hy). lra.
Qed.

(** Two openings apart from each other and met in the order of their
    positions follow each other. *)
Lemma Apart_in_order (a b : Opening.t) :
  openingStart a <= openingEnd a -> openingStart b <= openingEnd b ->
  Apart a b -> Opening.position a <= Opening.position b ->
  openingEnd a <= openingStart b.
Proof.
  unfold Apart, openingStart, openingEnd. intros Ha Hb [H|H] Hp; qlra.
Qed.

(** Inserting an opening apart from the others keeps them in order. *)
Lemma insertOpening_InOrder (o : Opening.t) (l : list Opening.t) :
  openingStart o <= openingEnd o ->
  Forall (fun b => openingStart b <= openingEnd b) l ->
  Forall (Apart o) l ->
  InOrder l -> InOrder (insertOpening o l).
Proof.
  intros Ho Hw Hap Hl. induction Hl as [|y l Hy Hl IH]; cbn [insertOpening].
  - constructor; constructor.
  - apply Forall_cons in Hw as [Hwy Hwl].
    apply Forall_cons in Hap as [Hoy Hol].
    assert (Hpos : Forall (fun t => Opening.position y <= Opening.position t) l).
    { pose proof (position_within y Hwy) as Py.
      rewrite Forall_forall in Hy, Hwl |- *. intros t Ht.
      pose proof (position_within t (Hwl t Ht)) as Pt.
      specialize (Hy t Ht). lra. }
    destruct (leb (Opening.position o) (Opening.position y)) eqn:E;
      [apply leb_true in E | apply leb_false in E].
    + constructor; [|constructor; assumption]. constructor.
      * apply Apart_in_order; assumption.
      * rewrite Forall_forall in Hpos, Hwl, Hol |- *. intros t Ht.
        apply Apart_in_order; [exact Ho | apply Hwl, Ht | apply Hol, Ht|].
        specialize (Hpos t Ht). lra.
    + constructor; [|apply IH; assumption].
      apply insertOpening_Forall; [|exact Hy].
      assert (Hyo : Apart y o) by (destruct Hoy; [right|left]; assumption).
      apply Apart_in_order; [exact Hwy | exact Ho | exact Hyo | lra].
Qed.

(** The sort puts pairwise non-overlapping openings in order. *)
Lemma sortOpenings_InOrder (openings : list Opening.t) :
  Forall (fun b => openingStart b <= openingEnd b) openings ->
  NonOverlapping openings -> InOrder (sortOpenings openings).
Proof.
  intros Hw Hno. induction Hno as [|x l Hx Hl IH]; [constructor|].
  apply Forall_cons in Hw as [Hwx Hwl].
  cbn [sortOpenings foldr]. fold (sortOpenings l).
  apply insertOpening_InOrder.
  - exact Hwx.
  - apply sortOpenings_Forall, Hwl.
  - apply sortOpenings_Forall, Hx.
  - apply IH, Hwl.
Qed.

Lemma insertOpening_length o l :
  length (insertOpening o l) = S (length l).
Proof.
  induction l as [|y l IH]; [reflexivity|]. cbn [insertOpening].
  destruct (leb (Opening.position o) (Opening.position y)); cbn [length];
    [reflexivity | rewrite IH; reflexivity].
Qed.

Lemma sortOpenings_length l : length (sortOpenings l) = length l.
Proof.
  induction l as [|x l IH]; [reflexivity|].
  cbn [sortOpenings foldr]. fold (sortOpenings l).
  rewrite insertOpening_length, IH. reflexivity.
Qed.

Lemma insertOpening_coverage o l p :
  coverage (openingInterval <$> insertOpening o l) p
  = coverage (openingInterval <$> (o :: l)) p.
Proof.
  induction l as [|y l IH]; [reflexivity|]. cbn [insertOpening].
  destruct (leb (Opening.position o) (Opening.position y)); [reflexivity|].
  cbn [fmap list_fmap coverage] in IH |- *. rewrite IH. lia.
Qed.

(** The sort does not change how often a point is covered. *)
Lemma sortOpenings_coverage l p :
  coverage (openingInterval <$> sortOpenings l) p
  = coverage (openingInterval <$> l) p.
Proof.
  induction l as [|x l IH]; [reflexivity|].
  cbn [sortOpenings foldr]. fold (sortOpenings l).
  rewrite insertOpening_coverage. cbn [fmap list_fmap coverage].
  rewrite IH. reflexivity.
Qed.

(** With openings in order, apart, and inside [[currentPos, hi]], the spans
    of the loop and the openings tile the stretch from the cursor at the
    start to the cursor at the end. *)
Lemma carveSpans_tiles (openings : list Opening.t) :
  InOrder openings ->
  forall currentPos hi,
    currentPos <= hi ->
    Forall (fun o => currentPos <= openingStart o /\
                     openingStart o <= openingEnd o /\
                     openingEnd o <= hi) openings ->
    let '(spans, final) := carveSpans currentPos openings in
    currentPos <= final /\ final <= hi /\
    (length spans <= length openings)%nat /\
    Tiles currentPos final (spans ++ (openingInterval <$> openings)).
Proof.
  intros H. induction H as [|o rest Ho Hrest IH]; intros cur hi Hhi Hin.
  - cbn [carveSpans]. split; [apply Qle_refl|]. split; [exact Hhi|].
    split; [reflexivity|]. intros p. unfold covers.
    cbn [fst snd fmap list_fmap]. compare_cases.
  - apply Forall_cons in Hin as [(Hc & Hse & Heh) Hin].
    cbn [carveSpans]. unfold Math.max.
    pose proof (Q.le_max_l cur (openingEnd o)) as Hl.
    pose proof (Q.le_max_r cur (openingEnd o)) as Hr.
    assert (Hm : Qmax cur (openingEnd o) <= openingEnd o)
      by (apply Q.max_lub; lra).
    set (next := Qmax cur (openingEnd o)) in *.
    assert (Hin' : Forall (fun b => next <= openingStart b /\
                     openingStart b <= openingEnd b /\
                     openingEnd b <= hi) rest).
    { rewrite Forall_forall in Ho, Hin |- *. intros b Hb.
      destruct (Hin b Hb) as (_ & H2 & H3). specialize (Ho b Hb).
      repeat split; try assumption. lra. }
    specialize (IH next hi ltac:(lra) Hin').
    destruct (carveSpans next rest) as [spans final].
    destruct IH as (Hnf & Hfh & Hlen & Htiles).
    split; [lra|]. split; [exact Hfh|]. split.
    + destruct (ltb cur (openingStart o)); cbn [length]; lia.
    + intros p. specialize (Htiles p). rewrite coverage_app in Htiles.
      rewrite coverage_app. rewrite fmap_cons. cbn [coverage].
      unfold openingInterval at 1.
      assert (Hsum : (coverage spans p + coverage (openingInterval <$> rest) p
                      = if covers (next, final) p then 1 else 0)%nat)
        by exact Htiles.
      clear Htiles.
      destruct (ltb cur (openingStart o)) eqn:Hemit;
        [apply ltb_true in Hemit | apply ltb_false in Hemit];
        cbn [coverage];
        [ replace ((if covers (cur, openingStart o) p then 1 else 0)
                   + coverage spans p
                   + ((if covers (openingStart o, openingEnd o) p then 1 else 0)
                      + coverage (openingInterval <$> rest) p))%nat
            with ((if covers (cur, openingStart o) p then 1 else 0)
                  + (if covers (openingStart o, openingEnd o) p then 1 else 0)
                  + (coverage spans p
                     + coverage (openingInterval <$> rest) p))%nat by lia
        | replace (coverage spans p
                   + ((if covers (openingStart o, openingEnd o) p then 1 else 0)
                      + coverage (openingInterval <$> rest) p))%nat
            with ((if covers (openingStart o, openingEnd o) p then 1 else 0)
                  + (coverage spans p
                     + coverage (openingInterval <$> rest) p))%nat by lia ];
        rewrite Hsum; unfold covers; cbn [fst snd];
        generalize dependent (openingStart o);
        generalize dependent (openingEnd o); intros; compare_cases.
Qed.

(** C3 (amended): for every side and every list of N openings that have a
    non-negative width (each begins no later than it ends), are pairwise
    non-overlapping, in whatever order, and each lie within the side's
    interval, the carving pushes at most N + 1 wall spans, and those spans
    together with the opening intervals
    [[position - width / 2, position + width / 2]] reconstruct the side's
    interval exactly, nothing covered twice and nothing left out; with no
    opening it pushes one span, the whole side. *)
Theorem carved_spans_tile_side
    (walls : list GeometryWall.t) (startId : nat) (start end_ : Vec3)
    (axis : Axis) (openings : list Opening.t) (color : option string) :
  NonOverlapping openings ->
  Forall (fun o => axisCoord axis start <= openingStart o /\
                   openingStart o <= openingEnd o /\
                   openingEnd o <= axisCoord axis end_) openings ->
  exists new,
    createWallWithOpenings walls startId start end_ axis openings color
      = walls ++ new /\
    (length new <= length openings + 1)%nat /\
    (openings = [] -> new = [mkWall startId start end_ color]) /\
    Tiles (axisCoord axis start) (axisCoord axis end_)
      ((span axis <$> new) ++ (openingInterval <$> openings)).
Proof.
  intros Hno Hin. destruct openings as [|o0 os] eqn:Hops.
  - exists [mkWall startId start end_ color]. split; [reflexivity|].
    split; [cbn [length]; lia|]. split; [reflexivity|].
    intros p. cbn [fmap list_fmap app coverage]. unfold span.
    cbn [GeometryWall.start GeometryWall.end_ mkWall]. lia.
  - rewrite <- Hops in *.
    assert (Hne : openings <> []) by (rewrite Hops; discriminate).
    assert (Hwall : axisCoord axis start <= axisCoord axis end_).
    { rewrite Hops in Hin.
      apply Forall_cons in Hin as [(H1 & H2 & H3) _]. lra. }
    pose proof (createWall_spans walls startId start end_ axis openings
                  color Hne) as Hc. cbv zeta in Hc.
    assert (Hord : InOrder (sortOpenings openings)).
    { apply sortOpenings_InOrder; [|exact Hno].
      eapply Forall_impl; [exact Hin|]. cbv beta. tauto. }
    pose proof (carveSpans_tiles (sortOpenings openings) Hord
                  (axisCoord axis start) (axisCoord axis end_) Hwall
                  (sortOpenings_Forall _ _ Hin)) as Ht.
    destruct (carveSpans (axisCoord axis start) (sortOpenings openings))
      as [spans final].
    destruct Hc as (new & Hcreate & Hspan).
    destruct Ht as (Hsf & Hfe & Hlen & Htiles).
    rewrite sortOpenings_length in Hlen.
    exists new. split; [exact Hcreate|].
    assert (Hlen' : length new = length (span axis <$> new))
      by (rewrite length_fmap; reflexivity).
    split; [|split; [intros ->; congruence|]].
    + rewrite Hlen', Hspan, length_app.
      destruct (ltb final (axisCoord axis end_)); cbn [length]; lia.
    + intros p. specialize (Htiles p).
      rewrite coverage_app, sortOpenings_coverage in Htiles.
      rewrite Hspan, !coverage_app.
      replace (coverage spans p
               + coverage (if ltb final (axisCoord axis end_)
                           then [(final, axisCoord axis end_)] else []) p
               + coverage (openingInterval <$> openings) p)%nat
        with ((coverage spans p + coverage (openingInterval <$> openings) p)
              + coverage (if ltb final (axisCoord axis end_)
                          then [(final, axisCoord axis end_)] else []) p)%nat
        by lia.
      rewrite Htiles. unfold covers. cbn [fst snd].
      destruct (ltb final (axisCoord axis end_)) eqn:Hlast;
        [apply ltb_true in Hlast | apply ltb_false in Hlast];
        cbn [coverage]; unfold covers; cbn [fst snd]; compare_cases.
Qed.

Lemma carved_spans_tile_side_witness :
  exists new,
    createWallWithOpenings [] 0 (0, 0, 0) (14, 0, 0) AxisX
      WallExamples.scenarioC (Some "#4a7a4a") = [] ++ new /\
    (length new <= length WallExamples.scenarioC + 1)%nat /\
    (WallExamples.scenarioC = [] -> new = [mkWall 0 (0, 0, 0) (14, 0, 0) (Some "#4a7a4a")]) /\
    Tiles 0 14
      ((span AxisX <$> new) ++ (openingInterval <$> WallExamples.scenarioC)).
Proof.
  apply (carved_spans_tile_side [] 0 (0, 0, 0) (14, 0, 0) AxisX
           WallExamples.scenarioC (Some "#4a7a4a")).
  - repeat constructor. vm_compute. discriminate.
  - repeat constructor; vm_compute; discriminate.
Defined.

(** The corridor of [WallExamples] opens the south side of the upper room at
    its corner: an opening of width 4 centred on the end of the side. *)
Lemma south_opening_at_corner :
  WallExamples.southOpenings = [ Opening.mk south 0 4 ].
Proof. vm_compute. reflexivity. Qed.

(** C3 fails as stated: the opening at the corner of the room reaches from
    -2 to 2 while the side runs from 0 to 8, so the spans and the opening
    together cover the point -1, which is not on the side. *)
Lemma corner_opening_overshoots_side :
  NonOverlapping WallExamples.southOpenings /\
  ~ ReconstructsSide WallExamples.southStart WallExamples.southEnd AxisX
      WallExamples.southOpenings.
Proof.
  rewrite south_opening_at_corner. split; [repeat constructor|].
  intros H.
  destruct (H [] 0%nat (Some "#4a4a7a"%string)) as (new & Hnew & _ & Ht).
  vm_compute in Hnew. subst new.
  specialize (Ht (-1)). vm_compute in Ht. discriminate.
Qed.

(** The width of the openings matters too: an opening at 8 of width -4, on
    a side from 0 to 16, overlaps no other and has both ends on the side,
    yet the spans on either side of it, from 0 to 10 and from 6 to 16, cover
    the point 8 twice. *)
Lemma negative_width_opening_covered_twice :
  let o := Opening.mk west 8 (-4) in
  NonOverlapping [o] /\
  0 <= openingEnd o /\ openingEnd o < openingStart o /\ openingStart o <= 16 /\
  coverage
    (span AxisZ
       <$> createWallWithOpenings [] 0 (0, 0, 0) (0, 0, 16) AxisZ [o] None)
    8 = 2%nat /\
  ~ ReconstructsSide (0, 0, 0) (0, 0, 16) AxisZ [o].
Proof.
  cbv zeta. split; [repeat constructor|].
  split; [vm_compute; discriminate|]. split; [reflexivity|].
  split; [vm_compute; discriminate|]. split; [reflexivity|].
  intros H. destruct (H [] 0%nat None) as (new & Hnew & _ & Ht).
  vm_compute in Hnew. subst new.
  specialize (Ht 8). vm_compute in Ht. discriminate.
Qed.


End Walls.

(** * More on the corridor router *)

Module RouterMore.
Import LevelLayoutService RouterSpec RouterSpec2.

(** The three cases of the router, on integer rooms. *)
Lemma vertical_case (corridorId : string) (widthCells : Q)
    (fromRoom toRoom : GridRoom.t) (fx fy fw fh tx ty tw th : Z) :
  IntegerRoom fromRoom fx fy fw fh ->
  IntegerRoom toRoom tx ty tw th ->
  (Z.max fx tx < Z.min (fx + fw) (tx + tw))%Z ->
  let x := ((Z.max fx tx + Z.min (fx + fw) (tx + tw)) / 2)%Z in
  (Z.max fx tx <= x < Z.min (fx + fw) (tx + tw))%Z /\
  GridCorridor.segments
    (buildCorridorBetweenRooms corridorId fromRoom toRoom widthCells)
  = Some [ {| CorridorSegment.startX := inject_Z x;
              CorridorSegment.startY :=
                if (fy + fh <=? ty)%Z
                then maxY (rectOf fromRoom) else minY (rectOf fromRoom);
              CorridorSegment.endX := inject_Z x;
              CorridorSegment.endY :=
                if (fy + fh <=? ty)%Z
                then minY (rectOf toRoom) else maxY (rectOf toRoom) |} ].
Proof.
  intros Hfrom Hto Hov x.
  destruct (Router.rectOf_edges _ _ _ _ _ Hfrom) as (F1 & F2 & F3 & F4).
  destruct (Router.rectOf_edges _ _ _ _ _ Hto) as (T1 & T2 & T3 & T4).
  destruct (Router.getOverlap_integer _ _ _ _ _ _ _ _ F1 F2 T1 T2)
    as (Hs & He & Hhas).
  cbv zeta in Hs, He, Hhas. apply Hhas in Hov as Hb.
  split.
  { unfold x. split.
    - apply Z.div_le_lower_bound; lia.
    - apply Z.div_lt_upper_bound; lia. }
  unfold buildCorridorBetweenRooms. cbn [GridCorridor.segments].
  rewrite Hb. unfold buildVerticalCorridor.
  set (o := getOverlap _ _ _ _) in *.
  assert (Hx : Math.floor ((start o + end_ o) / 2) = inject_Z x).
  { unfold Math.floor, x. f_equal. rewrite <- Qfloor_half_sum.
    apply Qfloor_comp. rewrite Hs, He. reflexivity. }
  rewrite Hx.
  destruct (leb (maxY (rectOf fromRoom)) (minY (rectOf toRoom))) eqn:Hle.
  - apply leb_true in Hle. rewrite F4, T3, <- Zle_Qle in Hle.
    apply Z.leb_le in Hle as ->. reflexivity.
  - apply leb_false in Hle. rewrite F4, T3, <- Zlt_Qlt in Hle.
    apply Z.leb_gt in Hle as ->. reflexivity.
Qed.

Lemma horizontal_case (corridorId : string) (widthCells : Q)
    (fromRoom toRoom : GridRoom.t) (fx fy fw fh tx ty tw th : Z) :
  IntegerRoom fromRoom fx fy fw fh ->
  IntegerRoom toRoom tx ty tw th ->
  ~ (Z.max fx tx < Z.min (fx + fw) (tx + tw))%Z ->
  (Z.max fy ty < Z.min (fy + fh) (ty + th))%Z ->
  let y := ((Z.max fy ty + Z.min (fy + fh) (ty + th)) / 2)%Z in
  (Z.max fy ty <= y < Z.min (fy + fh) (ty + th))%Z /\
  GridCorridor.segments
    (buildCorridorBetweenRooms corridorId fromRoom toRoom widthCells)
  = Some [ {| CorridorSegment.startX :=
                if (fx + fw <=? tx)%Z
                then maxX (rectOf fromRoom) else minX (rectOf fromRoom);
              CorridorSegment.startY := inject_Z y;
              CorridorSegment.endX :=
                if (fx + fw <=? tx)%Z
                then minX (rectOf toRoom) else maxX (rectOf toRoom);
              CorridorSegment.endY := inject_Z y |} ].
Proof.
  intros Hfrom Hto HnoX Hov y.
  destruct (Router.rectOf_edges _ _ _ _ _ Hfrom) as (F1 & F2 & F3 & F4).
  destruct (Router.rectOf_edges _ _ _ _ _ Hto) as (T1 & T2 & T3 & T4).
  destruct (Router.getOverlap_integer _ _ _ _ _ _ _ _ F1 F2 T1 T2)
    as (_ & _ & HhasX).
  destruct (Router.getOverlap_integer _ _ _ _ _ _ _ _ F3 F4 T3 T4)
    as (Hs & He & HhasY).
  cbv zeta in Hs, He, HhasX, HhasY. apply HhasY in Hov as Hb.
  rewrite <- HhasX, not_true_iff_false in HnoX.
  split.
  { unfold y. split.
    - apply Z.div_le_lower_bound; lia.
    - apply Z.div_lt_upper_bound; lia. }
  unfold buildCorridorBetweenRooms. cbn [GridCorridor.segments].
  rewrite HnoX, Hb. unfold buildHorizontalCorridor.
  set (o := getOverlap (minY _) _ _ _) in *.
  assert (Hy : Math.floor ((start o + end_ o) / 2) = inject_Z y).
  { unfold Math.floor, y. f_equal. rewrite <- Qfloor_half_sum.
    apply Qfloor_comp. rewrite Hs, He. reflexivity. }
  rewrite Hy.
  destruct (leb (maxX (rectOf fromRoom)) (minX (rectOf toRoom))) eqn:Hle.
  - apply leb_true in Hle. rewrite F2, T1, <- Zle_Qle in Hle.
    apply Z.leb_le in Hle as ->. reflexivity.
  - apply leb_false in Hle. rewrite F2, T1, <- Zlt_Qlt in Hle.
    apply Z.leb_gt in Hle as ->. reflexivity.
Qed.

Lemma l_shaped_case (corridorId : string) (widthCells : Q)
    (fromRoom toRoom : GridRoom.t) (fx fy fw fh tx ty tw th : Z) :
  IntegerRoom fromRoom fx fy fw fh ->
  IntegerRoom toRoom tx ty tw th ->
  ~ (Z.max fx tx < Z.min (fx + fw) (tx + tw))%Z ->
  ~ (Z.max fy ty < Z.min (fy + fh) (ty + th))%Z ->
  let goingRight := (2 * fx + fw <? 2 * tx + tw)%Z in
  let goingDown := (2 * fy + fh <? 2 * ty + th)%Z in
  GridCorridor.segments
    (buildCorridorBetweenRooms corridorId fromRoom toRoom widthCells)
  = Some [ {| CorridorSegment.startX :=
                if goingRight
                then maxX (rectOf fromRoom) else minX (rectOf fromRoom);
              CorridorSegment.startY := inject_Z (fy + fh / 2);
              CorridorSegment.endX := inject_Z (tx + tw / 2);
              CorridorSegment.endY := inject_Z (fy + fh / 2) |};
           {| CorridorSegment.startX := inject_Z (tx + tw / 2);
              CorridorSegment.startY := inject_Z (fy + fh / 2);
              CorridorSegment.endX := inject_Z (tx + tw / 2);
              CorridorSegment.endY :=
                if goingDown
                then minY (rectOf toRoom) else maxY (rectOf toRoom) |} ].
Proof.
  intros Hfrom Hto HnoX HnoY.
  destruct (Router.rectOf_edges _ _ _ _ _ Hfrom) as (F1 & F2 & F3 & F4).
  destruct (Router.rectOf_edges _ _ _ _ _ Hto) as (T1 & T2 & T3 & T4).
  destruct (Router.getOverlap_integer _ _ _ _ _ _ _ _ F1 F2 T1 T2)
    as (_ & _ & HhasX).
  destruct (Router.getOverlap_integer _ _ _ _ _ _ _ _ F3 F4 T3 T4)
    as (_ & _ & HhasY).
  cbv zeta in HhasX, HhasY |- *.
  unfold buildCorridorBetweenRooms. cbn [GridCorridor.segments].
  rewrite <- HhasX, not_true_iff_false in HnoX.
  rewrite <- HhasY, not_true_iff_false in HnoY. rewrite HnoX, HnoY.
  unfold buildLShapedCorridor.
  destruct Hfrom as (Hfx & Hfy & Hfw & Hfh), Hto as (Htx & Hty & Htw & Hth).
  change (centerX (rectOf toRoom))
    with (GridRoom.gridX toRoom + GridRoom.width toRoom / 2).
  change (centerY (rectOf toRoom))
    with (GridRoom.gridY toRoom + GridRoom.height toRoom / 2).
  change (centerX (rectOf fromRoom))
    with (GridRoom.gridX fromRoom + GridRoom.width fromRoom / 2).
  change (centerY (rectOf fromRoom))
    with (GridRoom.gridY fromRoom + GridRoom.height fromRoom / 2).
  rewrite (Router.center_gtb _ _ _ _ _ _ _ _ Hfx Hfw Htx Htw).
  rewrite (Router.center_gtb _ _ _ _ _ _ _ _ Hfy Hfh Hty Hth).
  rewrite (Router.floor_center _ _ _ _ Hfy Hfh).
  rewrite (Router.floor_center _ _ _ _ Htx Htw).
  reflexivity.
Qed.

Lemma inject_Z_integer_segment (a b c d : Z) :
  IntegerSegment
    {| CorridorSegment.startX := inject_Z a; CorridorSegment.startY := inject_Z b;
       CorridorSegment.endX := inject_Z c; CorridorSegment.endY := inject_Z d |}.
Proof. exists a, b, c, d. repeat split; reflexivity. Qed.

(** Whatever the case, on integer rooms the corridor leads from the boundary
    of the one room to the boundary of the other, on integer coordinates. *)
Lemma route_attached (corridorId : string) (widthCells : Q)
    (fromRoom toRoom : GridRoom.t) (fx fy fw fh tx ty tw th : Z) :
  IntegerRoom fromRoom fx fy fw fh ->
  IntegerRoom toRoom tx ty tw th ->
  (0 <= fh)%Z -> (0 <= tw)%Z ->
  exists segs,
    GridCorridor.segments
      (buildCorridorBetweenRooms corridorId fromRoom toRoom widthCells)
      = Some segs /\
    Attached fromRoom toRoom segs /\
    Forall IntegerSegment segs.
Proof.
  intros Hfrom Hto Hfh Htw.
  destruct (Router.rectOf_edges _ _ _ _ _ Hfrom) as (F1 & F2 & F3 & F4).
  destruct (Router.rectOf_edges _ _ _ _ _ Hto) as (T1 & T2 & T3 & T4).
  destruct (Z_lt_dec (Z.max fx tx) (Z.min (fx + fw) (tx + tw))) as [HX|HX].
  - destruct (vertical_case corridorId widthCells _ _ _ _ _ _ _ _ _ _
                Hfrom Hto HX) as (Hx & ->).
    set (x := ((Z.max fx tx + Z.min (fx + fw) (tx + tw)) / 2)%Z) in *.
    eexists. split; [reflexivity|]. split.
    + eexists _, _. split; [reflexivity|]. split; [reflexivity|].
      cbn [CorridorSegment.startX CorridorSegment.startY
           CorridorSegment.endX CorridorSegment.endY].
      split; right.
      * split; [destruct (fy + fh <=? ty)%Z; [right|left]; reflexivity|].
        rewrite F1, F2, <- !Zle_Qle. lia.
      * split; [destruct (fy + fh <=? ty)%Z; [left|right]; reflexivity|].
        rewrite T1, T2, <- !Zle_Qle. lia.
    + constructor; [|constructor].
      destruct (fy + fh <=? ty)%Z.
      * exists x, (fy + fh)%Z, x, ty. repeat split; try reflexivity; assumption.
      * exists x, fy, x, (ty + th)%Z. repeat split; try reflexivity; assumption.
  - destruct (Z_lt_dec (Z.max fy ty) (Z.min (fy + fh) (ty + th))) as [HY|HY].
    + destruct (horizontal_case corridorId widthCells _ _ _ _ _ _ _ _ _ _
                  Hfrom Hto HX HY) as (Hy & ->).
      set (y := ((Z.max fy ty + Z.min (fy + fh) (ty + th)) / 2)%Z) in *.
      eexists. split; [reflexivity|]. split.
      * eexists _, _. split; [reflexivity|]. split; [reflexivity|].
        cbn [CorridorSegment.startX CorridorSegment.startY
             CorridorSegment.endX CorridorSegment.endY].
        split; left.
        -- split; [destruct (fx + fw <=? tx)%Z; [right|left]; reflexivity|].
           rewrite F3, F4, <- !Zle_Qle. lia.
        -- split; [destruct (fx + fw <=? tx)%Z; [left|right]; reflexivity|].
           rewrite T3, T4, <- !Zle_Qle. lia.
      * constructor; [|constructor].
        destruct (fx + fw <=? tx)%Z.
        -- exists (fx + fw)%Z, y, tx, y. repeat split; try reflexivity; assumption.
        -- exists fx, y, (tx + tw)%Z, y. repeat split; try reflexivity; assumption.
    + rewrite (l_shaped_case corridorId widthCells _ _ _ _ _ _ _ _ _ _
                 Hfrom Hto HX HY).
      pose proof (Router.half_within _ Hfh) as Hh.
      pose proof (Router.half_within _ Htw) as Hw.
      eexists. split; [reflexivity|]. split.
      * eexists _, _. split; [reflexivity|]. split; [reflexivity|].
        cbn [CorridorSegment.startX CorridorSegment.startY
             CorridorSegment.endX CorridorSegment.endY].
        split; [left|right].
        -- split; [destruct (2 * fx + fw <? 2 * tx + tw)%Z; [right|left];
                   reflexivity|].
           rewrite F3, F4, <- !Zle_Qle. lia.
        -- split; [destruct (2 * fy + fh <? 2 * ty + th)%Z; [left|right];
                   reflexivity|].
           rewrite T1, T2, <- !Zle_Qle. lia.
      * constructor; [|constructor; [|constructor]].
        -- destruct (2 * fx + fw <? 2 * tx + tw)%Z.
           ++ exists (fx + fw)%Z, (fy + fh / 2)%Z, (tx + tw / 2)%Z, (fy + fh / 2)%Z.
              repeat split; try reflexivity; assumption.
           ++ exists fx, (fy + fh / 2)%Z, (tx + tw / 2)%Z, (fy + fh / 2)%Z.
              repeat split; try reflexivity; assumption.
        -- destruct (2 * fy + fh <? 2 * ty + th)%Z.
           ++ exists (tx + tw / 2)%Z, (fy + fh / 2)%Z, (tx + tw / 2)%Z, ty.
              repeat split; try reflexivity; assumption.
           ++ exists (tx + tw / 2)%Z, (fy + fh / 2)%Z, (tx + tw / 2)%Z, (ty + th)%Z.
              repeat split; try reflexivity; assumption.
Qed.

(** X1.  Rooms that share rows but no column are joined by one straight
    horizontal segment: it runs along the floor of the middle of the shared
    rows, from the edge of the one room that faces the other to the facing
    edge of the other, and both ends lie on the boundaries of the rooms. *)
Theorem route_aligned_on_Y (corridorId : string) (widthCells : Q)
    (fromRoom toRoom : GridRoom.t) (fx fy fw fh tx ty tw th : Z) :
  IntegerRoom fromRoom fx fy fw fh ->
  IntegerRoom toRoom tx ty tw th ->
  ~ (Z.max fx tx < Z.min (fx + fw) (tx + tw))%Z ->
  (Z.max fy ty < Z.min (fy + fh) (ty + th))%Z ->
  let overlapStart := Z.max fy ty in
  let overlapEnd := Z.min (fy + fh) (ty + th) in
  let y := ((overlapStart + overlapEnd) / 2)%Z in
  exists seg,
    GridCorridor.segments
      (buildCorridorBetweenRooms corridorId fromRoom toRoom widthCells)
      = Some [seg] /\
    CorridorSegment.startY seg = inject_Z y /\
    CorridorSegment.endY seg = inject_Z y /\
    (overlapStart <= y < overlapEnd)%Z /\
    (if (fx + fw <=? tx)%Z
     then CorridorSegment.startX seg == inject_Z (fx + fw) /\
          CorridorSegment.endX seg == inject_Z tx
     else CorridorSegment.startX seg == inject_Z fx /\
          CorridorSegment.endX seg == inject_Z (tx + tw)) /\
    onBoundary (rectOf fromRoom)
      (CorridorSegment.startX seg) (CorridorSegment.startY seg) /\
    onBoundary (rectOf toRoom)
      (CorridorSegment.endX seg) (CorridorSegment.endY seg).
Proof.
  intros Hfrom Hto HX HY overlapStart overlapEnd y.
  destruct (Router.rectOf_edges _ _ _ _ _ Hfrom) as (F1 & F2 & F3 & F4).
  destruct (Router.rectOf_edges _ _ _ _ _ Hto) as (T1 & T2 & T3 & T4).
  destruct (horizontal_case corridorId widthCells _ _ _ _ _ _ _ _ _ _
              Hfrom Hto HX HY) as (Hy & ->).
  fold overlapStart overlapEnd y in Hy |- *.
  eexists. split; [reflexivity|].
  cbn [CorridorSegment.startX CorridorSegment.startY
       CorridorSegment.endX CorridorSegment.endY].
  split; [reflexivity|]. split; [reflexivity|]. split; [exact Hy|].
  split; [destruct (fx + fw <=? tx)%Z; split; assumption|].
  unfold overlapStart, overlapEnd in Hy.
  split; left.
  - split; [destruct (fx + fw <=? tx)%Z; [right|left]; reflexivity|].
    rewrite F3, F4, <- !Zle_Qle. lia.
  - split; [destruct (fx + fw <=? tx)%Z; [left|right]; reflexivity|].
    rewrite T3, T4, <- !Zle_Qle. lia.
Qed.

Lemma route_aligned_on_Y_witness :
  exists seg,
    GridCorridor.segments
      (buildCorridorBetweenRooms "corr_3" Examples.R3 Examples.R2 1)
      = Some [seg] /\
    CorridorSegment.startY seg = inject_Z 7 /\
    CorridorSegment.endY seg = inject_Z 7 /\
    (6 <= 7 < 8)%Z /\
    (CorridorSegment.startX seg == inject_Z 8 /\
     CorridorSegment.endX seg == inject_Z 4) /\
    onBoundary (rectOf Examples.R3)
      (CorridorSegment.startX seg) (CorridorSegment.startY seg) /\
    onBoundary (rectOf Examples.R2)
      (CorridorSegment.endX seg) (CorridorSegment.endY seg).
Proof.
  apply (route_aligned_on_Y "corr_3" 1 Examples.R3 Examples.R2
           8 5 4 3 0 6 4 3 Router.R3_integer Router.R2_integer);
    vm_compute; congruence.
Defined.

(** X2.  Whatever the two rooms, the corridor built between them has one or
    two segments, each along one axis, each beginning where the one before
    ends; its legacy end points are the start of the first segment and the
    end of the last; it carries the given id and width and the ids of the
    two rooms. *)
Theorem route_shape (corridorId : string) (widthCells : Q)
    (fromRoom toRoom : GridRoom.t) :
  let corridor :=
    buildCorridorBetweenRooms corridorId fromRoom toRoom widthCells in
  exists segs first final,
    GridCorridor.segments corridor = Some segs /\
    (length segs = 1 \/ length segs = 2)%nat /\
    Forall AxisAligned segs /\
    Connected segs /\
    head segs = Some first /\ last segs = Some final /\
    GridCorridor.startX corridor = Some (CorridorSegment.startX first) /\
    GridCorridor.startY corridor = Some (CorridorSegment.startY first) /\
    GridCorridor.endX corridor = Some (CorridorSegment.endX final) /\
    GridCorridor.endY corridor = Some (CorridorSegment.endY final) /\
    GridCorridor.id corridor = corridorId /\
    GridCorridor.fromRoom corridor = GridRoom.id fromRoom /\
    GridCorridor.toRoom corridor = GridRoom.id toRoom /\
    GridCorridor.widthCells corridor = Some widthCells.
Proof.
  cbv zeta. unfold buildCorridorBetweenRooms.
  cbn [GridCorridor.segments GridCorridor.startX GridCorridor.startY
       GridCorridor.endX GridCorridor.endY GridCorridor.id
       GridCorridor.fromRoom GridCorridor.toRoom GridCorridor.widthCells].
  assert (Hone : forall seg : CorridorSegment.t, Connected [seg]).
  { intros seg [|i] s1 s2 H1 H2; discriminate. }
  destruct (hasOverlap (getOverlap (minX _) _ _ _)).
  - unfold buildVerticalCorridor.
    destruct (leb _ _); eexists _, _, _;
      (split; [reflexivity|]); (split; [left; reflexivity|]);
      (split; [repeat constructor; left; reflexivity|]);
      (split; [apply Hone|]); repeat split; reflexivity.
  - destruct (hasOverlap (getOverlap (minY _) _ _ _)).
    + unfold buildHorizontalCorridor.
      destruct (leb _ _); eexists _, _, _;
        (split; [reflexivity|]); (split; [left; reflexivity|]);
        (split; [repeat constructor; right; reflexivity|]);
        (split; [apply Hone|]); repeat split; reflexivity.
    + unfold buildLShapedCorridor. eexists _, _, _.
      split; [reflexivity|]. split; [right; reflexivity|].
      split; [constructor; [right; reflexivity|constructor;
                [left; reflexivity|constructor]]|].
      split.
      { intros [|[|i]] s1 s2 H1 H2; try discriminate.
        injection H1 as <-. injection H2 as <-. split; reflexivity. }
      repeat split; reflexivity.
Qed.

End RouterMore.

(** * More on the layout repair *)

Module RepairMore.
Import LevelLayoutService RouterSpec RouterSpec2 RepairSpec RepairSpec2.

(** What the map of the rooms holds. *)
Lemma roomsMap_lookup_Some (rooms : list GridRoom.t) :
  forall (m : gmap string GridRoom.t) k room,
    foldl (fun m room => <[GridRoom.id room := room]> m) m rooms !! k
      = Some room ->
    (room ∈ rooms /\ GridRoom.id room = k) \/ m !! k = Some room.
Proof.
  induction rooms as [|r rooms IH]; intros m k room H; cbn in H.
  - right. exact H.
  - apply IH in H as [[Hin Hid]|H].
    + left. split; [right; exact Hin|exact Hid].
    + destruct (decide (GridRoom.id r = k)) as [<-|Hne].
      * rewrite lookup_insert_eq in H. injection H as <-.
        left. split; [left|reflexivity].
      * rewrite lookup_insert_ne in H by exact Hne. right. exact H.
Qed.

Lemma roomsMap_lookup_is_Some (rooms : list GridRoom.t) :
  forall (m : gmap string GridRoom.t) k,
    is_Some (foldl (fun m room => <[GridRoom.id room := room]> m) m rooms !! k)
    <-> k ∈ GridRoom.id <$> rooms \/ is_Some (m !! k).
Proof.
  induction rooms as [|r rooms IH]; intros m k; cbn.
  - split; [intros H; right; exact H|].
    intros [H|H]; [inversion H|exact H].
  - rewrite IH. rewrite elem_of_cons.
    destruct (decide (GridRoom.id r = k)) as [<-|Hne].
    + rewrite lookup_insert_eq. split; [intros _; left; left; reflexivity|].
      intros _. right. eexists. reflexivity.
    + rewrite lookup_insert_ne by exact Hne. split.
      * intros [H|H]; [left; right; exact H|right; exact H].
      * intros [[H|H]|H]; [congruence|left; exact H|right; exact H].
Qed.

Lemma buildRoomsMap_Some (rooms : list GridRoom.t) k room :
  buildRoomsMap rooms !! k = Some room ->
  room ∈ rooms /\ GridRoom.id room = k.
Proof.
  intros H. apply roomsMap_lookup_Some in H as [H|H]; [exact H|].
  rewrite lookup_empty in H. discriminate.
Qed.

Lemma buildRoomsMap_is_Some (rooms : list GridRoom.t) k :
  is_Some (buildRoomsMap rooms !! k) <-> k ∈ GridRoom.id <$> rooms.
Proof.
  unfold buildRoomsMap. rewrite roomsMap_lookup_is_Some.
  rewrite lookup_empty. split; [|intros H; left; exact H].
  intros [H|[x H]]; [exact H|discriminate].
Qed.

Lemma fixRoom_ids (rooms : list GridRoom.t) :
  GridRoom.id <$> (fixRoom <$> rooms) = GridRoom.id <$> rooms.
Proof. rewrite <- list_fmap_compose. reflexivity. Qed.

Lemma fixRoom_integer (raw : GridRoom.t) :
  exists x y w h : Z,
    IntegerRoom (fixRoom raw) x y w h /\ (2 <= w)%Z /\ (2 <= h)%Z.
Proof.
  destruct (Repair.fixRoom_coerced raw)
    as (_ & _ & (x & Hx & _) & (y & Hy & _) & (w & Hw & _) & (h & Hh & _) & _).
  exists x, y, (Z.max 2 w), (Z.max 2 h).
  split; [|lia].
  unfold IntegerRoom. rewrite Hx, Hy, Hw, Hh. repeat split; reflexivity.
Qed.

(** The corridors the repair returns, against the raw ones. *)
Lemma fixCorridors_filter (rooms : list GridRoom.t)
    (corridors : list GridCorridor.t) :
  Forall2 Rebuilt
    (List.filter (resolves (GridRoom.id <$> rooms)) corridors)
    (omap (fixCorridor (buildRoomsMap rooms)) corridors).
Proof.
  induction corridors as [|c corridors IH]; [constructor|].
  cbn [List.filter omap list_omap]. unfold resolves at 1, fixCorridor at 1.
  pose proof (buildRoomsMap_is_Some rooms (GridCorridor.fromRoom c)) as Hf.
  pose proof (buildRoomsMap_is_Some rooms (GridCorridor.toRoom c)) as Ht.
  destruct (buildRoomsMap rooms !! GridCorridor.fromRoom c) as [fromRoom|] eqn:Ef.
  - destruct (buildRoomsMap rooms !! GridCorridor.toRoom c) as [toRoom|] eqn:Et.
    + rewrite !bool_decide_eq_true_2
        by (first [apply Hf|apply Ht]; eexists; reflexivity).
      cbn [andb]. constructor; [|exact IH].
      apply buildRoomsMap_Some in Ef as [_ Ef], Et as [_ Et].
      repeat split; assumption.
    + rewrite (bool_decide_eq_false_2 (GridCorridor.toRoom c ∈ _)).
      2:{ intros H. apply Ht in H as [x H]. discriminate. }
      rewrite andb_false_r. exact IH.
  - rewrite (bool_decide_eq_false_2 (GridCorridor.fromRoom c ∈ _)).
    2:{ intros H. apply Hf in H as [x H]. discriminate. }
    cbn [andb]. exact IH.
Qed.

Lemma fixCorridors_routed (rawRooms : list GridRoom.t)
    (corridors : list GridCorridor.t) :
  Forall (Routed (fixRoom <$> rawRooms))
    (omap (fixCorridor (buildRoomsMap (fixRoom <$> rawRooms))) corridors).
Proof.
  induction corridors as [|c corridors IH]; [constructor|].
  cbn [omap list_omap]. unfold fixCorridor at 1.
  destruct (buildRoomsMap _ !! GridCorridor.fromRoom c) as [fromRoom|] eqn:Ef;
    [|exact IH].
  destruct (buildRoomsMap _ !! GridCorridor.toRoom c) as [toRoom|] eqn:Et;
    [|exact IH].
  constructor; [|exact IH].
  apply buildRoomsMap_Some in Ef as [Hfin Hfid], Et as [Htin Htid].
  apply list_elem_of_fmap in Hfin as Hf. destruct Hf as (rawFrom & -> & _).
  apply list_elem_of_fmap in Htin as Ht. destruct Ht as (rawTo & -> & _).
  destruct (fixRoom_integer rawFrom) as (fx & fy & fw & fh & Hfrom & _ & Hfh).
  destruct (fixRoom_integer rawTo) as (tx & ty & tw & th & Hto & Htw & _).
  destruct (RouterMore.route_attached (GridCorridor.id c)
              (num_or (GridCorridor.widthCells c) 1) _ _ _ _ _ _ _ _ _ _
              Hfrom Hto ltac:(lia) ltac:(lia)) as (segs & Hsegs & Hatt & Hint).
  exists (fixRoom rawFrom), (fixRoom rawTo),
    (num_or (GridCorridor.widthCells c) 1), segs.
  split; [exact Hfin|]. split; [exact Htin|].
  split; [reflexivity|]. split; [reflexivity|].
  split; [reflexivity|]. split; [exact Hsegs|]. split; assumption.
Qed.

(** X3.  The repair fails on a layout without a level, with the error that
    the level is missing, and on a level with fewer than two rooms or without
    rooms, with the error that two rooms at least are required; it fails on
    no other layout and in no other way (the corridors of the level being a
    list, as the data model has them). *)
Theorem repair_failure (layout : LevelLayout.t) (e : exn) :
  validateAndFixLayout layout = inl e <->
  (LevelLayout.level layout = None /\ e = Error "Missing level in layout") \/
  (exists level,
     LevelLayout.level layout = Some level /\
     (length (default [] (GridLevelData.rooms level)) < 2)%nat /\
     e = Error "At least 2 rooms required").
Proof.
  destruct layout as [[level|]].
  - cbn [LevelLayout.level].
    destruct (GridLevelData.rooms level) as [rawRooms|] eqn:Er.
    + destruct (Nat.ltb_spec (length rawRooms) 2) as [Hlt|Hge].
      * unfold validateAndFixLayout. cbn [LevelLayout.level]. rewrite Er.
        rewrite (proj2 (Nat.ltb_lt _ _) Hlt). unfold throw. split.
        -- intros [= <-]. right. exists level. rewrite Er. auto.
        -- intros [[[=] _]|(level' & [= <-] & _ & ->)]. reflexivity.
      * destruct (Repair.validateAndFixLayout_ok {| LevelLayout.level := Some level |}
                    level rawRooms eq_refl Er Hge)
          as (defaults & _ & ->).
        split; [discriminate|].
        intros [[[=] _]|(level' & [= <-] & Hlt & _)].
        rewrite Er in Hlt. cbn in Hlt. lia.
    + unfold validateAndFixLayout. cbn [LevelLayout.level]. rewrite Er.
      unfold throw. split.
      * intros [= <-]. right. exists level. rewrite Er. cbn. split; [reflexivity|].
        split; [lia|reflexivity].
      * intros [[[=] _]|(level' & [= <-] & _ & ->)]. reflexivity.
  - cbn. unfold throw. split.
    + intros [= <-]. left. auto.
    + intros [[_ ->]|(level & [=] & _)]. reflexivity.
Qed.

(** X4.  The repair keeps the corridors whose two ends name a room of the
    level, in their order, and drops the others; a kept corridor keeps its
    id and the rooms it names, and gets a width of one cell when its width is
    missing or zero. *)
Theorem repair_keeps_resolving_corridors (layout : LevelLayout.t)
    (level : GridLevelData.t) (rawRooms : list GridRoom.t) :
  LevelLayout.level layout = Some level ->
  GridLevelData.rooms level = Some rawRooms ->
  (2 <= length rawRooms)%nat ->
  exists repaired level',
    validateAndFixLayout layout = inr repaired /\
    LevelLayout.level repaired = Some level' /\
    Forall2 Rebuilt
      (List.filter (resolves (GridRoom.id <$> rawRooms))
                   (GridLevelData.corridors level))
      (GridLevelData.corridors level').
Proof.
  intros Hl Hr Hlen.
  destruct (Repair.validateAndFixLayout_ok _ _ _ Hl Hr Hlen)
    as (defaults & _ & ->).
  eexists _, _. split; [reflexivity|]. split; [reflexivity|].
  cbn [GridLevelData.corridors]. rewrite <- (fixRoom_ids rawRooms).
  apply fixCorridors_filter.
Qed.

Lemma repair_keeps_resolving_corridors_witness :
  exists repaired level',
    validateAndFixLayout Examples.rawLayout = inr repaired /\
    LevelLayout.level repaired = Some level' /\
    Forall2 Rebuilt
      [Examples.rawCorridor "corr_1" "room_1" "room_2"]
      (GridLevelData.corridors level').
Proof.
  apply (repair_keeps_resolving_corridors Examples.rawLayout Examples.rawLevel
           _ eq_refl eq_refl).
  cbn. lia.
Defined.

(** X5.  Every corridor of a repaired layout is the route between two rooms
    of the repaired list, the ones it names: whatever segments the raw
    corridor carried, it leads from the boundary of the one room to the
    boundary of the other, on integer coordinates. *)
Theorem repair_routes_corridors (layout : LevelLayout.t)
    (level : GridLevelData.t) (rawRooms : list GridRoom.t) :
  LevelLayout.level layout = Some level ->
  GridLevelData.rooms level = Some rawRooms ->
  (2 <= length rawRooms)%nat ->
  exists repaired level' rooms,
    validateAndFixLayout layout = inr repaired /\
    LevelLayout.level repaired = Some level' /\
    GridLevelData.rooms level' = Some rooms /\
    Forall (Routed rooms) (GridLevelData.corridors level').
Proof.
  intros Hl Hr Hlen.
  destruct (Repair.validateAndFixLayout_ok _ _ _ Hl Hr Hlen)
    as (defaults & _ & ->).
  eexists _, _, _. split; [reflexivity|]. split; [reflexivity|].
  split; [reflexivity|]. apply fixCorridors_routed.
Qed.

Lemma repair_routes_corridors_witness :
  exists repaired level' rooms,
    validateAndFixLayout Examples.rawLayout = inr repaired /\
    LevelLayout.level repaired = Some level' /\
    GridLevelData.rooms level' = Some rooms /\
    Forall (Routed rooms) (GridLevelData.corridors level').
Proof.
  apply (repair_routes_corridors Examples.rawLayout Examples.rawLevel
           _ eq_refl eq_refl).
  cbn. lia.
Defined.

(** X6.  The critical path of a repaired layout has two entries or more:
    the path of the raw layout when it has two entries or more, the ids of
    the rooms in their order otherwise. *)
Theorem repair_critical_path (layout : LevelLayout.t)
    (level : GridLevelData.t) (rawRooms : list GridRoom.t) :
  LevelLayout.level layout = Some level ->
  GridLevelData.rooms level = Some rawRooms ->
  (2 <= length rawRooms)%nat ->
  exists repaired level' path,
    validateAndFixLayout layout = inr repaired /\
    LevelLayout.level repaired = Some level' /\
    GridLevelData.criticalPath level' = Some path /\
    (2 <= length path)%nat /\
    (forall kept,
       keptPath (GridLevelData.criticalPath level) = Some kept -> path = kept) /\
    (keptPath (GridLevelData.criticalPath level) = None ->
       path = GridRoom.id <$> rawRooms).
Proof.
  intros Hl Hr Hlen.
  destruct (Repair.validateAndFixLayout_ok _ _ _ Hl Hr Hlen)
    as (defaults & _ & ->).
  eexists _, _, _. split; [reflexivity|]. split; [reflexivity|].
  split; [reflexivity|]. rewrite fixRoom_ids.
  unfold keptPath. destruct (GridLevelData.criticalPath level) as [p|].
  - destruct (Nat.leb_spec 2 (length p)) as [Hp|Hp]; cbn [default from_option].
    + split; [exact Hp|]. split; [intros kept [= <-]; reflexivity|discriminate].
    + rewrite length_fmap. split; [exact Hlen|].
      split; [discriminate|reflexivity].
  - cbn [default from_option]. rewrite length_fmap. split; [exact Hlen|].
    split; [discriminate|reflexivity].
Qed.

Lemma repair_critical_path_witness :
  exists repaired level' path,
    validateAndFixLayout Examples.rawLayout = inr repaired /\
    LevelLayout.level repaired = Some level' /\
    GridLevelData.criticalPath level' = Some path /\
    (2 <= length path)%nat /\
    (forall kept,
       keptPath (GridLevelData.criticalPath Examples.rawLevel) = Some kept ->
       path = kept) /\
    (keptPath (GridLevelData.criticalPath Examples.rawLevel) = None ->
       path = ["room_1"; "room_2"]).
Proof.
  apply (repair_critical_path Examples.rawLayout Examples.rawLevel
           _ eq_refl eq_refl).
  cbn. lia.
Defined.

End RepairMore.

(** * Openings of routed corridors *)

Module Openings.
Import LevelLayoutService AssemblyService RouterSpec RouterSpec2.

Lemma eqb_false (a b : Q) : eqb a b = false <-> ~ a == b.
Proof.
  unfold eqb. rewrite <- Qeq_bool_iff. destruct (Qeq_bool a b); split; congruence.
Qed.

(** Comparisons of numbers that are integers, decided on the integers. *)
Ltac integer_goal :=
  cbn [rectOf minX maxX minY maxY
       CorridorSegment.startX CorridorSegment.startY
       CorridorSegment.endX CorridorSegment.endY];
  repeat match goal with
         | H : _ == inject_Z _ |- _ => rewrite ?H; clear H
         end;
  rewrite <- ?inject_Z_plus;
  rewrite <- ?Zle_Qle, <- ?Zlt_Qlt, ?inject_Z_injective; lia.

Ltac settle_tests :=
  unfold geb;
  repeat match goal with
         | |- context [eqb ?a ?b] =>
             first [ rewrite (proj2 (eqb_true a b)) by integer_goal
                   | rewrite (proj2 (eqb_false a b)) by integer_goal ]
         | |- context [leb ?a ?b] =>
             first [ rewrite (proj2 (leb_true a b)) by integer_goal
                   | rewrite (proj2 (leb_false a b)) by integer_goal ]
         end.

(** The openings a room gets from a corridor between it and another room:
    those of the segments of the corridor. *)
Lemma findRoomOpenings_route (room fromRoom toRoom : GridRoom.t)
    (corridorId : string) (widthCells : Q) (segs : list CorridorSegment.t) :
  room = fromRoom \/ room = toRoom ->
  GridCorridor.segments
    (buildCorridorBetweenRooms corridorId fromRoom toRoom widthCells)
    = Some segs ->
  findRoomOpenings room
    [buildCorridorBetweenRooms corridorId fromRoom toRoom widthCells]
  = segs ≫= segmentOpenings
      (GridRoom.gridX room) (GridRoom.gridX room + GridRoom.width room)
      (GridRoom.gridY room) (GridRoom.gridY room + GridRoom.height room)
      (cellsToMeters (num_or (Some widthCells) 1)).
Proof.
  intros Hroom Hsegs. unfold findRoomOpenings.
  cbn [mbind list_bind]. rewrite app_nil_r.
  unfold corridorSegments. rewrite Hsegs.
  assert (Hid : bool_decide
            (GridCorridor.fromRoom
               (buildCorridorBetweenRooms corridorId fromRoom toRoom widthCells)
             ≠ GridRoom.id room)
          && bool_decide
            (GridCorridor.toRoom
               (buildCorridorBetweenRooms corridorId fromRoom toRoom widthCells)
             ≠ GridRoom.id room) = false).
  { cbn [buildCorridorBetweenRooms GridCorridor.fromRoom GridCorridor.toRoom].
    destruct Hroom as [->| ->].
    - rewrite bool_decide_eq_false_2 by (intros H; apply H; reflexivity).
      reflexivity.
    - rewrite (bool_decide_eq_false_2 (GridRoom.id toRoom ≠ _))
        by (intros H; apply H; reflexivity).
      apply andb_false_r. }
  rewrite Hid. reflexivity.
Qed.

Lemma vertical_openings (corridorId : string) (widthCells : Q)
    (fromRoom toRoom : GridRoom.t) (fx fy fw fh tx ty tw th : Z) :
  IntegerRoom fromRoom fx fy fw fh ->
  IntegerRoom toRoom tx ty tw th ->
  (0 < fh)%Z -> (0 < th)%Z ->
  (Z.max fx tx < Z.min (fx + fw) (tx + tw))%Z ->
  (fy + fh <= ty \/ ty + th <= fy)%Z ->
  let x := ((Z.max fx tx + Z.min (fx + fw) (tx + tw)) / 2)%Z in
  let corridor :=
    buildCorridorBetweenRooms corridorId fromRoom toRoom widthCells in
  let position := gridToWorldX (inject_Z x) in
  let width := cellsToMeters (num_or (Some widthCells) 1) in
  findRoomOpenings fromRoom [corridor]
    = [Opening.mk (if (fy + fh <=? ty)%Z then south else north)
         position width] /\
  findRoomOpenings toRoom [corridor]
    = [Opening.mk (if (fy + fh <=? ty)%Z then north else south)
         position width].
Proof.
  intros Hfrom Hto Hfh Hth HX Hapart x corridor position width.
  destruct (RouterMore.vertical_case corridorId widthCells _ _ _ _ _ _ _ _ _ _
              Hfrom Hto HX) as (Hx & Hsegs).
  fold x in Hx, Hsegs.
  unfold corridor.
  rewrite (findRoomOpenings_route fromRoom _ _ _ _ _ (or_introl eq_refl) Hsegs).
  rewrite (findRoomOpenings_route toRoom _ _ _ _ _ (or_intror eq_refl) Hsegs).
  destruct Hfrom as (Hfx & Hfy & Hfw & Hfh'), Hto as (Htx & Hty & Htw & Hth').
  cbn [mbind list_bind]. rewrite !app_nil_r. unfold segmentOpenings.
  cbn [CorridorSegment.startX CorridorSegment.startY
       CorridorSegment.endX CorridorSegment.endY].
  fold position width.
  destruct (Z.leb_spec (fy + fh) ty) as [Hdown|Hup];
    cbn [rectOf minX maxX minY maxY]; split; settle_tests;
    rewrite ?orb_true_r; reflexivity.
Qed.

(** X7.  Two rooms one above the other that share columns, joined by the
    router: the corridor opens the two facing walls and no other, the south
    wall of the upper room and the north wall of the lower one; each gets
    one opening, centred on the column of the corridor and as wide as the
    corridor; the centre of the opening lies on the wall it opens. *)
Theorem straight_vertical_corridor_openings (corridorId : string)
    (widthCells : Q) (fromRoom toRoom : GridRoom.t)
    (fx fy fw fh tx ty tw th : Z) :
  IntegerRoom fromRoom fx fy fw fh ->
  IntegerRoom toRoom tx ty tw th ->
  (0 < fh)%Z -> (0 < th)%Z ->
  (Z.max fx tx < Z.min (fx + fw) (tx + tw))%Z ->
  (fy + fh <= ty \/ ty + th <= fy)%Z ->
  let x := ((Z.max fx tx + Z.min (fx + fw) (tx + tw)) / 2)%Z in
  let corridor :=
    buildCorridorBetweenRooms corridorId fromRoom toRoom widthCells in
  let position := gridToWorldX (inject_Z x) in
  let width := cellsToMeters (num_or (Some widthCells) 1) in
  findRoomOpenings fromRoom [corridor]
    = [Opening.mk (if (fy + fh <=? ty)%Z then south else north)
         position width] /\
  findRoomOpenings toRoom [corridor]
    = [Opening.mk (if (fy + fh <=? ty)%Z then north else south)
         position width] /\
  CameraSpec.worldMinX fromRoom <= position <= CameraSpec.worldMaxX fromRoom /\
  CameraSpec.worldMinX toRoom <= position <= CameraSpec.worldMaxX toRoom.
Proof.
  intros Hfrom Hto Hfh Hth HX Hapart x corridor position width.
  destruct (vertical_openings corridorId widthCells fromRoom toRoom
              fx fy fw fh tx ty tw th Hfrom Hto Hfh Hth HX Hapart)
    as (Hof & Hot).
  split; [exact Hof|]. split; [exact Hot|].
  assert (Hx : (Z.max fx tx <= x < Z.min (fx + fw) (tx + tw))%Z).
  { unfold x. split.
    - apply Z.div_le_lower_bound; lia.
    - apply Z.div_lt_upper_bound; lia. }
  destruct Hfrom as (Hfx & _ & Hfw & _), Hto as (Htx & _ & Htw & _).
  unfold position, CameraSpec.worldMinX, CameraSpec.worldMaxX, gridToWorldX,
    CELL_SIZE, GRID_CELL_SIZE.
  rewrite Hfx, Hfw, Htx, Htw, <- !inject_Z_plus.
  assert (H1 : inject_Z fx <= inject_Z x) by (rewrite <- Zle_Qle; lia).
  assert (H2 : inject_Z x <= inject_Z (fx + fw)) by (rewrite <- Zle_Qle; lia).
  assert (H3 : inject_Z tx <= inject_Z x) by (rewrite <- Zle_Qle; lia).
  assert (H4 : inject_Z x <= inject_Z (tx + tw)) by (rewrite <- Zle_Qle; lia).
  repeat split; lra.
Qed.

Lemma straight_vertical_corridor_openings_witness :
  findRoomOpenings Examples.R1
    [buildCorridorBetweenRooms "corr_1" Examples.R1 Examples.R2 1]
    = [Opening.mk south (gridToWorldX (inject_Z 2)) (cellsToMeters 1)] /\
  findRoomOpenings Examples.R2
    [buildCorridorBetweenRooms "corr_1" Examples.R1 Examples.R2 1]
    = [Opening.mk north (gridToWorldX (inject_Z 2)) (cellsToMeters 1)] /\
  CameraSpec.worldMinX Examples.R1 <= gridToWorldX (inject_Z 2)
    <= CameraSpec.worldMaxX Examples.R1 /\
  CameraSpec.worldMinX Examples.R2 <= gridToWorldX (inject_Z 2)
    <= CameraSpec.worldMaxX Examples.R2.
Proof.
  apply (straight_vertical_corridor_openings "corr_1" 1
           Examples.R1 Examples.R2 0 0 4 3 0 6 4 3
           Router.R1_integer Router.R2_integer);
    vm_compute; first [reflexivity | congruence | (left; congruence)].
Defined.

(** X8.  Two rooms strictly apart side by side that share rows, joined by
    the router: the corridor opens the two facing walls and no other, the
    east wall of the room on the left and the west wall of the room on the
    right; each gets one opening, centred on the row of the corridor and as
    wide as the corridor. *)
Theorem straight_horizontal_corridor_openings (corridorId : string) (widthCells : Q)
    (fromRoom toRoom : GridRoom.t) (fx fy fw fh tx ty tw th : Z) :
  IntegerRoom fromRoom fx fy fw fh ->
  IntegerRoom toRoom tx ty tw th ->
  (0 < fw)%Z -> (0 < tw)%Z ->
  (fx + fw < tx \/ tx + tw < fx)%Z ->
  (Z.max fy ty < Z.min (fy + fh) (ty + th))%Z ->
  let y := ((Z.max fy ty + Z.min (fy + fh) (ty + th)) / 2)%Z in
  let corridor :=
    buildCorridorBetweenRooms corridorId fromRoom toRoom widthCells in
  let position := gridToWorldZ (inject_Z y) in
  let width := cellsToMeters (num_or (Some widthCells) 1) in
  findRoomOpenings fromRoom [corridor]
    = [Opening.mk (if (fx + fw <=? tx)%Z then east else west)
         position width] /\
  findRoomOpenings toRoom [corridor]
    = [Opening.mk (if (fx + fw <=? tx)%Z then west else east)
         position width].
Proof.
  intros Hfrom Hto Hfw Htw Hapart HY y corridor position width.
  assert (HX : ~ (Z.max fx tx < Z.min (fx + fw) (tx + tw))%Z) by lia.
  destruct (RouterMore.horizontal_case corridorId widthCells _ _ _ _ _ _ _ _ _ _
              Hfrom Hto HX HY) as (Hy & Hsegs).
  fold y in Hy, Hsegs.
  unfold corridor.
  rewrite (findRoomOpenings_route fromRoom _ _ _ _ _ (or_introl eq_refl) Hsegs).
  rewrite (findRoomOpenings_route toRoom _ _ _ _ _ (or_intror eq_refl) Hsegs).
  destruct Hfrom as (Hfx & Hfy & Hfw' & Hfh), Hto as (Htx & Hty & Htw' & Hth).
  cbn [mbind list_bind]. rewrite !app_nil_r. unfold segmentOpenings.
  cbn [CorridorSegment.startX CorridorSegment.startY
       CorridorSegment.endX CorridorSegment.endY].
  fold position width.
  destruct (Z.leb_spec (fx + fw) tx) as [Hright|Hleft];
    cbn [rectOf minX maxX minY maxY]; split; settle_tests;
    rewrite ?orb_true_r; reflexivity.
Qed.

Lemma straight_horizontal_corridor_openings_witness :
  findRoomOpenings Examples.R3
    [buildCorridorBetweenRooms "corr_3" Examples.R3 Examples.R2 1]
    = [Opening.mk west (gridToWorldZ (inject_Z 7)) (cellsToMeters 1)] /\
  findRoomOpenings Examples.R2
    [buildCorridorBetweenRooms "corr_3" Examples.R3 Examples.R2 1]
    = [Opening.mk east (gridToWorldZ (inject_Z 7)) (cellsToMeters 1)].
Proof.
  apply (straight_horizontal_corridor_openings "corr_3" 1
           Examples.R3 Examples.R2 8 5 4 3 0 6 4 3
           Router.R3_integer Router.R2_integer);
    vm_compute; first [reflexivity | congruence | (right; reflexivity)].
Defined.

(** X9.  Two rooms of two cells or more each way that share neither a
    column nor a row, joined by the router: the L-shaped corridor opens one
    wall of each room and no other.  The room it leaves gets an opening in
    its east or west wall, the one towards the other room, at the row of the
    first segment; the room it reaches gets an opening in its north or south
    wall, the one towards the first room, at the column of the second
    segment. *)
Theorem l_shaped_corridor_openings (corridorId : string) (widthCells : Q)
    (fromRoom toRoom : GridRoom.t) (fx fy fw fh tx ty tw th : Z) :
  IntegerRoom fromRoom fx fy fw fh ->
  IntegerRoom toRoom tx ty tw th ->
  (2 <= fw)%Z -> (2 <= fh)%Z -> (2 <= tw)%Z -> (2 <= th)%Z ->
  ~ (Z.max fx tx < Z.min (fx + fw) (tx + tw))%Z ->
  ~ (Z.max fy ty < Z.min (fy + fh) (ty + th))%Z ->
  let corridor :=
    buildCorridorBetweenRooms corridorId fromRoom toRoom widthCells in
  let width := cellsToMeters (num_or (Some widthCells) 1) in
  findRoomOpenings fromRoom [corridor]
    = [Opening.mk (if (2 * fx + fw <? 2 * tx + tw)%Z then east else west)
         (gridToWorldZ (inject_Z (fy + fh / 2))) width] /\
  findRoomOpenings toRoom [corridor]
    = [Opening.mk (if (2 * fy + fh <? 2 * ty + th)%Z then north else south)
         (gridToWorldX (inject_Z (tx + tw / 2))) width].
Proof.
  intros Hfrom Hto Hfw Hfh Htw Hth HX HY corridor width.
  pose proof (RouterMore.l_shaped_case corridorId widthCells _ _ _ _ _ _ _ _ _ _
                Hfrom Hto HX HY) as Hsegs.
  cbv zeta in Hsegs. unfold corridor.
  rewrite (findRoomOpenings_route fromRoom _ _ _ _ _ (or_introl eq_refl) Hsegs).
  rewrite (findRoomOpenings_route toRoom _ _ _ _ _ (or_intror eq_refl) Hsegs).
  destruct Hfrom as (Hfx & Hfy & Hfw' & Hfh'), Hto as (Htx & Hty & Htw' & Hth').
  cbn [mbind list_bind]. rewrite !app_nil_r. unfold segmentOpenings.
  cbn [CorridorSegment.startX CorridorSegment.startY
       CorridorSegment.endX CorridorSegment.endY].
  fold width.
  assert (Hfh2 : (0 <= fh / 2 < fh)%Z)
    by (split; [apply Z.div_pos; lia|apply Z.div_lt_upper_bound; lia]).
  assert (Hfh3 : (1 <= fh / 2)%Z) by (apply Z.div_le_lower_bound; lia).
  assert (Htw2 : (0 <= tw / 2 < tw)%Z)
    by (split; [apply Z.div_pos; lia|apply Z.div_lt_upper_bound; lia]).
  assert (Htw3 : (1 <= tw / 2)%Z) by (apply Z.div_le_lower_bound; lia).
  set (hy := (fh / 2)%Z) in *. set (hx := (tw / 2)%Z) in *.
  destruct (Z.ltb_spec (2 * fx + fw) (2 * tx + tw)) as [Hright|Hleft];
    destruct (Z.ltb_spec (2 * fy + fh) (2 * ty + th)) as [Hdown|Hup];
    cbn [rectOf minX maxX minY maxY]; split; settle_tests;
    rewrite ?orb_true_r; reflexivity.
Qed.

Lemma l_shaped_corridor_openings_witness :
  findRoomOpenings Examples.R1
    [buildCorridorBetweenRooms "corr_2" Examples.R1 Examples.R3 1]
    = [Opening.mk east (gridToWorldZ (inject_Z 1)) (cellsToMeters 1)] /\
  findRoomOpenings Examples.R3
    [buildCorridorBetweenRooms "corr_2" Examples.R1 Examples.R3 1]
    = [Opening.mk north (gridToWorldX (inject_Z 10)) (cellsToMeters 1)].
Proof.
  apply (l_shaped_corridor_openings "corr_2" 1
           Examples.R1 Examples.R3 0 0 4 3 8 5 4 3
           Router.R1_integer Router.R3_integer);
    vm_compute; congruence.
Defined.

(** X10.  Two rooms that touch side by side and share rows get no door in
    the walls they share: the corridor the router builds between them is a
    single point, which the openings read as a vertical segment, so that it
    opens no east or west wall; the only opening there can be lies in a
    north wall. *)
Theorem touching_rooms_get_no_side_door (corridorId : string) (widthCells : Q)
    (fromRoom toRoom : GridRoom.t) (fx fy fw fh tx ty tw th : Z) :
  IntegerRoom fromRoom fx fy fw fh ->
  IntegerRoom toRoom tx ty tw th ->
  (0 < fw)%Z -> (0 < tw)%Z ->
  (fx + fw = tx \/ tx + tw = fx)%Z ->
  (Z.max fy ty < Z.min (fy + fh) (ty + th))%Z ->
  let corridor :=
    buildCorridorBetweenRooms corridorId fromRoom toRoom widthCells in
  Forall (fun o => Opening.side o = north)
    (findRoomOpenings fromRoom [corridor]
     ++ findRoomOpenings toRoom [corridor]).
Proof.
  intros Hfrom Hto Hfw Htw Htouch HY corridor.
  assert (HX : ~ (Z.max fx tx < Z.min (fx + fw) (tx + tw))%Z) by lia.
  destruct (RouterMore.horizontal_case corridorId widthCells _ _ _ _ _ _ _ _ _ _
              Hfrom Hto HX HY) as (Hy & Hsegs).
  set (y := ((Z.max fy ty + Z.min (fy + fh) (ty + th)) / 2)%Z) in *.
  unfold corridor.
  rewrite (findRoomOpenings_route fromRoom _ _ _ _ _ (or_introl eq_refl) Hsegs).
  rewrite (findRoomOpenings_route toRoom _ _ _ _ _ (or_intror eq_refl) Hsegs).
  destruct Hfrom as (Hfx & Hfy & Hfw' & Hfh), Hto as (Htx & Hty & Htw' & Hth).
  cbn [mbind list_bind]. rewrite !app_nil_r. unfold segmentOpenings.
  cbn [CorridorSegment.startX CorridorSegment.startY
       CorridorSegment.endX CorridorSegment.endY].
  destruct (Z.leb_spec (fx + fw) tx) as [Hright|Hleft];
    cbn [rectOf minX maxX minY maxY]; settle_tests;
    cbn [andb orb app];
    repeat match goal with
           | |- context [if ?b then _ else _] => destruct b
           end;
    repeat constructor.
Qed.

Lemma R4_integer : IntegerRoom MoreExamples.R4 4 0 4 3.
Proof. repeat split; reflexivity. Qed.

Lemma touching_rooms_get_no_side_door_witness :
  Forall (fun o => Opening.side o = north)
    (findRoomOpenings Examples.R1
       [buildCorridorBetweenRooms "corr_4" Examples.R1 MoreExamples.R4 1]
     ++ findRoomOpenings MoreExamples.R4
       [buildCorridorBetweenRooms "corr_4" Examples.R1 MoreExamples.R4 1]).
Proof.
  apply (touching_rooms_get_no_side_door "corr_4" 1
           Examples.R1 MoreExamples.R4 0 0 4 3 4 0 4 3
           Router.R1_integer R4_integer);
    vm_compute; first [reflexivity | (left; reflexivity)].
Defined.

End Openings.

(** * More on the walls *)

Module WallsMore.
Import LevelLayoutService AssemblyService RouterSpec WallSpec WallSpec2.

(** ** Numbering *)

Lemma wallName_inj : Inj (=) (=) wallName.
Proof.
  intros a b H. unfold wallName in H. cbn in H.
  injection H as H. exact (pretty_nat_inj _ _ H).
Qed.

Lemma Rising_nil lo hi : Rising lo hi [].
Proof. split; constructor. Qed.

Lemma Rising_seq (a n : nat) : Rising a (a + n) (seq a n).
Proof.
  revert a. induction n as [|n IH]; intros a; [apply Rising_nil|].
  destruct (IH (S a)) as [Hs Hb]. cbn [seq]. split.
  - constructor; [|exact Hs].
    eapply Forall_impl; [exact Hb|]. cbn. intros k Hk. lia.
  - constructor; [lia|].
    eapply Forall_impl; [exact Hb|]. cbn. intros k Hk. lia.
Qed.

Lemma Rising_weaken lo hi lo' hi' ks :
  (lo' <= lo)%nat -> (hi <= hi')%nat -> Rising lo hi ks -> Rising lo' hi' ks.
Proof.
  intros Hlo Hhi [Hs Hb]. split; [exact Hs|].
  eapply Forall_impl; [exact Hb|]. cbn. intros k Hk. lia.
Qed.

Lemma Rising_app a b c l1 l2 :
  (a <= b)%nat -> (b <= c)%nat ->
  Rising a b l1 -> Rising b c l2 -> Rising a c (l1 ++ l2).
Proof.
  intros Hab Hbc [Hs1 Hb1] [Hs2 Hb2]. split.
  - induction Hs1 as [|k l1 Hk Hs1 IH]; [exact Hs2|].
    cbn [app]. constructor.
    + apply Forall_app. split; [exact Hk|].
      apply Forall_cons_1 in Hb1 as [Hkb _].
      eapply Forall_impl; [exact Hb2|]. cbn. intros j Hj. lia.
    + apply IH. apply Forall_cons_1 in Hb1 as [_ Hb1]. exact Hb1.
  - apply Forall_app. split.
    + eapply Forall_impl; [exact Hb1|]. cbn. intros k Hk. lia.
    + eapply Forall_impl; [exact Hb2|]. cbn. intros k Hk. lia.
Qed.

Lemma Rising_NoDup lo hi ks : Rising lo hi ks -> NoDup ks.
Proof.
  intros [Hs _]. induction Hs as [|k ks Hk Hs IH]; constructor; [|exact IH].
  intros Hin. rewrite Forall_forall in Hk. apply Hk in Hin. lia.
Qed.

Lemma carve_ids (start end_ : Vec3) (axis : Axis)
    (color : option string) (openings : list Opening.t) :
  forall walls currentPos id,
  exists new final,
    foldl (carveStep start end_ axis color) (walls, currentPos, id) openings
    = (walls ++ new, final, (id + length new)%nat) /\
    GeometryWall.id <$> new = wallName <$> seq id (length new) /\
    (length new <= length openings)%nat.
Proof.
  induction openings as [|o openings IH]; intros walls currentPos id.
  - exists [], currentPos. cbn. rewrite app_nil_r, Nat.add_0_r. auto.
  - cbn [foldl]. unfold carveStep at 2.
    destruct (ltb currentPos (openingStart o)).
    + destruct (IH (walls ++ [mkWall id (withAxisCoord axis start currentPos)
                     (withAxisCoord axis end_ (openingStart o)) color])
                  (Math.max currentPos (openingEnd o)) (S id))
        as (new & final & Hfold & Hids & Hlen).
      eexists (_ :: new), final. rewrite Hfold.
      split; [|split].
      * rewrite <- app_assoc. cbn [app length].
        rewrite Nat.add_succ_r. reflexivity.
      * cbn [fmap list_fmap length seq]. cbn [fmap] in Hids. rewrite Hids.
        reflexivity.
      * cbn [length]. lia.
    + destruct (IH walls (Math.max currentPos (openingEnd o)) id)
        as (new & final & Hfold & Hids & Hlen).
      exists new, final. rewrite Hfold.
      split; [reflexivity|]. split; [exact Hids|]. cbn [length]. lia.
Qed.

Lemma createWall_ids walls startId (start end_ : Vec3) axis openings color :
  exists new,
    createWallWithOpenings walls startId start end_ axis openings color
      = walls ++ new /\
    GeometryWall.id <$> new = wallName <$> seq startId (length new) /\
    (length new <= length openings + 1)%nat.
Proof.
  destruct openings as [|o openings].
  - exists [mkWall startId start end_ color]. cbn. auto.
  - unfold createWallWithOpenings.
    destruct (carve_ids start end_ axis color (sortOpenings (o :: openings))
                walls (axisCoord axis start) startId)
      as (new & final & Hfold & Hids & Hlen).
    rewrite Hfold. rewrite Walls.sortOpenings_length in Hlen.
    destruct (ltb final (axisCoord axis end_)).
    + eexists (new ++ [_]). split; [rewrite app_assoc; reflexivity|].
      split.
      * rewrite fmap_app, Hids, length_app. cbn [length].
        rewrite Nat.add_1_r, seq_S, fmap_app. reflexivity.
      * rewrite length_app. cbn [length] in *. lia.
    + exists new. split; [reflexivity|]. split; [exact Hids|]. lia.
Qed.

Lemma roomWalls_ids (gridCorridors : list GridCorridor.t)
    (walls : list GeometryWall.t) (wallId : nat) (room : GridRoom.t) :
  exists new ks wallId',
    roomWalls gridCorridors (walls, wallId) room = (walls ++ new, wallId') /\
    GeometryWall.id <$> new = wallName <$> ks /\
    Rising wallId wallId' ks /\ (wallId <= wallId')%nat.
Proof.
  unfold roomWalls.
  set (style := getRoomStyle _). set (color := RoomStyle.wallColor <$> style).
  set (openings := findRoomOpenings room gridCorridors).
  set (minX := gridToWorldX (GridRoom.gridX room)).
  set (maxX := gridToWorldX (GridRoom.gridX room + GridRoom.width room)).
  set (minZ := gridToWorldZ (GridRoom.gridY room)).
  set (maxZ := gridToWorldZ (GridRoom.gridY room + GridRoom.height room)).
  set (n := length (sideOpenings north openings)).
  set (s := length (sideOpenings south openings)).
  set (w := length (sideOpenings west openings)).
  set (e := length (sideOpenings east openings)).
  destruct (createWall_ids walls wallId (minX, 0, minZ) (maxX, 0, minZ) AxisX
              (sideOpenings north openings) color)
    as (new1 & -> & Hid1 & Hlen1).
  destruct (createWall_ids (walls ++ new1) (wallId + (n + 1))
              (minX, 0, maxZ) (maxX, 0, maxZ) AxisX
              (sideOpenings south openings) color)
    as (new2 & -> & Hid2 & Hlen2).
  destruct (createWall_ids ((walls ++ new1) ++ new2) (wallId + (n + 1) + (s + 1))
              (minX, 0, minZ) (minX, 0, maxZ) AxisZ
              (sideOpenings west openings) color)
    as (new3 & -> & Hid3 & Hlen3).
  destruct (createWall_ids (((walls ++ new1) ++ new2) ++ new3)
              (wallId + (n + 1) + (s + 1) + (w + 1))
              (maxX, 0, minZ) (maxX, 0, maxZ) AxisZ
              (sideOpenings east openings) color)
    as (new4 & -> & Hid4 & Hlen4).
  fold n in Hlen1. fold s in Hlen2. fold w in Hlen3. fold e in Hlen4.
  exists (new1 ++ new2 ++ new3 ++ new4),
    (seq wallId (length new1)
     ++ seq (wallId + (n + 1)) (length new2)
     ++ seq (wallId + (n + 1) + (s + 1)) (length new3)
     ++ seq (wallId + (n + 1) + (s + 1) + (w + 1)) (length new4)),
    (wallId + (n + 1) + (s + 1) + (w + 1) + (e + 1))%nat.
  split; [rewrite <- !app_assoc; reflexivity|].
  split; [rewrite !fmap_app, Hid1, Hid2, Hid3, Hid4; reflexivity|].
  split; [|lia].
  apply (Rising_app _ (wallId + (n + 1))); [lia|lia| |].
  { eapply Rising_weaken; [| |apply Rising_seq]; lia. }
  apply (Rising_app _ (wallId + (n + 1) + (s + 1))); [lia|lia| |].
  { eapply Rising_weaken; [| |apply Rising_seq]; lia. }
  apply (Rising_app _ (wallId + (n + 1) + (s + 1) + (w + 1))); [lia|lia| |].
  { eapply Rising_weaken; [| |apply Rising_seq]; lia. }
  eapply Rising_weaken; [| |apply Rising_seq]; lia.
Qed.

Lemma wallsLoop_ids (gridCorridors : list GridCorridor.t)
    (gridRooms : list GridRoom.t) :
  forall walls wallId,
  exists new ks wallId',
    foldl (roomWalls gridCorridors) (walls, wallId) gridRooms
      = (walls ++ new, wallId') /\
    GeometryWall.id <$> new = wallName <$> ks /\
    Rising wallId wallId' ks /\ (wallId <= wallId')%nat.
Proof.
  induction gridRooms as [|room gridRooms IH]; intros walls wallId.
  - exists [], [], wallId. cbn. rewrite app_nil_r.
    split; [reflexivity|]. split; [reflexivity|]. split; [apply Rising_nil|lia].
  - cbn [foldl].
    destruct (roomWalls_ids gridCorridors walls wallId room)
      as (new1 & ks1 & mid & -> & Hid1 & Hr1 & Hle1).
    destruct (IH (walls ++ new1) mid) as (new2 & ks2 & final & -> & Hid2 & Hr2 & Hle2).
    exists (new1 ++ new2), (ks1 ++ ks2), final.
    split; [rewrite app_assoc; reflexivity|].
    split; [rewrite !fmap_app, Hid1, Hid2; reflexivity|].
    split; [|lia]. apply (Rising_app _ mid); assumption.
Qed.

(** X11.  The walls of a level carry ids wall_k whose numbers rise along the
    list, so no two walls share an id, whatever the rooms and corridors. *)
Theorem wall_ids_rise (gridRooms : list GridRoom.t)
    (gridCorridors : list GridCorridor.t) :
  exists ks,
    GeometryWall.id <$> buildGridWalls gridRooms gridCorridors
      = wallName <$> ks /\
    ForallOrdPairs lt ks /\
    NoDup (GeometryWall.id <$> buildGridWalls gridRooms gridCorridors).
Proof.
  unfold buildGridWalls.
  destruct (wallsLoop_ids gridCorridors gridRooms [] 0%nat)
    as (new & ks & final & -> & Hids & Hr & _).
  cbn [fst app]. exists ks. split; [exact Hids|]. split; [apply Hr|].
  rewrite Hids. apply (@NoDup_fmap_2 _ _ wallName wallName_inj).
  eapply Rising_NoDup. exact Hr.
Qed.

(** ** Rooms without a corridor *)

Lemma createWall_full walls startId (start end_ : Vec3) axis color :
  createWallWithOpenings walls startId start end_ axis [] color
  = walls ++ [mkWall startId start end_ color].
Proof. reflexivity. Qed.

Lemma roomWalls_closed (gridCorridors : list GridCorridor.t)
    (walls : list GeometryWall.t) (wallId : nat) (room : GridRoom.t) :
  findRoomOpenings room gridCorridors = [] ->
  roomWalls gridCorridors (walls, wallId) room
  = (walls ++ fullWalls wallId room, (wallId + 4)%nat).
Proof.
  intros H. unfold roomWalls. rewrite H. cbn [sideOpenings List.filter length].
  rewrite !createWall_full. unfold fullWalls. rewrite <- !app_assoc.
  cbn [app]. f_equal; [|lia].
  do 2 f_equal. repeat (f_equal; try lia).
Qed.

Lemma wallsLoop_closed (gridCorridors : list GridCorridor.t)
    (gridRooms : list GridRoom.t) :
  Forall (fun room => findRoomOpenings room gridCorridors = []) gridRooms ->
  forall walls wallId,
    foldl (roomWalls gridCorridors) (walls, wallId) gridRooms
    = (walls ++ mjoin (imap (fun i => fullWalls (wallId + 4 * i)) gridRooms),
       (wallId + 4 * length gridRooms)%nat).
Proof.
  induction 1 as [|room gridRooms Hroom _ IH]; intros walls wallId.
  - cbn. rewrite app_nil_r, Nat.add_0_r. reflexivity.
  - cbn [foldl]. rewrite (roomWalls_closed _ _ _ _ Hroom), IH.
    rewrite imap_cons. cbn [mjoin list_join length].
    rewrite <- app_assoc, Nat.add_0_r. f_equal; [|lia].
    do 3 f_equal. apply imap_ext. intros i r _. cbn. f_equal. lia.
Qed.

(** A tag that is a key [ROOM_STYLES] inherits ends the search for a
    style: what is read under it has no wall colour, whatever tags follow,
    and the four walls of a closed room carry none. *)
Lemma inherited_key_gives_no_colour (key : string) (rest : list string) :
  key ∈ ObjectPrototypeKeys ->
  RoomStyle.wallColor <$> getRoomStyle (key :: rest) = None.
Proof.
  intros Hkey. cbn [getRoomStyle].
  assert (Hown : ROOM_STYLES key = None).
  { unfold ObjectPrototypeKeys in Hkey.
    repeat (apply elem_of_cons in Hkey as [->|Hkey]; [reflexivity|]).
    inversion Hkey. }
  rewrite Hown, (bool_decide_eq_true_2 _ Hkey). reflexivity.
Qed.

Lemma inherited_key_walls_uncoloured :
  GeometryWall.color <$> fullWalls 4 MoreExamples.R9
  = [None; None; None; None].
Proof.
  unfold fullWalls. cbv zeta. cbn [fmap list_fmap GeometryWall.color mkWall].
  change (default [] (GridRoom.tags MoreExamples.R9))
    with ["constructor"%string; "entry"%string].
  rewrite inherited_key_gives_no_colour by (left; reflexivity).
  reflexivity.
Qed.

(** X12.  When no corridor opens a room of the level (there is none, or
    they name other rooms or do not touch), every room gets its four full
    walls, north, south, west, east, numbered four by four in the order
    of the rooms, in the wall colour read from the style of the room: none
    when the first tag that is a key of [ROOM_STYLES] is an inherited one. *)
Theorem closed_rooms_get_four_walls (gridRooms : list GridRoom.t)
    (gridCorridors : list GridCorridor.t) :
  Forall (fun room => findRoomOpenings room gridCorridors = []) gridRooms ->
  buildGridWalls gridRooms gridCorridors
  = mjoin (imap (fun i => fullWalls (4 * i)) gridRooms).
Proof.
  intros H. unfold buildGridWalls.
  rewrite (wallsLoop_closed _ _ H). reflexivity.
Qed.

Lemma closed_rooms_get_four_walls_witness :
  buildGridWalls [Examples.R1; MoreExamples.R9; Examples.R3]
    [Examples.rawCorridor "corr_9" "R7" "R8"]
  = fullWalls 0 Examples.R1 ++ fullWalls 4 MoreExamples.R9
    ++ fullWalls 8 Examples.R3.
Proof.
  apply (closed_rooms_get_four_walls
           [Examples.R1; MoreExamples.R9; Examples.R3]
           [Examples.rawCorridor "corr_9" "R7" "R8"]).
  repeat constructor.
Defined.

(** ** Doors *)




End WallsMore.

(** * Walls stay on the sides of their rooms *)

Module Sides.
Import LevelLayoutService AssemblyService CameraSpec WallSpec WallSpec3.

Lemma segmentOpenings_of (room : GridRoom.t) (widthM : Q)
    (seg : CorridorSegment.t) :
  0 <= widthM ->
  Forall (OpeningOf room)
    (segmentOpenings (GridRoom.gridX room)
       (GridRoom.gridX room + GridRoom.width room)
       (GridRoom.gridY room)
       (GridRoom.gridY room + GridRoom.height room) widthM seg).
Proof.
  intros Hw. unfold segmentOpenings.
  destruct (eqb _ _).
  - destruct (geb _ _ && leb _ _) eqn:E; [|constructor].
    apply andb_true_iff in E as [E1 E2].
    unfold geb in E1. apply leb_true in E1, E2.
    assert (H : OpeningOf room
                  (Opening.mk north
                     (gridToWorldX (CorridorSegment.startX seg)) widthM) /\
                OpeningOf room
                  (Opening.mk south
                     (gridToWorldX (CorridorSegment.startX seg)) widthM)).
    { unfold OpeningOf, worldMinX, worldMaxX, gridToWorldX, CELL_SIZE,
        GRID_CELL_SIZE. cbn [Opening.side Opening.position Opening.width].
      repeat split; try exact Hw; lra. }
    destruct H as [Hn Hs].
    apply Forall_app.
    split; (destruct (_ || _); [constructor; [assumption|constructor]|constructor]).
  - destruct (geb _ _ && leb _ _) eqn:E; [|constructor].
    apply andb_true_iff in E as [E1 E2].
    unfold geb in E1. apply leb_true in E1, E2.
    assert (H : OpeningOf room
                  (Opening.mk west
                     (gridToWorldZ (CorridorSegment.startY seg)) widthM) /\
                OpeningOf room
                  (Opening.mk east
                     (gridToWorldZ (CorridorSegment.startY seg)) widthM)).
    { unfold OpeningOf, worldMinZ, worldMaxZ, gridToWorldZ, CELL_SIZE,
        GRID_CELL_SIZE. cbn [Opening.side Opening.position Opening.width].
      repeat split; try exact Hw; lra. }
    destruct H as [Hn Hs].
    apply Forall_app.
    split; (destruct (_ || _); [constructor; [assumption|constructor]|constructor]).
Qed.

Lemma findRoomOpenings_of (room : GridRoom.t)
    (gridCorridors : list GridCorridor.t) :
  Forall (fun c => 0 <= num_or (GridCorridor.widthCells c) 1) gridCorridors ->
  Forall (OpeningOf room) (findRoomOpenings room gridCorridors).
Proof.
  intros Hc. unfold findRoomOpenings. cbv zeta. apply Forall_bind.
  eapply Forall_impl; [exact Hc|]. intros c Hw. unfold compose.
  cbv beta in Hw |- *.
  destruct (bool_decide _ && bool_decide _); [constructor|].
  apply Forall_bind. apply Forall_forall. intros seg _. unfold compose.
  apply segmentOpenings_of.
  unfold cellsToMeters, CELL_SIZE, GRID_CELL_SIZE. lra.
Qed.

Lemma sideOpenings_of (room : GridRoom.t) (s : Side)
    (openings : list Opening.t) :
  Forall (OpeningOf room) openings ->
  Forall (fun o => OpeningOf room o /\ Opening.side o = s)
    (sideOpenings s openings).
Proof.
  induction 1 as [|o openings Ho _ IH]; [constructor|].
  cbn [sideOpenings List.filter].
  destruct (bool_decide (Opening.side o = s)) eqn:E; [|exact IH].
  apply bool_decide_eq_true_1 in E. constructor; [split; assumption|exact IH].
Qed.

Lemma carve_pieces (start end_ : Vec3) (axis : Axis) (color : option string)
    (lo hi : Q) (openings : list Opening.t) :
  Forall (fun o => 0 <= Opening.width o /\ Opening.position o <= hi) openings ->
  forall walls currentPos id,
    lo <= currentPos ->
    exists new final id',
      foldl (carveStep start end_ axis color) (walls, currentPos, id) openings
      = (walls ++ new, final, id') /\
      Forall (Piece axis start end_ lo hi color) new /\
      lo <= final.
Proof.
  induction 1 as [|o openings [Hw Hp] _ IH]; intros walls currentPos id Hlo.
  - exists [], currentPos, id. cbn. rewrite app_nil_r.
    split; [reflexivity|]. split; [constructor|exact Hlo].
  - cbn [foldl]. unfold carveStep at 2.
    assert (Hnext : lo <= Math.max currentPos (openingEnd o)).
    { unfold Math.max. pose proof (Walls.Qmax_ge_l currentPos (openingEnd o)).
      lra. }
    destruct (ltb currentPos (openingStart o)) eqn:E.
    + apply ltb_true in E.
      destruct (IH (walls ++ [mkWall id (withAxisCoord axis start currentPos)
                     (withAxisCoord axis end_ (openingStart o)) color])
                  (Math.max currentPos (openingEnd o)) (S id) Hnext)
        as (new & final & id' & Hfold & Hnew & Hfinal).
      eexists (_ :: new), final, id'. rewrite Hfold, <- app_assoc.
      split; [reflexivity|]. split; [|exact Hfinal].
      constructor; [|exact Hnew].
      exists currentPos, (openingStart o). cbn [mkWall GeometryWall.start
        GeometryWall.end_ GeometryWall.height GeometryWall.color].
      split; [reflexivity|]. split; [reflexivity|].
      split; [exact Hlo|]. split; [exact E|].
      split; [unfold openingStart; qlra|]. split; reflexivity.
    + destruct (IH walls (Math.max currentPos (openingEnd o)) id Hnext)
        as (new & final & id' & Hfold & Hnew & Hfinal).
      exists new, final, id'. rewrite Hfold.
      split; [reflexivity|]. split; assumption.
Qed.

Lemma withAxisCoord_axisCoord (axis : Axis) (v : Vec3) :
  withAxisCoord axis v (axisCoord axis v) = v.
Proof. destruct v as [[x y] z], axis; reflexivity. Qed.

Lemma createWall_pieces walls startId (start end_ : Vec3) axis openings color :
  axisCoord axis start < axisCoord axis end_ ->
  Forall (fun o => 0 <= Opening.width o /\
                   Opening.position o <= axisCoord axis end_) openings ->
  exists new,
    createWallWithOpenings walls startId start end_ axis openings color
      = walls ++ new /\
    Forall (Piece axis start end_ (axisCoord axis start) (axisCoord axis end_)
              color) new.
Proof.
  intros Hside Hop. destruct openings as [|o openings].
  - eexists. split; [reflexivity|]. constructor; [|constructor].
    exists (axisCoord axis start), (axisCoord axis end_).
    rewrite !withAxisCoord_axisCoord. cbn. repeat split; try reflexivity.
    + apply Qle_refl.
    + exact Hside.
    + apply Qle_refl.
  - unfold createWallWithOpenings.
    destruct (carve_pieces start end_ axis color (axisCoord axis start)
                (axisCoord axis end_) (sortOpenings (o :: openings))
                (Walls.sortOpenings_Forall _ _ Hop)
                walls (axisCoord axis start) startId (Qle_refl _))
      as (new & final & id' & Hfold & Hnew & Hfinal).
    rewrite Hfold.
    destruct (ltb final (axisCoord axis end_)) eqn:E.
    + apply ltb_true in E. eexists (new ++ [_]).
      split; [rewrite app_assoc; reflexivity|].
      apply Forall_app. split; [exact Hnew|]. constructor; [|constructor].
      exists final, (axisCoord axis end_). cbn.
      repeat split; try reflexivity; try assumption. apply Qle_refl.
    + exists new. split; [reflexivity|exact Hnew].
Qed.

Lemma roomWalls_sides (gridCorridors : list GridCorridor.t)
    (walls : list GeometryWall.t) (wallId : nat) (room : GridRoom.t) :
  0 < GridRoom.width room -> 0 < GridRoom.height room ->
  Forall (fun c => 0 <= num_or (GridCorridor.widthCells c) 1) gridCorridors ->
  exists new wallId',
    roomWalls gridCorridors (walls, wallId) room = (walls ++ new, wallId') /\
    Forall (WallOf room) new.
Proof.
  intros Hw Hh Hc. unfold roomWalls.
  pose proof (findRoomOpenings_of room gridCorridors Hc) as Hop.
  set (openings := findRoomOpenings room gridCorridors) in *.
  set (color := RoomStyle.wallColor <$> _).
  fold (worldMinX room) (worldMaxX room) (worldMinZ room) (worldMaxZ room).
  assert (HX : worldMinX room < worldMaxX room).
  { unfold worldMinX, worldMaxX, gridToWorldX, CELL_SIZE, GRID_CELL_SIZE. lra. }
  assert (HZ : worldMinZ room < worldMaxZ room).
  { unfold worldMinZ, worldMaxZ, gridToWorldZ, CELL_SIZE, GRID_CELL_SIZE. lra. }
  assert (Hside : forall s,
            Forall (fun o => 0 <= Opening.width o /\
                      Opening.position o <=
                        match s with
                        | north | south => worldMaxX room
                        | west | east => worldMaxZ room
                        end) (sideOpenings s openings)).
  { intros s. eapply Forall_impl; [apply sideOpenings_of, Hop|].
    cbn beta. intros o [[Hwo Hpos] <-]. split; [exact Hwo|].
    destruct (Opening.side o); apply Hpos. }
  destruct (createWall_pieces walls wallId
              (worldMinX room, 0, worldMinZ room)
              (worldMaxX room, 0, worldMinZ room) AxisX
              (sideOpenings north openings) color HX (Hside north))
    as (new1 & -> & H1).
  destruct (createWall_pieces (walls ++ new1)
              (wallId + (length (sideOpenings north openings) + 1))
              (worldMinX room, 0, worldMaxZ room)
              (worldMaxX room, 0, worldMaxZ room) AxisX
              (sideOpenings south openings) color HX (Hside south))
    as (new2 & -> & H2).
  destruct (createWall_pieces ((walls ++ new1) ++ new2)
              (wallId + (length (sideOpenings north openings) + 1)
               + (length (sideOpenings south openings) + 1))
              (worldMinX room, 0, worldMinZ room)
              (worldMinX room, 0, worldMaxZ room) AxisZ
              (sideOpenings west openings) color HZ (Hside west))
    as (new3 & -> & H3).
  destruct (createWall_pieces (((walls ++ new1) ++ new2) ++ new3)
              (wallId + (length (sideOpenings north openings) + 1)
               + (length (sideOpenings south openings) + 1)
               + (length (sideOpenings west openings) + 1))
              (worldMaxX room, 0, worldMinZ room)
              (worldMaxX room, 0, worldMaxZ room) AxisZ
              (sideOpenings east openings) color HZ (Hside east))
    as (new4 & -> & H4).
  eexists (new1 ++ new2 ++ new3 ++ new4), _.
  split; [rewrite <- !app_assoc; reflexivity|].
  repeat (apply Forall_app; split).
  - eapply Forall_impl; [exact H1|]. cbn beta.
    intros wall (a & b & Hs & He & Ha & Hab & Hb & Hht & Hcol).
    split; [|split; assumption]. unfold OnSide. rewrite Hs, He.
    cbn [withAxisCoord fst snd axisCoord] in *.
    split; [reflexivity|]. split; [reflexivity|]. left. auto 10.
  - eapply Forall_impl; [exact H2|]. cbn beta.
    intros wall (a & b & Hs & He & Ha & Hab & Hb & Hht & Hcol).
    split; [|split; assumption]. unfold OnSide. rewrite Hs, He.
    cbn [withAxisCoord fst snd axisCoord] in *.
    split; [reflexivity|]. split; [reflexivity|]. left. auto 10.
  - eapply Forall_impl; [exact H3|]. cbn beta.
    intros wall (a & b & Hs & He & Ha & Hab & Hb & Hht & Hcol).
    split; [|split; assumption]. unfold OnSide. rewrite Hs, He.
    cbn [withAxisCoord fst snd axisCoord] in *.
    split; [reflexivity|]. split; [reflexivity|]. right. auto 10.
  - eapply Forall_impl; [exact H4|]. cbn beta.
    intros wall (a & b & Hs & He & Ha & Hab & Hb & Hht & Hcol).
    split; [|split; assumption]. unfold OnSide. rewrite Hs, He.
    cbn [withAxisCoord fst snd axisCoord] in *.
    split; [reflexivity|]. split; [reflexivity|]. right. auto 10.
Qed.

Lemma wallsLoop_sides (gridCorridors : list GridCorridor.t)
    (gridRooms : list GridRoom.t) :
  Forall (fun room => 0 < GridRoom.width room /\ 0 < GridRoom.height room)
    gridRooms ->
  Forall (fun c => 0 <= num_or (GridCorridor.widthCells c) 1) gridCorridors ->
  forall walls wallId,
  exists new wallId',
    foldl (roomWalls gridCorridors) (walls, wallId) gridRooms
      = (walls ++ new, wallId') /\
    Forall (fun wall => exists room, room ∈ gridRooms /\ WallOf room wall) new.
Proof.
  intros Hrooms Hc.
  induction Hrooms as [|room gridRooms [Hw Hh] _ IH]; intros walls wallId.
  - exists [], wallId. cbn. rewrite app_nil_r. split; [reflexivity|constructor].
  - cbn [foldl].
    destruct (roomWalls_sides gridCorridors walls wallId room Hw Hh Hc)
      as (new1 & mid & -> & H1).
    destruct (IH (walls ++ new1) mid) as (new2 & final & -> & H2).
    exists (new1 ++ new2), final.
    split; [rewrite app_assoc; reflexivity|].
    apply Forall_app. split.
    + eapply Forall_impl; [exact H1|]. cbn beta. intros wall Hwall.
      exists room. split; [left|exact Hwall].
    + eapply Forall_impl; [exact H2|]. cbn beta.
      intros wall (r & Hr & Hwall). exists r. split; [right; exact Hr|exact Hwall].
Qed.

(** X14.  When the rooms have a positive width and height and no corridor
    has a negative width, every wall of the level lies on a side of one of
    the rooms, whatever the corridors: it runs along the side with a
    positive length, between the two ends of the side, at floor level, and
    has the height of a wall and the wall colour read from the style found
    for that room, none when the first tag that is a key of [ROOM_STYLES] is
    an inherited one. *)
Theorem walls_stay_on_room_sides (gridRooms : list GridRoom.t)
    (gridCorridors : list GridCorridor.t) :
  Forall (fun room => 0 < GridRoom.width room /\ 0 < GridRoom.height room)
    gridRooms ->
  Forall (fun c => 0 <= num_or (GridCorridor.widthCells c) 1) gridCorridors ->
  Forall (fun wall => exists room, room ∈ gridRooms /\ WallOf room wall)
    (buildGridWalls gridRooms gridCorridors).
Proof.
  intros Hrooms Hc. unfold buildGridWalls.
  destruct (wallsLoop_sides gridCorridors gridRooms Hrooms Hc [] 0%nat)
    as (new & final & -> & H).
  exact H.
Qed.

Lemma walls_stay_on_room_sides_witness :
  Forall (fun wall =>
            exists room, room ∈ [WallExamples.upper; WallExamples.lower] /\
                         WallOf room wall)
    (buildGridWalls [WallExamples.upper; WallExamples.lower]
       [WallExamples.corridor]).
Proof.
  apply (walls_stay_on_room_sides [WallExamples.upper; WallExamples.lower]
           [WallExamples.corridor]).
  - repeat constructor.
  - repeat constructor. vm_compute. congruence.
Defined.

End Sides.

(** * Floors, ribbons, camera and lights *)

Module Geometry.
Import LevelLayoutService AssemblyService CameraSpec GeometrySpec.

(** X15.  The floors follow the rooms one for one, in order: each floor
    carries the id and tags of its room, and its rectangle, centred on its
    position, is the world rectangle of the room, the one the walls of the
    room enclose. *)
Theorem floors_cover_rooms (gridRooms : list GridRoom.t) :
  Forall2 FloorOf gridRooms (buildGridRooms gridRooms).
Proof.
  unfold buildGridRooms. apply Forall2_fmap_r, Forall_Forall2_diag.
  apply Forall_forall. intros room _. unfold FloorOf. cbv beta zeta.
  cbn [GeometryRoom.position GeometryRoom.size GeometryRoom.id
       GeometryRoom.tags].
  unfold worldMinX, worldMaxX, worldMinZ, worldMaxZ, gridToWorldX,
    gridToWorldZ, cellsToMeters, CELL_SIZE, GRID_CELL_SIZE.
  repeat split; try reflexivity; qlra.
Qed.

Lemma convertCorridorSegments_ends (corridor : GridCorridor.t) :
  exists first final,
    head (convertCorridorSegments corridor) = Some first /\
    last (convertCorridorSegments corridor) = Some final.
Proof.
  unfold convertCorridorSegments.
  destruct (GridCorridor.segments corridor) as [[|seg segs]|];
    try (eexists _, _; split; reflexivity).
  rewrite fmap_cons. eexists. cbn [head].
  destruct (last_is_Some
              ((fun seg : CorridorSegment.t =>
                  segmentToWorld
                    (CorridorSegment.startX seg) (CorridorSegment.startY seg)
                    (CorridorSegment.endX seg) (CorridorSegment.endY seg))
                 <$> (seg :: segs))) as [_ H].
  destruct H as [final H]; [discriminate|].
  exists final. split; [reflexivity|]. rewrite fmap_cons in H. exact H.
Qed.

(** X16.  The ribbons follow the corridors one for one, in order.  A ribbon
    always has a segment, so its two legacy ends are always defined: the
    segments are those of the corridor in world coordinates, or, for a
    corridor without segments, the one segment between its legacy ends, a
    missing coordinate read as 0. *)
Theorem ribbons_follow_corridors (gridCorridors : list GridCorridor.t) :
  Forall2 RibbonOf gridCorridors (buildGridCorridors gridCorridors).
Proof.
  unfold buildGridCorridors. apply Forall2_fmap_r, Forall_Forall2_diag.
  apply Forall_forall. intros corridor _. unfold RibbonOf. cbv beta zeta.
  cbn [GeometryCorridor.id GeometryCorridor.width GeometryCorridor.segments
       GeometryCorridor.start GeometryCorridor.end_].
  split; [reflexivity|]. split; [reflexivity|]. split; [|split].
  - destruct (convertCorridorSegments_ends corridor) as (first & final & Hh & Hl).
    exists first, final. cbn -[convertCorridorSegments].
    rewrite Hh, Hl. repeat split; reflexivity.
  - intros segs Hsegs Hne. unfold convertCorridorSegments. rewrite Hsegs.
    destruct segs; [congruence|reflexivity].
  - intros Hempty. unfold convertCorridorSegments.
    destruct (GridCorridor.segments corridor) as [[|seg segs]|];
      [reflexivity|discriminate|reflexivity].
Qed.

(** X17.  For a level with a room at least, the camera is well defined: it
    looks at its orbit target from straight behind, stands 20 m or more
    behind the far side of every room, 30 m high or more and at least 0.8
    times as high as any room is wide or deep; the orbit limit is 80 m or
    more, above the lower limit of 10 m. *)
Theorem camera_stands_behind_and_above (level : GridLevelData.t)
    (rooms : list GridRoom.t) :
  GridLevelData.rooms level = Some rooms ->
  rooms <> [] ->
  exists camera px py pz tx tz far,
    configureGridCamera level = inr camera /\
    CameraConfig.default_position camera = (xFin px, xFin py, xFin pz) /\
    CameraConfig.orbit_target camera = (xFin tx, xFin 0, xFin tz) /\
    CameraConfig.default_look_at camera = CameraConfig.orbit_target camera /\
    CameraConfig.max_distance camera = xFin far /\
    px = tx /\ 30 <= py /\ 80 <= far /\
    CameraConfig.min_distance camera < far /\
    Forall (fun room =>
              worldMaxZ room + 20 <= pz /\
              (8 # 10) * (worldMaxX room - worldMinX room) <= py /\
              (8 # 10) * (worldMaxZ room - worldMinZ room) <= py) rooms.
Proof.
  intros Hrooms Hne.
  destruct (Camera.levelBounds_box rooms Hne) as (a & b & c & d & Hb & Hbox).
  unfold configureGridCamera. rewrite Hrooms.
  cbn [get mbind result_bind mret result_ret]. rewrite Hb.
  cbn [xadd xsub xneg xmax xmul xdiv]. unfold Math.max.
  eexists _, _, _, _, _, _, _. split; [reflexivity|].
  cbn [CameraConfig.default_position CameraConfig.orbit_target
       CameraConfig.default_look_at CameraConfig.max_distance
       CameraConfig.min_distance].
  split; [reflexivity|]. split; [reflexivity|]. split; [reflexivity|].
  split; [reflexivity|]. split; [reflexivity|].
  pose proof (Q.le_max_l 30 (Qmax (b + - a) (d + - c) * (8 # 10))) as H30.
  pose proof (Q.le_max_r 30 (Qmax (b + - a) (d + - c) * (8 # 10))) as Hext.
  pose proof (Q.le_max_l (b + - a) (d + - c)) as Hw.
  pose proof (Q.le_max_r (b + - a) (d + - c)) as Hd.
  pose proof (Q.le_max_l 40 (d + - c)) as H40.
  split; [exact H30|]. split; [lra|]. split; [lra|].
  apply Forall_forall. intros room Hin.
  destruct Hbox as (Hall & _). apply list_elem_of_In in Hin.
  destruct (Hall room Hin) as (H1 & H2 & H3 & H4).
  split; [|split]; lra.
Qed.

Lemma camera_stands_behind_and_above_witness :
  exists camera px py pz tx tz far,
    configureGridCamera AssemblyExamples.level = inr camera /\
    CameraConfig.default_position camera = (xFin px, xFin py, xFin pz) /\
    CameraConfig.orbit_target camera = (xFin tx, xFin 0, xFin tz) /\
    CameraConfig.default_look_at camera = CameraConfig.orbit_target camera /\
    CameraConfig.max_distance camera = xFin far /\
    px = tx /\ 30 <= py /\ 80 <= far /\
    CameraConfig.min_distance camera < far /\
    Forall (fun room =>
              worldMaxZ room + 20 <= pz /\
              (8 # 10) * (worldMaxX room - worldMinX room) <= py /\
              (8 # 10) * (worldMaxZ room - worldMinZ room) <= py)
      [Examples.R1; Examples.R3].
Proof.
  apply (camera_stands_behind_and_above AssemblyExamples.level
           [Examples.R1; Examples.R3] eq_refl).
  discriminate.
Defined.

(** X18.  For a level without a room the bounds stay at their infinite
    start values: the camera target is not a number, the camera stands at
    minus infinity behind, 30 m high, and the orbit limit is 80 m. *)
Theorem camera_of_empty_level (level : GridLevelData.t) :
  GridLevelData.rooms level = Some [] ->
  exists far,
    far == 80 /\
    configureGridCamera level = inr
      {| CameraConfig.default_position := (xNaN, xFin 30, xNegInf);
         CameraConfig.default_look_at := (xNaN, xFin 0, xNaN);
         CameraConfig.default_fov := 60;
         CameraConfig.orbit_target := (xNaN, xFin 0, xNaN);
         CameraConfig.min_distance := 10;
         CameraConfig.max_distance := xFin far |}.
Proof.
  intros Hrooms. unfold configureGridCamera. rewrite Hrooms.
  eexists. split; [|reflexivity]. reflexivity.
Qed.

Lemma camera_of_empty_level_witness :
  exists far,
    far == 80 /\
    configureGridCamera (Examples.levelOf [] [] None) = inr
      {| CameraConfig.default_position := (xNaN, xFin 30, xNegInf);
         CameraConfig.default_look_at := (xNaN, xFin 0, xNaN);
         CameraConfig.default_fov := 60;
         CameraConfig.orbit_target := (xNaN, xFin 0, xNaN);
         CameraConfig.min_distance := 10;
         CameraConfig.max_distance := xFin far |}.
Proof.
  apply (camera_of_empty_level (Examples.levelOf [] [] None) eq_refl).
Defined.

End Geometry.

(** * Lights and the assembled scene *)

Module Lighting.
Import AssemblyService.

Lemma toLowerCase_app (a b : string) :
  toLowerCase (a +:+ b) = toLowerCase a +:+ toLowerCase b.
Proof.
  induction a as [|c a IH]; [reflexivity|].
  change (toLowerCase (String c a +:+ b))
    with (String (lowerChar c) (toLowerCase (a +:+ b))).
  rewrite IH. reflexivity.
Qed.

Lemma prefix_app (n a b : string) :
  String.prefix n a = true -> String.prefix n (a +:+ b) = true.
Proof.
  revert a. induction n as [|c n IH]; intros a H;
    [destruct (a +:+ b); reflexivity|].
  destruct a as [|d a]; [discriminate|].
  change (String d a +:+ b) with (String d (a +:+ b)).
  cbn [String.prefix] in H |- *.
  destruct (ascii_dec c d); [apply IH; exact H|discriminate].
Qed.

Lemma includes_app_l (n a b : string) :
  includes n a = true -> includes n (a +:+ b) = true.
Proof.
  induction a as [|c a IH]; intros H.
  - cbn in H. rewrite orb_false_r in H.
    destruct n; [|discriminate]. destruct b; reflexivity.
  - cbn [includes] in H. apply orb_true_iff in H as [H|H].
    + pose proof (prefix_app _ (String c a) b H) as Hp.
      change (String c a +:+ b) with (String c (a +:+ b)) in Hp |- *.
      cbn [includes]. rewrite Hp. reflexivity.
    + change (String c a +:+ b) with (String c (a +:+ b)).
      cbn [includes]. rewrite (IH H). apply orb_true_r.
Qed.

Lemma includes_app_r (n a b : string) :
  includes n b = true -> includes n (a +:+ b) = true.
Proof.
  intros H. induction a as [|c a IH]; [exact H|].
  change (String c a +:+ b) with (String c (a +:+ b)).
  cbn [includes]. rewrite IH. apply orb_true_r.
Qed.

(** X19.  When the lighting or the time of day of the environment names
    the night, in whatever case, the scene gets the night lights, whatever
    else the two texts say: a bluish ambient light of intensity 0.5 and a
    moonlight of intensity 0.7. *)
Theorem night_sets_the_lights (environment : Environment.t) :
  includes "night" (toLowerCase (Environment.lighting environment)) = true \/
  includes "night" (toLowerCase (Environment.time_of_day environment)) = true ->
  configureLighting environment
  = ({| LightConfig.color := "#4a4a6e"; LightConfig.intensity := 5 # 10 |},
     {| DirectionalLightConfig.color := "#8aacdf";
        DirectionalLightConfig.intensity := 7 # 10;
        DirectionalLightConfig.position := (10, 20, 10) |}).
Proof.
  intros H. unfold configureLighting.
  assert (Hn : includes "night"
                 (toLowerCase (Environment.lighting environment +:+ " "
                               +:+ Environment.time_of_day environment)) = true).
  { rewrite !toLowerCase_app. destruct H as [H|H].
    - apply includes_app_l. exact H.
    - apply includes_app_r, includes_app_r. exact H. }
  rewrite Hn. rewrite orb_true_r. reflexivity.
Qed.

Lemma night_sets_the_lights_witness :
  configureLighting MoreExamples.torchlitNight
  = ({| LightConfig.color := "#4a4a6e"; LightConfig.intensity := 5 # 10 |},
     {| DirectionalLightConfig.color := "#8aacdf";
        DirectionalLightConfig.intensity := 7 # 10;
        DirectionalLightConfig.position := (10, 20, 10) |}).
Proof.
  apply (night_sets_the_lights MoreExamples.torchlitNight).
  right. vm_compute. reflexivity.
Defined.

(** X20.  Whatever the environment says, the lights stay on: the ambient
    intensity lies between 0.5 and 0.8, the directional one between 0.7 and
    1.2, and the directional light shines from (10, 20, 10). *)
Theorem lights_stay_on (environment : Environment.t) :
  let ambient := (configureLighting environment).1 in
  let directional := (configureLighting environment).2 in
  5 # 10 <= LightConfig.intensity ambient <= 8 # 10 /\
  7 # 10 <= DirectionalLightConfig.intensity directional <= 12 # 10 /\
  DirectionalLightConfig.position directional = (10, 20, 10).
Proof.
  unfold configureLighting.
  set (combined := toLowerCase _).
  destruct (includes "dark" combined || includes "night" combined);
    destruct (includes "torch" combined || includes "fire" combined);
    destruct (includes "neon" combined || includes "cyber" combined);
    destruct (includes "night" combined || includes "moon" combined);
    destruct (includes "dawn" combined || includes "dusk" combined);
    destruct (includes "indoor" combined);
    cbn; repeat split; discriminate.
Qed.

End Lighting.

Module Scene.
Import LevelLayoutService AssemblyService RepairSpec RepairSpec2 PlacementSpec.

Lemma buildGridPOIs_types (pois : list GridPOI.t) (rooms : list GridRoom.t) :
  GeometryPOI.type <$> buildGridPOIs pois rooms = GridPOI.type <$> pois.
Proof.
  unfold buildGridPOIs. rewrite <- list_fmap_compose. apply list_fmap_ext.
  intros i poi _. cbn. destruct (List.find _ rooms); reflexivity.
Qed.

Lemma hasType_elem (ty : POIType) (pois : list GridPOI.t) :
  hasType ty pois = true -> ty ∈ GridPOI.type <$> pois.
Proof.
  unfold hasType. intros H. apply existsb_exists in H as (p & Hin & Hp).
  apply bool_decide_eq_true_1 in Hp. subst ty.
  apply list_elem_of_fmap. exists p. split; [reflexivity|].
  apply list_elem_of_In. exact Hin.
Qed.

Lemma repaired_pois_have_both (rooms : list GridRoom.t)
    (pois : option (list GridPOI.t)) (defaults : list GridPOI.t) :
  rooms <> [] ->
  generateDefaultPOIs rooms = inr defaults ->
  hasType spawn (default defaults (keptPOIs pois)) = true /\
  hasType goal (default defaults (keptPOIs pois)) = true.
Proof.
  intros Hne Hdef. unfold keptPOIs.
  destruct pois as [ps|].
  - destruct ((2 <=? length ps)%nat && hasType spawn ps && hasType goal ps) eqn:E.
    + apply andb_true_iff in E as [E Hg]. apply andb_true_iff in E as [_ Hs].
      split; assumption.
    + destruct (Repair.generateDefaultPOIs_ok rooms Hne) as (e & g & _ & _ & H).
      rewrite H in Hdef. injection Hdef as <-. apply Repair.hasType_defaults.
  - destruct (Repair.generateDefaultPOIs_ok rooms Hne) as (e & g & _ & _ & H).
    rewrite H in Hdef. injection Hdef as <-. apply Repair.hasType_defaults.
Qed.

Lemma Rebuilt_ids (raws fixeds : list GridCorridor.t) :
  Forall2 Rebuilt raws fixeds ->
  GridCorridor.id <$> fixeds = GridCorridor.id <$> raws.
Proof.
  induction 1 as [|raw fixed raws fixeds (Hid & _) _ IH]; [reflexivity|].
  cbn. rewrite Hid. f_equal. exact IH.
Qed.

Lemma assemble_ok (context : GameContext.t) (environment : Environment.t)
    (layout : LevelLayout.t) (assets : list GeneratedAsset.t)
    (skybox : option GeneratedSkybox.t)
    (level : GridLevelData.t) (rooms : list GridRoom.t)
    (pois : list GridPOI.t) :
  LevelLayout.level layout = Some level ->
  GridLevelData.rooms level = Some rooms ->
  GridLevelData.pois level = Some pois ->
  exists scene,
    assemble context environment layout assets skybox = inr scene /\
    SceneConfig.geometry scene
    = {| SceneGeometry.rooms := buildGridRooms rooms;
         SceneGeometry.corridors :=
           buildGridCorridors (GridLevelData.corridors level);
         SceneGeometry.walls :=
           buildGridWalls rooms (GridLevelData.corridors level);
         SceneGeometry.poi_markers := buildGridPOIs pois rooms |} /\
    positionGridObjects level assets context = inr (SceneConfig.objects scene) /\
    configureGridCamera level = inr (SceneConfig.camera scene) /\
    configureLighting environment
    = (SceneConfig.ambient_light scene, SceneConfig.directional_light scene).
Proof.
  intros Hl Hr Hp. unfold assemble. rewrite Hl.
  cbn [get mbind result_bind mret result_ret].
  unfold buildGridGeometry. rewrite Hr, Hp.
  cbn [get mbind result_bind mret result_ret].
  unfold positionGridObjects. rewrite Hr, Hp.
  cbn [get mbind result_bind mret result_ret].
  unfold configureGridCamera. rewrite Hr.
  cbn [get mbind result_bind mret result_ret].
  destruct (levelBounds rooms) as [[[minX maxX] minZ] maxZ].
  cbn [get mbind result_bind mret result_ret].
  eexists. split; [reflexivity|].
  cbn [SceneConfig.geometry SceneConfig.objects SceneConfig.camera
       SceneConfig.ambient_light SceneConfig.directional_light].
  split; [reflexivity|]. split; [reflexivity|]. split; [reflexivity|].
  destruct (configureLighting environment). reflexivity.
Qed.

(** X21.  Assembling fails when the layout has no level or the level lacks
    its rooms or its points of interest, with a type error, and on no other
    input (the context having its environment and characters, and the
    corridors of the level being a list, as the data model has them). *)
Theorem assemble_failure (context : GameContext.t)
    (environment : Environment.t) (layout : LevelLayout.t)
    (assets : list GeneratedAsset.t) (skybox : option GeneratedSkybox.t)
    (e : exn) :
  assemble context environment layout assets skybox = inl e <->
  e = TypeError /\
  (LevelLayout.level layout = None \/
   exists level,
     LevelLayout.level layout = Some level /\
     (GridLevelData.rooms level = None \/ GridLevelData.pois level = None)).
Proof.
  destruct (LevelLayout.level layout) as [level|] eqn:Hl.
  - destruct (GridLevelData.rooms level) as [rooms|] eqn:Hr.
    + destruct (GridLevelData.pois level) as [pois|] eqn:Hp.
      * destruct (assemble_ok context environment layout assets skybox
                    level rooms pois Hl Hr Hp) as (scene & -> & _).
        split; [discriminate|].
        intros (_ & [[=]|(level' & [= <-] & [H|H])]); congruence.
      * unfold assemble. rewrite Hl.
        cbn [get mbind result_bind mret result_ret].
        unfold buildGridGeometry. rewrite Hr, Hp.
        cbn [get mbind result_bind mret result_ret throw]. split.
        -- intros [= <-]. split; [reflexivity|]. right. exists level. auto.
        -- intros (-> & _). reflexivity.
    + unfold assemble. rewrite Hl.
      cbn [get mbind result_bind mret result_ret].
      unfold buildGridGeometry. rewrite Hr.
      cbn [get mbind result_bind mret result_ret throw]. split.
      * intros [= <-]. split; [reflexivity|]. right. exists level. auto.
      * intros (-> & _). reflexivity.
  - unfold assemble. rewrite Hl.
    cbn [get mbind result_bind mret result_ret throw]. split.
    + intros [= <-]. auto.
    + intros (-> & _). reflexivity.
Qed.

(** X22.  A repaired layout always assembles.  The scene has one floor per
    room, in order and under the ids of the rooms, one ribbon per corridor
    whose two ends name a room, a spawn marker and a goal marker, and one
    object per asset that is ready and has a path. *)
Theorem repaired_layout_assembles (context : GameContext.t)
    (environment : Environment.t) (layout : LevelLayout.t)
    (assets : list GeneratedAsset.t) (skybox : option GeneratedSkybox.t)
    (level : GridLevelData.t) (rawRooms : list GridRoom.t) :
  LevelLayout.level layout = Some level ->
  GridLevelData.rooms level = Some rawRooms ->
  (2 <= length rawRooms)%nat ->
  exists repaired scene,
    validateAndFixLayout layout = inr repaired /\
    assemble context environment repaired assets skybox = inr scene /\
    GeometryRoom.id <$> SceneGeometry.rooms (SceneConfig.geometry scene)
      = GridRoom.id <$> rawRooms /\
    GeometryCorridor.id <$> SceneGeometry.corridors (SceneConfig.geometry scene)
      = GridCorridor.id <$>
          List.filter (resolves (GridRoom.id <$> rawRooms))
                      (GridLevelData.corridors level) /\
    spawn ∈ GeometryPOI.type <$>
              SceneGeometry.poi_markers (SceneConfig.geometry scene) /\
    goal ∈ GeometryPOI.type <$>
             SceneGeometry.poi_markers (SceneConfig.geometry scene) /\
    SceneObject.reference_id <$> SceneConfig.objects scene
      = GeneratedAsset.id <$> List.filter usable assets.
Proof.
  intros Hl Hr Hlen.
  destruct (Repair.validateAndFixLayout_ok _ _ _ Hl Hr Hlen)
    as (defaults & Hdef & Hfix).
  rewrite Hfix.
  match goal with
  | |- context [inr ?r = inr _] =>
      destruct (assemble_ok context environment r assets skybox _ _ _
                  eq_refl eq_refl eq_refl) as (scene & Hscene & Hg & Ho & _)
  end.
  eexists _, scene. split; [reflexivity|]. split; [exact Hscene|].
  rewrite Hg.
  cbn [SceneGeometry.rooms SceneGeometry.corridors SceneGeometry.poi_markers
       GridLevelData.corridors].
  assert (Hne : fixRoom <$> rawRooms <> []).
  { destruct rawRooms; [cbn in Hlen; lia|discriminate]. }
  destruct (repaired_pois_have_both _ (GridLevelData.pois level) _ Hne Hdef)
    as (Hs & Hgo).
  split; [|split; [|split; [|split]]].
  - rewrite <- (RepairMore.fixRoom_ids rawRooms).
    unfold buildGridRooms. rewrite <- list_fmap_compose. reflexivity.
  - unfold buildGridCorridors. rewrite <- list_fmap_compose.
    pose proof (RepairMore.fixCorridors_filter (fixRoom <$> rawRooms)
                  (GridLevelData.corridors level)) as HF.
    rewrite RepairMore.fixRoom_ids in HF.
    apply Rebuilt_ids in HF. rewrite <- HF. reflexivity.
  - rewrite buildGridPOIs_types. apply hasType_elem, Hs.
  - rewrite buildGridPOIs_types. apply hasType_elem, Hgo.
  - unfold positionGridObjects in Ho.
    cbn [GridLevelData.pois GridLevelData.rooms get mbind result_bind mret
         result_ret] in Ho.
    injection Ho as <-. rewrite Placement.loop_references. reflexivity.
Qed.

Lemma repaired_layout_assembles_witness :
  exists repaired scene,
    validateAndFixLayout Examples.rawLayout = inr repaired /\
    assemble AssemblyExamples.context MoreExamples.torchlitNight repaired
      [AssemblyExamples.barrel; AssemblyExamples.guard] None = inr scene /\
    GeometryRoom.id <$> SceneGeometry.rooms (SceneConfig.geometry scene)
      = ["room_1"; "room_2"] /\
    GeometryCorridor.id <$> SceneGeometry.corridors (SceneConfig.geometry scene)
      = ["corr_1"] /\
    spawn ∈ GeometryPOI.type <$>
              SceneGeometry.poi_markers (SceneConfig.geometry scene) /\
    goal ∈ GeometryPOI.type <$>
             SceneGeometry.poi_markers (SceneConfig.geometry scene) /\
    SceneObject.reference_id <$> SceneConfig.objects scene
      = ["prop_001"; "char_002"].
Proof.
  apply (repaired_layout_assembles AssemblyExamples.context
           MoreExamples.torchlitNight Examples.rawLayout
           [AssemblyExamples.barrel; AssemblyExamples.guard] None
           Examples.rawLevel _ eq_refl eq_refl).
  cbn. lia.
Defined.

Lemma fixCorridors_widths (m : gmap string GridRoom.t)
    (corridors : list GridCorridor.t) :
  Forall (fun c => 0 <= num_or (GridCorridor.widthCells c) 1) corridors ->
  Forall (fun c => 0 <= num_or (GridCorridor.widthCells c) 1)
    (omap (fixCorridor m) corridors).
Proof.
  induction 1 as [|c corridors Hc _ IH]; [constructor|].
  cbn [omap list_omap]. unfold fixCorridor at 1.
  destruct (m !! GridCorridor.fromRoom c); [|exact IH].
  destruct (m !! GridCorridor.toRoom c); [|exact IH].
  constructor; [|exact IH].
  cbn [buildCorridorBetweenRooms GridCorridor.widthCells].
  rewrite Repair.num_or_idempotent. exact Hc.
Qed.

Lemma fixRooms_positive (rawRooms : list GridRoom.t) :
  Forall (fun room => 0 < GridRoom.width room /\ 0 < GridRoom.height room)
    (fixRoom <$> rawRooms).
Proof.
  apply Forall_fmap, Forall_forall. intros raw _. cbn beta.
  destruct (RepairMore.fixRoom_integer raw)
    as (x & y & w & h & (_ & _ & Hw & Hh) & Hw2 & Hh2).
  unfold compose. rewrite Hw, Hh.
  split; (apply (Qlt_le_trans _ (inject_Z 2)); [reflexivity|]);
    rewrite <- Zle_Qle; assumption.
Qed.

(** X26.  Repair, opening detection and wall carving composed: when no
    corridor of the raw layout has a negative width, every wall of the scene
    assembled from the repaired layout lies on a side of one of the repaired
    rooms, with a positive length and between the two ends of the side, in
    the wall colour read from the style found for that room (none when the
    first tag that is a key of [ROOM_STYLES] is an inherited one), and no
    two walls share an id. *)
Theorem repaired_scene_walls_on_sides (context : GameContext.t)
    (environment : Environment.t) (layout : LevelLayout.t)
    (assets : list GeneratedAsset.t) (skybox : option GeneratedSkybox.t)
    (level : GridLevelData.t) (rawRooms : list GridRoom.t) :
  LevelLayout.level layout = Some level ->
  GridLevelData.rooms level = Some rawRooms ->
  (2 <= length rawRooms)%nat ->
  Forall (fun c => 0 <= num_or (GridCorridor.widthCells c) 1)
    (GridLevelData.corridors level) ->
  exists repaired level' rooms scene,
    validateAndFixLayout layout = inr repaired /\
    LevelLayout.level repaired = Some level' /\
    GridLevelData.rooms level' = Some rooms /\
    assemble context environment repaired assets skybox = inr scene /\
    Forall (fun wall => exists room, room ∈ rooms /\ WallSpec3.WallOf room wall)
      (SceneGeometry.walls (SceneConfig.geometry scene)) /\
    NoDup (GeometryWall.id <$>
             SceneGeometry.walls (SceneConfig.geometry scene)).
Proof.
  intros Hl Hr Hlen Hwidths.
  destruct (Repair.validateAndFixLayout_ok _ _ _ Hl Hr Hlen)
    as (defaults & Hdef & Hfix).
  rewrite Hfix.
  match goal with
  | |- context [inr ?r = inr _] =>
      destruct (assemble_ok context environment r assets skybox _ _ _
                  eq_refl eq_refl eq_refl) as (scene & Hscene & Hg & _)
  end.
  eexists _, _, _, scene. split; [reflexivity|]. split; [reflexivity|].
  split; [reflexivity|]. split; [exact Hscene|].
  rewrite Hg. cbn [SceneGeometry.walls GridLevelData.corridors].
  unfold buildGridWalls. split.
  - destruct (Sides.wallsLoop_sides _ _ (fixRooms_positive rawRooms)
                (fixCorridors_widths
                   (buildRoomsMap (fixRoom <$> rawRooms)) _ Hwidths)
                [] 0%nat)
      as (new & final & -> & H).
    exact H.
  - destruct (WallsMore.wallsLoop_ids
                (omap (fixCorridor (buildRoomsMap (fixRoom <$> rawRooms)))
                      (GridLevelData.corridors level))
                (fixRoom <$> rawRooms) [] 0%nat)
      as (new & ks & final & -> & Hids & Hrise & _).
    cbn [fst app]. rewrite Hids.
    apply (@NoDup_fmap_2 _ _ WallSpec2.wallName WallsMore.wallName_inj).
    eapply WallsMore.Rising_NoDup. exact Hrise.
Qed.

Lemma repaired_scene_walls_on_sides_witness :
  exists repaired level' rooms scene,
    validateAndFixLayout Examples.rawLayout = inr repaired /\
    LevelLayout.level repaired = Some level' /\
    GridLevelData.rooms level' = Some rooms /\
    assemble AssemblyExamples.context MoreExamples.torchlitNight repaired
      [AssemblyExamples.barrel] None = inr scene /\
    Forall (fun wall => exists room, room ∈ rooms /\ WallSpec3.WallOf room wall)
      (SceneGeometry.walls (SceneConfig.geometry scene)) /\
    NoDup (GeometryWall.id <$>
             SceneGeometry.walls (SceneConfig.geometry scene)).
Proof.
  apply (repaired_scene_walls_on_sides AssemblyExamples.context
           MoreExamples.torchlitNight Examples.rawLayout
           [AssemblyExamples.barrel] None Examples.rawLevel _
           eq_refl eq_refl).
  - cbn. lia.
  - repeat constructor; vm_compute; congruence.
Defined.

End Scene.

(** * Markers of the default points of interest *)

Module MarkersMore.
Import LevelLayoutService AssemblyService RepairSpec MarkerSpec.

Lemma find_by_id (rooms : list GridRoom.t) (room : GridRoom.t) :
  NoDup (GridRoom.id <$> rooms) -> room ∈ rooms ->
  List.find (fun r => bool_decide (GridRoom.id r = GridRoom.id room)) rooms
  = Some room.
Proof.
  induction rooms as [|r rooms IH]; intros Hnd Hin; [inversion Hin|].
  cbn [fmap list_fmap] in Hnd. apply NoDup_cons in Hnd as [Hr Hnd].
  cbn [List.find]. apply elem_of_cons in Hin as [->|Hin].
  - rewrite bool_decide_eq_true_2 by reflexivity. reflexivity.
  - rewrite bool_decide_eq_false_2; [apply IH; assumption|].
    intros Heq. apply Hr. rewrite Heq. apply list_elem_of_fmap.
    exists room. split; [reflexivity|exact Hin].
Qed.

Lemma pickRoom_elem (tag : string) (rooms : list GridRoom.t)
    (fallback : option GridRoom.t) (room : GridRoom.t) :
  (forall r, fallback = Some r -> r ∈ rooms) ->
  pickRoom tag rooms fallback = Some room -> room ∈ rooms.
Proof.
  unfold pickRoom. intros Hf.
  destruct (List.find _ rooms) as [r|] eqn:E.
  - intros [= <-]. apply find_some in E as [E _]. apply list_elem_of_In, E.
  - apply Hf.
Qed.

Lemma head_elem {A} (l : list A) (x : A) : head l = Some x -> x ∈ l.
Proof. destruct l; [discriminate|]. intros [= <-]. left. Qed.

Lemma last_elem {A} (l : list A) (x : A) : last l = Some x -> x ∈ l.
Proof.
  intros H. apply last_Some in H as [l' ->].
  apply elem_of_app. right. left.
Qed.

(** X23.  A repaired layout whose room ids are distinct and whose points
    of interest were replaced by the default ones has two markers: the
    spawn marker stands at the centre of the room picked for the tag entry
    (the first room when no room carries the tag) and the goal marker at the
    centre of the room picked for the tag goal (the last room when none
    carries it); neither falls back to the origin. *)
Theorem default_markers_stand_in_their_rooms (layout : LevelLayout.t)
    (level : GridLevelData.t) (rawRooms : list GridRoom.t) :
  LevelLayout.level layout = Some level ->
  GridLevelData.rooms level = Some rawRooms ->
  (2 <= length rawRooms)%nat ->
  NoDup (GridRoom.id <$> rawRooms) ->
  keptPOIs (GridLevelData.pois level) = None ->
  exists repaired level' rooms pois entryRoom goalRoom,
    validateAndFixLayout layout = inr repaired /\
    LevelLayout.level repaired = Some level' /\
    GridLevelData.rooms level' = Some rooms /\
    GridLevelData.pois level' = Some pois /\
    pickRoom "entry" rooms (head rooms) = Some entryRoom /\
    pickRoom "goal" rooms (last rooms) = Some goalRoom /\
    buildGridPOIs pois rooms
    = [ markerIn "poi_spawn" spawn entryRoom;
        markerIn "poi_goal" goal goalRoom ].
Proof.
  intros Hl Hr Hlen Hnd Hkept.
  destruct (Repair.validateAndFixLayout_ok _ _ _ Hl Hr Hlen)
    as (defaults & Hdef & ->).
  assert (Hne : fixRoom <$> rawRooms <> []).
  { destruct rawRooms; [cbn in Hlen; lia|discriminate]. }
  destruct (Repair.generateDefaultPOIs_ok _ Hne) as (e & g & He & Hg & Hgen).
  rewrite Hgen in Hdef. injection Hdef as <-.
  eexists _, _, _, _, e, g.
  split; [reflexivity|]. split; [reflexivity|]. split; [reflexivity|].
  split; [reflexivity|]. split; [exact He|]. split; [exact Hg|].
  rewrite Hkept. cbn [default from_option]. unfold id.
  rewrite <- (RepairMore.fixRoom_ids rawRooms) in Hnd.
  apply pickRoom_elem in He; [|apply head_elem].
  apply pickRoom_elem in Hg; [|apply last_elem].
  unfold buildGridPOIs. cbn [fmap list_fmap mkPOI GridPOI.roomId].
  rewrite (find_by_id _ e Hnd He), (find_by_id _ g Hnd Hg). reflexivity.
Qed.

Lemma default_markers_stand_in_their_rooms_witness :
  exists repaired level' rooms pois entryRoom goalRoom,
    validateAndFixLayout Examples.threeRoomsLayout = inr repaired /\
    LevelLayout.level repaired = Some level' /\
    GridLevelData.rooms level' = Some rooms /\
    GridLevelData.pois level' = Some pois /\
    pickRoom "entry" rooms (head rooms) = Some entryRoom /\
    pickRoom "goal" rooms (last rooms) = Some goalRoom /\
    buildGridPOIs pois rooms
    = [ markerIn "poi_spawn" spawn entryRoom;
        markerIn "poi_goal" goal goalRoom ].
Proof.
  apply (default_markers_stand_in_their_rooms Examples.threeRoomsLayout
           _ _ eq_refl eq_refl).
  - cbn. lia.
  - apply (bool_decide_unpack _). vm_compute. exact I.
  - reflexivity.
Defined.

End MarkersMore.

(** * More on the object placement *)

Module PlacementMore.
Import AssemblyService PlacementSpec PlacementSpec2.

Section Slots.
Variable rooms : list GridRoom.t.
Variables spawnPOI goalPOI : option GridPOI.t.
Variable roomsMap : gmap string GridRoom.t.
Variable context : GameContext.t.

Lemma placeAtPOI_count poi sc counts :
  propCount (placeAtPOI roomsMap poi sc counts) = counts.
Proof. unfold placeAtPOI. destruct (roomsMap !! _); reflexivity. Qed.

Lemma placeCharacter_count character counts :
  propCount (placeCharacter rooms spawnPOI goalPOI roomsMap character counts)
  = counts.
Proof.
  unfold placeCharacter.
  destruct (bool_decide (Character.role character = protagonist)),
    spawnPOI, (bool_decide (Character.role character = antagonist)), goalPOI,
    (List.find (fun r => tagsInclude r "mid") rooms);
    rewrite ?placeAtPOI_count; reflexivity.
Qed.

(** One turn of the loop, by what the asset is. *)
Lemma placeAsset_prop objects counts asset room :
  propTarget rooms context asset = Some room ->
  placeAsset rooms spawnPOI goalPOI roomsMap context (objects, counts) asset
  = (objects ++
       [propObject asset room (default 0%nat (counts !! GridRoom.id room))],
     <[GridRoom.id room := S (default 0%nat (counts !! GridRoom.id room))]>
       counts).
Proof.
  unfold propTarget, placeAsset, usable.
  destruct (bool_decide (GeneratedAsset.status asset = ready)); [|discriminate].
  destruct (bool_decide (GeneratedAsset.path asset = "")); [discriminate|].
  cbn [negb andb orb].
  destruct (List.find _ (GameContext.characters context)); [discriminate|].
  destruct (GameContext.props context ≫= _) as [prop|]; [|discriminate].
  intros H. unfold placeProp. rewrite H. reflexivity.
Qed.

Lemma placeAsset_other objects counts asset :
  usable asset = true ->
  propTarget rooms context asset = None ->
  exists object,
    placeAsset rooms spawnPOI goalPOI roomsMap context (objects, counts) asset
    = (objects ++ [object], counts).
Proof.
  unfold propTarget, placeAsset. intros Hu. rewrite Hu. unfold usable in Hu.
  destruct (bool_decide (GeneratedAsset.status asset = ready)); [|discriminate].
  destruct (bool_decide (GeneratedAsset.path asset = "")); [discriminate|].
  cbn [negb andb orb].
  destruct (List.find _ (GameContext.characters context)) as [character|].
  - intros _. eexists. rewrite placeCharacter_count. reflexivity.
  - destruct (GameContext.props context ≫= _) as [prop|].
    + intros H. unfold placeProp. rewrite H. eexists. reflexivity.
    + intros _. eexists. reflexivity.
Qed.

Lemma propTarget_usable asset room :
  propTarget rooms context asset = Some room -> usable asset = true.
Proof. unfold propTarget. destruct (usable asset); [reflexivity|discriminate]. Qed.

(** The state of the loop after the assets [assets]: one object per usable
    asset, the counter of a room id at the number of props placed in rooms
    of that id, and each prop on the slot numbered by the props placed
    before it in a room of the same id. *)
Lemma slots_loop (assets : list GeneratedAsset.t) :
  let st := foldl (placeAsset rooms spawnPOI goalPOI roomsMap context)
                  ([], ∅) assets in
  length st.1 = length (List.filter usable assets) /\
  (forall roomId,
     default 0%nat (st.2 !! roomId)
     = length (List.filter (placedIn rooms context roomId) assets)) /\
  (forall i asset room,
     assets !! i = Some asset ->
     propTarget rooms context asset = Some room ->
     st.1 !! length (List.filter usable (take i assets))
     = Some (propObject asset room
               (length (List.filter (placedIn rooms context (GridRoom.id room))
                          (take i assets))))).
Proof.
  induction assets as [|asset assets IH] using rev_ind.
  - cbn. split; [reflexivity|]. split; [intros; rewrite lookup_empty; reflexivity|].
    intros i a r H. rewrite lookup_nil in H. discriminate.
  - cbv zeta in IH |- *. rewrite foldl_app. cbn [foldl].
    destruct (foldl _ ([], ∅) assets) as [objects counts] eqn:Hst.
    cbn [fst snd] in IH. destruct IH as (Hlen & Hcount & Hslot).
    rewrite !List.filter_app. cbn [List.filter].
    assert (Hold : forall i a r,
              assets !! i = Some a ->
              propTarget rooms context a = Some r ->
              forall object,
                (objects ++ [object]) !! length (List.filter usable (take i assets))
                = Some (propObject a r
                    (length (List.filter (placedIn rooms context (GridRoom.id r))
                               (take i assets))))).
    { intros i a r Hi Ht object. rewrite lookup_app_l; [apply Hslot; assumption|].
      rewrite Hlen. pose proof (lookup_lt_Some _ _ _ Hi) as Hlt.
      rewrite <- (take_drop i assets) at 2. rewrite List.filter_app, length_app.
      rewrite (drop_S _ a i) by exact Hi. cbn [List.filter].
      rewrite (propTarget_usable _ _ Ht). cbn [length]. lia. }
    destruct (propTarget rooms context asset) as [room|] eqn:Ht.
    + rewrite (placeAsset_prop _ _ _ _ Ht). cbn [fst snd].
      rewrite (propTarget_usable _ _ Ht).
      split; [rewrite !length_app, Hlen; reflexivity|]. split.
      * intros roomId. rewrite List.filter_app, length_app. cbn [List.filter].
        replace (placedIn rooms context roomId asset)
          with (bool_decide (GridRoom.id room = roomId))
          by (unfold placedIn; rewrite Ht; reflexivity).
        destruct (decide (GridRoom.id room = roomId)) as [<-|Hne].
        -- rewrite lookup_insert_eq.
           rewrite bool_decide_eq_true_2 by reflexivity.
           cbn [default from_option length]. unfold id. rewrite Hcount. lia.
        -- rewrite lookup_insert_ne by exact Hne.
           rewrite bool_decide_eq_false_2 by exact Hne.
           rewrite Hcount. cbn [length]. lia.
      * intros i a r Hi Hta.
        destruct (decide (i < length assets)%nat) as [Hlt|Hge].
        -- rewrite lookup_app_l in Hi by exact Hlt.
           rewrite take_app_le by lia. apply Hold; assumption.
        -- rewrite lookup_app_r in Hi by lia.
           destruct (i - length assets)%nat eqn:E; [|destruct n; discriminate].
           injection Hi as <-. rewrite Hta in Ht. injection Ht as ->.
           assert (i = length assets) as -> by lia.
           rewrite take_app_length. rewrite <- Hlen.
           rewrite list_lookup_middle by reflexivity.
           rewrite Hcount. reflexivity.
    + destruct (usable asset) eqn:Hu.
      * destruct (placeAsset_other objects counts asset Hu Ht) as (object & ->).
        cbn [fst snd].
        split; [rewrite !length_app, Hlen; reflexivity|]. split.
        -- intros roomId. rewrite List.filter_app, length_app.
           cbn [List.filter].
           replace (placedIn rooms context roomId asset) with false
             by (unfold placedIn; rewrite Ht; reflexivity).
           rewrite Hcount. cbn [length]. lia.
        -- intros i a r Hi Hta.
           destruct (decide (i < length assets)%nat) as [Hlt|Hge].
           ++ rewrite lookup_app_l in Hi by exact Hlt.
              rewrite take_app_le by lia. apply Hold; assumption.
           ++ rewrite lookup_app_r in Hi by lia.
              destruct (i - length assets)%nat eqn:E; [|destruct n; discriminate].
              injection Hi as <-. congruence.
      * rewrite (Placement.placeAsset_skipped _ _ _ _ _ _ _ Hu). cbn [fst snd].
        split; [rewrite length_app, Hlen; cbn [length]; lia|]. split.
        -- intros roomId. rewrite List.filter_app, length_app.
           cbn [List.filter].
           replace (placedIn rooms context roomId asset) with false
             by (unfold placedIn; rewrite Ht; reflexivity).
           rewrite Hcount. cbn [length]. lia.
        -- intros i a r Hi Hta.
           destruct (decide (i < length assets)%nat) as [Hlt|Hge].
           ++ rewrite lookup_app_l in Hi by exact Hlt.
              rewrite take_app_le by lia. apply Hslot; assumption.
           ++ rewrite lookup_app_r in Hi by lia.
              destruct (i - length assets)%nat eqn:E; [|destruct n; discriminate].
              injection Hi as <-. congruence.
Qed.

End Slots.

(** X24.  A prop goes to the first room that carries its target tag, on a
    slot of the arc around the centre of that room, with scale 2 and no point
    of interest: the slot is numbered by the props placed before it, in the
    order of the assets, in a room of the same id (the first prop of a room
    takes slot 0, the next one slot 1, and so on). *)
Theorem props_take_successive_slots (level : GridLevelData.t)
    (rooms : list GridRoom.t) (pois : list GridPOI.t)
    (assets : list GeneratedAsset.t) (context : GameContext.t) :
  GridLevelData.rooms level = Some rooms ->
  GridLevelData.pois level = Some pois ->
  exists objects,
    positionGridObjects level assets context = inr objects /\
    forall i asset room,
      assets !! i = Some asset ->
      propTarget rooms context asset = Some room ->
      objects !! length (List.filter usable (take i assets))
      = Some (propObject asset room
                (length (List.filter (placedIn rooms context (GridRoom.id room))
                           (take i assets)))).
Proof.
  intros Hr Hp. unfold positionGridObjects. rewrite Hr, Hp.
  cbn [get mbind result_bind mret result_ret].
  eexists. split; [reflexivity|].
  apply (slots_loop rooms (findPOI spawn pois) (findPOI goal pois)
           (roomsById rooms) context assets).
Qed.

Lemma props_take_successive_slots_witness :
  exists objects,
    positionGridObjects AssemblyExamples.level
      [AssemblyExamples.barrel; AssemblyExamples.guard; MoreExamples.crate]
      MoreExamples.storeroom = inr objects /\
    forall i asset room,
      [AssemblyExamples.barrel; AssemblyExamples.guard; MoreExamples.crate] !! i
        = Some asset ->
      propTarget [Examples.R1; Examples.R3] MoreExamples.storeroom asset
        = Some room ->
      objects !! length (List.filter usable
                 (take i [AssemblyExamples.barrel; AssemblyExamples.guard;
                          MoreExamples.crate]))
      = Some (propObject asset room
                (length (List.filter
                           (placedIn [Examples.R1; Examples.R3]
                              MoreExamples.storeroom (GridRoom.id room))
                           (take i [AssemblyExamples.barrel;
                                    AssemblyExamples.guard;
                                    MoreExamples.crate])))).
Proof.
  apply (props_take_successive_slots AssemblyExamples.level
           [Examples.R1; Examples.R3]
           [ Examples.poi "poi_spawn" spawn "R1";
             Examples.poi "poi_goal" goal "R3" ]
           [AssemblyExamples.barrel; AssemblyExamples.guard; MoreExamples.crate]
           MoreExamples.storeroom eq_refl eq_refl).
Defined.

Section Leads.
Variable rooms : list GridRoom.t.
Variables spawnPOI goalPOI : option GridPOI.t.
Variable roomsMap : gmap string GridRoom.t.
Variable context : GameContext.t.

Lemma placeAsset_lead objects counts asset character ty sc poi room :
  usable asset = true ->
  List.find (fun c => bool_decide (Character.id c = GeneratedAsset.id asset))
    (GameContext.characters context) = Some character ->
  leadAnchor (Character.role character) = Some (ty, sc) ->
  match ty with spawn => spawnPOI | goal => goalPOI | _ => None end
    = Some poi ->
  roomsMap !! GridPOI.roomId poi = Some room ->
  placeAsset rooms spawnPOI goalPOI roomsMap context (objects, counts) asset
  = (objects ++ [characterObject asset room sc poi], counts).
Proof.
  unfold usable, placeAsset. intros H Hc Hrole Hpoi Hroom.
  apply andb_true_iff in H as [H1 H2]. apply negb_true_iff in H2.
  rewrite H1, H2. cbn [negb orb]. rewrite Hc. unfold placeCharacter.
  destruct (Character.role character); cbn in Hrole; [| |discriminate];
    injection Hrole as <- <-; rewrite Hpoi;
    cbn [bool_decide decide_rel]; unfold placeAtPOI; rewrite Hroom;
    reflexivity.
Qed.

Lemma loop_places_lead assets asset character ty sc poi room :
  In asset assets -> usable asset = true ->
  List.find (fun c => bool_decide (Character.id c = GeneratedAsset.id asset))
    (GameContext.characters context) = Some character ->
  leadAnchor (Character.role character) = Some (ty, sc) ->
  match ty with spawn => spawnPOI | goal => goalPOI | _ => None end
    = Some poi ->
  roomsMap !! GridPOI.roomId poi = Some room ->
  forall st,
    In (characterObject asset room sc poi)
      (foldl (placeAsset rooms spawnPOI goalPOI roomsMap context) st assets).1.
Proof.
  intros Hin Hu Hc Hrole Hpoi Hroom.
  induction assets as [|a assets IH]; [destruct Hin|].
  intros [objects counts]. cbn [foldl]. destruct Hin as [->|Hin].
  - rewrite (placeAsset_lead _ _ _ _ _ _ _ _ Hu Hc Hrole Hpoi Hroom).
    apply Placement.loop_keeps. cbn [fst]. apply in_or_app. right. left.
    reflexivity.
  - apply IH. exact Hin.
Qed.

End Leads.

Lemma roomsById_lookup (rooms : list GridRoom.t) (room : GridRoom.t) :
  NoDup (GridRoom.id <$> rooms) -> room ∈ rooms ->
  roomsById rooms !! GridRoom.id room = Some room.
Proof.
  intros Hnd Hin.
  assert (Hsome : is_Some (roomsById rooms !! GridRoom.id room)).
  { apply (RepairMore.buildRoomsMap_is_Some rooms). apply list_elem_of_fmap.
    exists room. split; [reflexivity|exact Hin]. }
  destruct Hsome as [r Hr]. rewrite Hr. f_equal.
  apply (RepairMore.buildRoomsMap_Some rooms) in Hr as [Hrin Hid].
  pose proof (MarkersMore.find_by_id rooms r Hnd Hrin) as H1.
  pose proof (MarkersMore.find_by_id rooms room Hnd Hin) as H2.
  rewrite Hid in H1. congruence.
Qed.

(** X25.  In a level whose room ids are distinct, a lead character stands
    on its marker: the object of the protagonist is placed at the centre of
    the room of the first spawn point, with scale 3, and the object of the
    antagonist at the centre of the room of the first goal point, with scale
    5; the object names that point of interest, whose marker stands at the
    same place 0.1 above the floor. *)
Theorem lead_characters_stand_on_their_markers (level : GridLevelData.t)
    (rooms : list GridRoom.t) (pois : list GridPOI.t)
    (assets : list GeneratedAsset.t) (context : GameContext.t)
    (asset : GeneratedAsset.t) (character : Character.t)
    (ty : POIType) (sc : Vec3) (poi : GridPOI.t) (room : GridRoom.t) :
  GridLevelData.rooms level = Some rooms ->
  GridLevelData.pois level = Some pois ->
  NoDup (GridRoom.id <$> rooms) ->
  In asset assets -> usable asset = true ->
  List.find (fun c => bool_decide (Character.id c = GeneratedAsset.id asset))
    (GameContext.characters context) = Some character ->
  leadAnchor (Character.role character) = Some (ty, sc) ->
  findPOI ty pois = Some poi ->
  room ∈ rooms -> GridRoom.id room = GridPOI.roomId poi ->
  exists objects,
    positionGridObjects level assets context = inr objects /\
    In (characterObject asset room sc poi) objects /\
    In (MarkerSpec.markerIn (GridPOI.id poi) ty room)
       (buildGridPOIs pois rooms).
Proof.
  intros Hr Hp Hnd Hin Hu Hc Hrole Hpoi Hroom Hid.
  unfold positionGridObjects. rewrite Hr, Hp.
  cbn [get mbind result_bind mret result_ret].
  eexists. split; [reflexivity|]. split.
  - apply (loop_places_lead rooms (findPOI spawn pois) (findPOI goal pois)
             (roomsById rooms) context assets asset character ty sc poi room
             Hin Hu Hc Hrole).
    + destruct (Character.role character); cbn in Hrole; [| |discriminate];
        injection Hrole as <- <-; exact Hpoi.
    + rewrite <- Hid. apply roomsById_lookup; assumption.
  - unfold findPOI in Hpoi. apply find_some in Hpoi as [Hpin Hty].
    apply bool_decide_eq_true_1 in Hty.
    unfold buildGridPOIs. apply list_elem_of_In, list_elem_of_fmap.
    exists poi. split; [|apply list_elem_of_In; exact Hpin].
    rewrite <- Hid, (MarkersMore.find_by_id rooms room Hnd Hroom).
    rewrite Hty. reflexivity.
Qed.

Lemma lead_characters_stand_on_their_markers_witness :
  exists objects,
    positionGridObjects AssemblyExamples.level [MoreExamples.hero]
      MoreExamples.cast = inr objects /\
    In (characterObject MoreExamples.hero Examples.R1 (3, 3, 3)
          (Examples.poi "poi_spawn" spawn "R1")) objects /\
    In (MarkerSpec.markerIn "poi_spawn" spawn Examples.R1)
       (buildGridPOIs
          [ Examples.poi "poi_spawn" spawn "R1";
            Examples.poi "poi_goal" goal "R3" ]
          [Examples.R1; Examples.R3]).
Proof.
  apply (lead_characters_stand_on_their_markers AssemblyExamples.level
           [Examples.R1; Examples.R3]
           [ Examples.poi "poi_spawn" spawn "R1";
             Examples.poi "poi_goal" goal "R3" ]
           [MoreExamples.hero] MoreExamples.cast MoreExamples.hero
           {| Character.id := "char_001"; Character.name := "Hero";
              Character.role := protagonist |}
           spawn (3, 3, 3) (Examples.poi "poi_spawn" spawn "R1") Examples.R1
           eq_refl eq_refl).
  - apply (bool_decide_unpack _). vm_compute. exact I.
  - left. reflexivity.
  - reflexivity.
  - reflexivity.
  - reflexivity.
  - reflexivity.
  - constructor.
  - reflexivity.
Defined.

End PlacementMore.
